(** * skimage.draw._random_shapes: a shallow embedding and its properties

    The development follows [src/skimage/draw/_random_shapes.py]:
    the three shape fitters ([_generate_rectangle_mask],
    [_generate_circle_mask], [_generate_triangle_mask]), the colour
    sampler ([_generate_random_colors]) and the placement engine
    ([random_shapes]).

    Python integers are [Z].  The halves produced by [shape[0] / 2.0] are
    rationals [Q] (they are exact in double precision).  Exceptions are an
    explicit result type.  The fitters and the colour sampler receive the
    [np.random.RandomState] as an argument and mutate it: they are
    computations over a [RandomState].  [random_shapes] also warns and
    prints: it is a computation over a [World] that holds the random
    state, the warnings and the standard output. *)

From Stdlib Require Import ZArith QArith Lia String List Bool.
From stdpp Require Import base list.
Import ListNotations.

Local Open Scope string_scope.
Local Open Scope Z_scope.

(** ** Exceptions and results *)

Inductive Exn : Type :=
| ValueError (msg : string)
| ArithmeticError (msg : string)
| IndexError
| KeyError (key : string)
| UnboundLocalError (name : string)
| TypeError.

Inductive Res (A : Type) : Type :=
| Ok (a : A)
| Raise (e : Exn).
Arguments Ok {A} a.
Arguments Raise {A} e.

(** ** The world: random stream, warnings, standard output *)

(** A [np.random.RandomState] is a source of raw draws together with a
    cursor; every primitive draw reads the value under the cursor and
    advances it. *)
Record RandomState : Type := mkRandomState {
  rs_raw : nat -> Z;
  rs_pos : nat
}.

Record World : Type := mkWorld {
  w_random : RandomState;
  w_warnings : list string;
  w_stdout : list string
}.

(** State passing with exceptions; the state survives an exception. *)
Definition SE (S A : Type) : Type := S -> Res A * S.

(** Computations that only use a random state, and computations of
    [random_shapes]. *)
Definition R (A : Type) : Type := SE RandomState A.
Definition M (A : Type) : Type := SE World A.

Definition ret {S A} (a : A) : SE S A := fun w => (Ok a, w).

Definition raise {S A} (e : Exn) : SE S A := fun w => (Raise e, w).

Definition bind {S A B} (m : SE S A) (k : A -> SE S B) : SE S B :=
  fun w => match m w with
           | (Ok a, w') => k a w'
           | (Raise e, w') => (Raise e, w')
           end.

Notation "x <- m ;; k" := (bind m (fun x => k))
  (at level 100, m at next level, right associativity).
Notation "m ;;; k" := (bind m (fun _ => k))
  (at level 100, right associativity).

(** [try: ... except ArithmeticError: ...] around a call: an
    [ArithmeticError] becomes [None], every other exception propagates. *)
Definition try_ArithmeticError {S A} (m : SE S A) : SE S (option A) :=
  fun w => match m w with
           | (Ok a, w') => (Ok (Some a), w')
           | (Raise (ArithmeticError _), w') => (Ok None, w')
           | (Raise e, w') => (Raise e, w')
           end.

Definition warn (msg : string) : M unit :=
  fun w => (Ok tt, mkWorld (w_random w) (w_warnings w ++ [msg]) (w_stdout w)).

Definition print (msg : string) : M unit :=
  fun w => (Ok tt, mkWorld (w_random w) (w_warnings w) (w_stdout w ++ [msg])).

(** A call on the random state held by the world. *)
Definition with_random {A} (m : R A) : M A :=
  fun w => match m (w_random w) with
           | (r, rs) => (r, mkWorld rs (w_warnings w) (w_stdout w))
           end.

(** ** numpy's random primitives *)

Definition next_raw : R Z :=
  fun rs => (Ok (rs_raw rs (rs_pos rs)),
             mkRandomState (rs_raw rs) (S (rs_pos rs))).

(** [random.randint(low, high)]: an integer of the half-open interval
    [low, high); [ValueError] when the interval is empty. *)
Definition randint (low high : Z) : R Z :=
  if high <=? low then raise (ValueError "low >= high")
  else raw <- next_raw ;; ret (low + raw mod (high - low)).

Fixpoint randint_draws (low high : Z) (n : nat) : R (list Z) :=
  match n with
  | O => ret []
  | S n' => x <- randint low high ;;
            xs <- randint_draws low high n' ;;
            ret (x :: xs)
  end.

(** [random.randint(low, high, size=n)]: an array of [n] draws; an empty
    array is returned before the bounds are looked at. *)
Definition randint_size (low high n : Z) : R (list Z) :=
  if n <? 0 then raise (ValueError "negative dimensions are not allowed")
  else if n =? 0 then ret []
  else randint_draws low high (Z.to_nat n).

(** [random.random_sample()]: a double [k / 2^53] with [0 <= k < 2^53]. *)
Definition random_sample : R Q :=
  raw <- next_raw ;; ret ((raw mod 2 ^ 53) # (2 ^ 53)).

Fixpoint cumsum_from (acc : Q) (p : list Q) : list Q :=
  match p with
  | [] => []
  | x :: p' => (acc + x)%Q :: cumsum_from (acc + x)%Q p'
  end.

(** [cdf.searchsorted(u, side='right')]: the number of leading entries
    of the sorted [cdf] that are [<= u]. *)
Fixpoint searchsorted_right (cdf : list Q) (u : Q) : nat :=
  match cdf with
  | [] => O
  | c :: cdf' => if Qle_bool c u then S (searchsorted_right cdf' u) else O
  end.

(** [random.choice(a, p=p)]. *)
Definition choice_p {A} (a : list A) (p : list Q) : R A :=
  if negb (length a =? length p)%nat
  then raise (ValueError "a and p must have same size")
  else
    let cdf := cumsum_from 0%Q p in
    let total := List.last cdf 0%Q in
    let cdf := map (fun c => (c / total)%Q) cdf in
    u <- random_sample ;;
    match a !! searchsorted_right cdf u with
    | Some x => ret x
    | None => raise IndexError
    end.

(** [random.choice(a)]: a uniform index into [a]. *)
Definition choice {A} (a : list A) : R A :=
  match a with
  | [] => raise (ValueError "a must be non-empty")
  | _ => i <- randint 0 (Z.of_nat (length a)) ;;
         match a !! Z.to_nat i with
         | Some x => ret x
         | None => raise IndexError
         end
  end.

(** ** numpy arrays

    The canvas and the occupancy mask are three-dimensional arrays
    (rows, columns, channels): a list of rows, each a list of pixels,
    each a list of channel values. *)

Abbreviation ndarray A := (list (list (list A))) (only parsing).

(** [np.full(shape, v)] (and [np.zeros]). *)
Definition np_full {S A} (shape : Z * Z * Z) (v : A) : SE S (ndarray A) :=
  let '(rows, cols, chans) := shape in
  if (rows <? 0) || (cols <? 0) || (chans <? 0)
  then raise (ValueError "negative dimensions are not allowed")
  else ret (replicate (Z.to_nat rows)
              (replicate (Z.to_nat cols) (replicate (Z.to_nat chans) v))).

(** An index [i] along an axis of length [n]: [0 <= i < n] is itself,
    [-n <= i < 0] counts from the end, anything else is out of bounds. *)
Definition norm_index (n : nat) (i : Z) : option nat :=
  if (0 <=? i) && (i <? Z.of_nat n) then Some (Z.to_nat i)
  else if (- Z.of_nat n <=? i) && (i <? 0) then Some (Z.to_nat (i + Z.of_nat n))
  else None.

(** The cell (row, column) a coordinate pair designates in an array. *)
Definition cell_of {A} (a : ndarray A) (p : Z * Z) : option (nat * nat) :=
  match norm_index (length a) (fst p) with
  | None => None
  | Some r =>
      match a !! r with
      | None => None
      | Some row =>
          match norm_index (length row) (snd p) with
          | None => None
          | Some c => Some (r, c)
          end
      end
  end.

Definition pixel {A} (a : ndarray A) (rc : nat * nat) : option (list A) :=
  match a !! fst rc with
  | None => None
  | Some row => row !! snd rc
  end.

Fixpoint cells_of {A} (a : ndarray A) (indices : list (Z * Z))
  : option (list (nat * nat)) :=
  match indices with
  | [] => Some []
  | p :: rest =>
      match cell_of a p, cells_of a rest with
      | Some rc, Some rcs => Some (rc :: rcs)
      | _, _ => None
      end
  end.

(** [a[indices]] for a pair of coordinate arrays: the pixels read, or
    [IndexError]. *)
Definition getitem {S A} (a : ndarray A) (indices : list (Z * Z))
  : SE S (list (list A)) :=
  match cells_of a indices with
  | None => raise IndexError
  | Some rcs => ret (omap (pixel a) rcs)
  end.

Definition set_pixel {A} (v : list A) (a : ndarray A) (rc : nat * nat)
  : ndarray A :=
  alter (alter (fun _ => v) (snd rc)) (fst rc) a.

(** Broadcasting a one-dimensional value over the channel axis. *)
Definition broadcast {A} (chans : nat) (v : list A) : option (list A) :=
  if (length v =? chans)%nat then Some v
  else match v with
       | [x] => Some (replicate chans x)
       | _ => None
       end.

(** [a[indices] = v]: every index is checked, [v] is broadcast over the
    channel axis, then all designated pixels are overwritten. *)
Definition setitem {S A} (chans : Z) (a : ndarray A)
           (indices : list (Z * Z)) (v : list A) : SE S (ndarray A) :=
  match cells_of a indices with
  | None => raise IndexError
  | Some rcs =>
      match broadcast (Z.to_nat chans) v with
      | None => raise (ValueError "could not broadcast input array")
      | Some px => ret (foldl (set_pixel px) a rcs)
      end
  end.

(** [a.any()] on the result of a read. *)
Definition np_any (pixels : list (list bool)) : bool :=
  existsb (existsb id) pixels.

(** Storing Python integers into a [uint8] array wraps modulo 256. *)
Definition as_uint8 (v : list Z) : list Z := map (fun x => x mod 256) v.

(** [np.transpose(colors)] for a list of equally long arrays; an empty
    list gives the empty one-dimensional array. *)
Definition np_transpose (colors : list (list Z)) : list (list Z) :=
  match colors with
  | [] => []
  | c :: _ => map (fun i => map (fun col => nth i col 0) colors)
                  (seq 0 (length c))
  end.

(** ** Python floats that are halves of integers *)

(** [int(x)]: truncation toward zero. *)
Definition py_int (x : Q) : Z := Z.quot (Qnum x) (Z.pos (Qden x)).

Definition Qlt_bool (x y : Q) : bool := negb (Qle_bool y x).

(** [min(a, b)] returns its first argument unless the second is
    strictly smaller. *)
Definition py_minQ (x y : Q) : Q := if Qlt_bool y x then y else x.

(** [random.randint] called with float bounds converts both with
    [int(...)]. *)
Definition randint_float (low high : Q) : R Z :=
  randint (py_int low) (py_int high).

(** ** Shape fitters *)

Abbreviation Point := (Z * Z)%type (only parsing).
Abbreviation Indices := (list (Z * Z)) (only parsing).
Abbreviation BBox := ((Z * Z) * (Z * Z))%type (only parsing).
Abbreviation Label := (string * ((Z * Z) * (Z * Z)))%type (only parsing).
Definition Fitter : Type :=
  (Z * Z) -> Z * Z * Z -> Z * Z -> R (list (Z * Z) * Label).

Definition cannot_fit : Exn := ArithmeticError "cannot fit shape to image".

(** ** Arguments of [random_shapes] *)

(** Modelled from the spec: the scenario identifiers.  The source compares
    [scenario] against four constants that the module does not define; the
    spec makes a scenario an enumerated identifier.  [OtherScenario] stands
    for every value that is none of the four. *)
Inductive Scenario : Type :=
| SHAPE_GENERATOR_ALL_HALO
| SHAPE_GENERATOR_ALL_CORE
| SHAPE_GENERATOR_R_T
| SHAPE_GENERATOR_C
| OtherScenario (name : string).

Definition Scenario_eqb (a b : Scenario) : bool :=
  match a, b with
  | SHAPE_GENERATOR_ALL_HALO, SHAPE_GENERATOR_ALL_HALO => true
  | SHAPE_GENERATOR_ALL_CORE, SHAPE_GENERATOR_ALL_CORE => true
  | SHAPE_GENERATOR_R_T, SHAPE_GENERATOR_R_T => true
  | SHAPE_GENERATOR_C, SHAPE_GENERATOR_C => true
  | OtherScenario x, OtherScenario y => String.eqb x y
  | _, _ => false
  end.

(** [intensity_range]: one (low, high) pair, or a tuple of such pairs. *)
Inductive IntensityRange : Type :=
| IntensityPair (low high : Z)
| IntensityPairs (ranges : list (Z * Z)).

(** The returned image: the canvas, or the canvas without its channel
    axis when [multichannel] is false. *)
Inductive Image : Type :=
| Multichannel (a : ndarray Z)
| Grey (a : list (list Z)).

(** ** A reference rasterizer

    Used to run the model on concrete inputs: a polygon is rasterized as
    the half-open bounding box of its vertices, a disk as the box of side
    [2 * radius - 1] around its centre. *)

Definition zrange (lo hi : Z) : list Z :=
  map (fun i => lo + Z.of_nat i) (seq 0 (Z.to_nat (hi - lo))).

Definition box (r0 r1 c0 c1 : Z) : list (Z * Z) :=
  flat_map (fun r => map (fun c => (r, c)) (zrange c0 c1)) (zrange r0 r1).

Definition box_polygon (rows cols : list Z) : list (Z * Z) :=
  match rows, cols with
  | r :: rs, c :: cs =>
      box (fold_right Z.min r rs) (fold_right Z.max r rs)
          (fold_right Z.min c cs) (fold_right Z.max c cs)
  | _, _ => []
  end.

Definition box_disk (center : Z * Z) (radius : Z) : list (Z * Z) :=
  box (fst center - radius + 1) (fst center + radius)
      (snd center - radius + 1) (snd center + radius).

(** A stand-in for the triangle height [ceil(side * sqrt(3/4))] and a
    stand-in seeded generator, to run the model. *)
Definition approx_triangle_height (side : Z) : Z := (side * 866 + 999) / 1000.

Definition lcg_stream (seed : Z) : nat -> Z :=
  fun i => (seed * 1103515245 + (Z.of_nat i + 1) * 12345) mod 2 ^ 31.

(** A stream whose raw draws are read from a list, then 0 forever. *)
Definition stream_of (l : list Z) : nat -> Z := fun i => nth i l 0.

Definition world_of (l : list Z) : World :=
  mkWorld (mkRandomState (stream_of l) 0) [] [].

Section RandomShapes.

(** The rasterizers [skimage.draw.polygon] and [skimage.draw.disk] are
    imported by the module; they map geometry to the coordinates it
    covers.  [draw_polygon rows cols] takes the vertex rows and vertex
    columns.  The result, a pair of coordinate arrays in the source, is
    the list of its (row, column) pairs. *)
Variable draw_polygon : list Z -> list Z -> Indices.
Variable draw_disk : Z * Z -> Z -> Indices.

(** [int(np.ceil(np.sqrt(3 / 4.0) * side))], computed in double
    precision by numpy. *)
Variable triangle_height_of : Z -> Z.

Definition _generate_rectangle_mask : Fitter := fun point image shape =>
  let available_width := Z.min (snd (fst image) - snd point) (snd shape) in
  if available_width <? fst shape then raise cannot_fit
  else
    let available_height :=
      Z.min (fst (fst image) - fst point) (snd shape) in
    if available_height <? fst shape then raise cannot_fit
    else
      r <- randint (fst shape) (available_height + 1) ;;
      c <- randint (fst shape) (available_width + 1) ;;
      let rectangle :=
        draw_polygon
          [fst point; fst point + r; fst point + r; fst point]
          [snd point; snd point; snd point + c; snd point + c] in
      let label :=
        ("rectangle", ((fst point, fst point + r),
                       (snd point, snd point + c))) in
      ret (rectangle, label).

Definition _generate_circle_mask : Fitter := fun point image shape =>
  if (fst shape =? 1) || (snd shape =? 1)
  then raise (ValueError "size must be > 1 for circles")
  else
    let min_radius := (inject_Z (fst shape) / 2)%Q in
    let max_radius := (inject_Z (snd shape) / 2)%Q in
    let left := snd point in
    let right := snd (fst image) - snd point in
    let top := fst point in
    let bottom := fst (fst image) - fst point in
    let available_radius :=
      py_minQ (py_minQ (py_minQ (py_minQ (inject_Z left) (inject_Z right))
                                (inject_Z top))
                       (inject_Z bottom))
              max_radius in
    if Qlt_bool available_radius min_radius then raise cannot_fit
    else
      radius <- randint_float min_radius (available_radius + 1)%Q ;;
      let disk := draw_disk (fst point, snd point) radius in
      let label :=
        ("circle", ((fst point - radius + 1, fst point + radius),
                    (snd point - radius + 1, snd point + radius))) in
      ret (disk, label).

Definition _generate_triangle_mask : Fitter := fun point image shape =>
  if (fst shape =? 1) || (snd shape =? 1)
  then raise (ValueError "dimension must be > 1 for triangles")
  else
    let available_side :=
      Z.min (Z.min (snd (fst image) - snd point) (fst point + 1))
            (snd shape) in
    if available_side <? fst shape then raise cannot_fit
    else
      side <- randint (fst shape) (available_side + 1) ;;
      let triangle_height := triangle_height_of side in
      let triangle :=
        draw_polygon
          [fst point; fst point - triangle_height; fst point]
          [snd point; snd point + side / 2; snd point + side] in
      let label :=
        ("triangle", ((fst point - triangle_height, fst point),
                      (snd point, snd point + side))) in
      ret (triangle, label).


(** *** Registries *)

(** Module-level dictionaries keep insertion order. *)
Definition SHAPE_GENERATORS_ALL : list (string * Fitter) :=
  [("rectangle", _generate_rectangle_mask);
   ("triangle", _generate_triangle_mask);
   ("circle", _generate_circle_mask)].

Definition SHAPE_GENERATORS_R_T : list (string * Fitter) :=
  [("rectangle", _generate_rectangle_mask);
   ("triangle", _generate_triangle_mask)].

Definition SHAPE_GENERATORS_C : list (string * Fitter) :=
  [("circle", _generate_circle_mask)].

Definition dict_values {A} (d : list (string * A)) : list A := map snd d.

Definition SHAPE_CHOICES_ALL : list Fitter := dict_values SHAPE_GENERATORS_ALL.
Definition SHAPE_CHOICES_R_T : list Fitter := dict_values SHAPE_GENERATORS_R_T.
Definition SHAPE_CHOICES_C : list Fitter := dict_values SHAPE_GENERATORS_C.

(** Modelled from the spec: the registry [SHAPE_GENERATORS] that
    [random_shapes] indexes with a pinned category is not defined by the
    module (which only defines the [_ALL], [_R_T] and [_C] tables).  The
    spec has one fitter registered per enabled category: rectangle,
    circle, triangle. *)
Definition SHAPE_GENERATORS : list (string * Fitter) :=
  [("rectangle", _generate_rectangle_mask);
   ("circle", _generate_circle_mask);
   ("triangle", _generate_triangle_mask)].

(** [d[key]] *)
Fixpoint dict_get {S A} (d : list (string * A)) (key : string) : SE S A :=
  match d with
  | [] => raise (KeyError key)
  | (k, v) :: d' => if String.eqb k key then ret v else dict_get d' key
  end.

(** *** Colour sampler *)

Fixpoint mapM {S A B} (f : A -> SE S B) (l : list A) : SE S (list B) :=
  match l with
  | [] => ret []
  | x :: l' => y <- f x ;; ys <- mapM f l' ;; ret (y :: ys)
  end.

(** Lines 269-272: the (low, high) pairs the sampler iterates over. *)
Definition channel_ranges {S} (num_channels : Z)
           (intensity_range : IntensityRange) : SE S (list (Z * Z)) :=
  if num_channels =? 1 then
    match intensity_range with
    | IntensityPair low high => ret [(low, high)]
    | IntensityPairs [] => raise IndexError
    | IntensityPairs [_] => raise IndexError
    | IntensityPairs _ => raise TypeError
    end
  else
    match intensity_range with
    | IntensityPair _ _ => raise TypeError
    | IntensityPairs [r] => ret (replicate (Z.to_nat num_channels) r)
    | IntensityPairs rs => ret rs
    end.

Definition _generate_random_colors (num_colors num_channels : Z)
           (intensity_range : IntensityRange) : R (list (list Z)) :=
  ranges <- channel_ranges num_channels intensity_range ;;
  colors <- mapM (fun r => randint_size (fst r) (snd r + 1) num_colors)
                 ranges ;;
  ret (np_transpose colors).

(** *** Placement engine *)

(** The local state of the loop of [random_shapes].  [e_accepted] is a
    ghost field: it records, in label order, the coordinates of every
    committed proposal; nothing reads it. *)
Record Engine : Type := mkEngine {
  e_image : ndarray Z;
  e_filled : ndarray bool;
  e_labels : list Label;
  e_shape_generator : option Fitter;
  e_accepted : list Indices
}.

Definition could_not_fit : string :=
  "Could not fit any shapes to image, consider reducing the minimum dimension".

(** Calling the local variable [shape_generator]. *)
Definition call_generator (g : option Fitter) : Fitter :=
  fun point image_shape shape =>
    match g with
    | Some f => f point image_shape shape
    | None => raise (UnboundLocalError "shape_generator")
    end.

(** Lines 324-343: the category selector of one slot; [current] is the
    binding of [shape_generator] left by earlier slots. *)
Definition select_generator (user_shape : option string)
           (scenario : Scenario) (current : option Fitter)
  : M (option Fitter) :=
  match user_shape with
  | None =>
      if Scenario_eqb scenario SHAPE_GENERATOR_ALL_HALO then
        g <- with_random
               (choice_p SHAPE_CHOICES_ALL [4 # 10; 4 # 10; 2 # 10]%Q) ;;
        ret (Some g)
      else if Scenario_eqb scenario SHAPE_GENERATOR_ALL_CORE then
        g <- with_random
               (choice_p SHAPE_CHOICES_ALL [1 # 10; 1 # 10; 8 # 10]%Q) ;;
        ret (Some g)
      else if Scenario_eqb scenario SHAPE_GENERATOR_R_T then
        g <- with_random (choice SHAPE_CHOICES_R_T) ;; ret (Some g)
      else if Scenario_eqb scenario SHAPE_GENERATOR_C then
        g <- with_random (choice SHAPE_CHOICES_C) ;; ret (Some g)
      else
        print "Error in the script" ;;; ret current
  | Some name =>
      g <- dict_get SHAPE_GENERATORS name ;; ret (Some g)
  end.

(** Lines 345-364: the trial loop of one slot, [n] trials left. *)
Fixpoint trials (n : nat) (image_shape : Z * Z * Z) (shape : Z * Z)
         (allow_overlap : bool) (colors : list (list Z)) (shape_idx : nat)
         (st : Engine) : M Engine :=
  match n with
  | O => warn could_not_fit ;;; ret st
  | S n' =>
      column <- with_random (randint 0 (snd (fst image_shape))) ;;
      row <- with_random (randint 0 (fst (fst image_shape))) ;;
      let point := (row, column) in
      fit <- try_ArithmeticError
               (with_random (call_generator (e_shape_generator st) point
                                            image_shape shape)) ;;
      match fit with
      | None => trials n' image_shape shape allow_overlap colors shape_idx st
      | Some (indices, label) =>
          free <- (if allow_overlap then ret true
                   else pixels <- getitem (e_filled st) indices ;;
                        ret (negb (np_any pixels))) ;;
          if (free : bool) then
            color <- match colors !! shape_idx with
                     | Some c => ret c
                     | None => raise IndexError
                     end ;;
            image' <- setitem (snd image_shape) (e_image st) indices
                              (as_uint8 color) ;;
            filled' <- setitem (snd image_shape) (e_filled st) indices
                               [true] ;;
            ret (mkEngine image' filled' (e_labels st ++ [label])
                          (e_shape_generator st) (e_accepted st ++ [indices]))
          else trials n' image_shape shape allow_overlap colors shape_idx st
      end
  end.

(** Lines 323-364: one pass of the slot loop per element of
    [range(num_shapes)]. *)
Fixpoint slots (idxs : list nat) (user_shape : option string)
         (scenario : Scenario) (num_trials : Z) (image_shape : Z * Z * Z)
         (shape : Z * Z) (allow_overlap : bool) (colors : list (list Z))
         (st : Engine) : M Engine :=
  match idxs with
  | [] => ret st
  | shape_idx :: rest =>
      g <- select_generator user_shape scenario (e_shape_generator st) ;;
      let st := mkEngine (e_image st) (e_filled st) (e_labels st) g
                         (e_accepted st) in
      st' <- trials (Z.to_nat num_trials) image_shape shape allow_overlap
                    colors shape_idx st ;;
      slots rest user_shape scenario num_trials image_shape shape
            allow_overlap colors st'
  end.

Definition check_intensity (intensity : Z) : M unit :=
  if (0 <=? intensity) && (intensity <=? 255) then ret tt
  else raise (ValueError "Intensity range must lie within (0, 255) interval").

(** Lines 304-309. *)
Definition check_intensity_range (num_channels : Z)
           (intensity_range : IntensityRange) : M unit :=
  if num_channels =? 1 then
    match intensity_range with
    | IntensityPair low high => check_intensity low ;;; check_intensity high
    | IntensityPairs [] => ret tt
    | IntensityPairs _ => raise TypeError
    end
  else
    match intensity_range with
    | IntensityPair _ _ => raise TypeError
    | IntensityPairs rs =>
        mapM (fun r => check_intensity (fst r) ;;; check_intensity (snd r)) rs
        ;;; ret tt
    end.

(** The random generator seeded by the integer [seed]. *)
Variable seeded_stream : Z -> nat -> Z.

(** [np.random.RandomState(random_seed)]: seeded from [random_seed]; when
    it is [None] the generator is seeded by the operating system, for
    which the stream the world already holds stands. *)
Definition RandomState_new (random_seed : option Z) : M unit :=
  match random_seed with
  | Some seed =>
      if (0 <=? seed) && (seed <? 2 ^ 32) then
        fun w => (Ok tt, mkWorld (mkRandomState (seeded_stream seed) 0)
                                 (w_warnings w) (w_stdout w))
      else raise (ValueError "Seed must be between 0 and 2**32 - 1")
  | None => ret tt
  end.

(** What a finished run leaves behind; [random_shapes] returns the image
    and the labels. *)
Record Run : Type := mkRun {
  run_image : ndarray Z;
  run_filled : ndarray bool;
  run_labels : list Label;
  run_accepted : list Indices;
  run_num_shapes : Z;
  run_colors : list (list Z)
}.

Definition random_shapes_run (image_shape : Z * Z) (max_shapes : Z)
           (min_shapes : Z) (min_size : Z) (max_size : option Z)
           (multichannel : bool) (num_channels : Z) (shape : option string)
           (scenario : Scenario) (intensity_range : option IntensityRange)
           (allow_overlap : bool) (num_trials : Z) (random_seed : option Z)
  : M Run :=
  if (min_size >? fst image_shape) || (min_size >? snd image_shape)
  then raise (ValueError "Minimum dimension must be less than ncols and nrows")
  else
    let max_size :=
      match max_size with
      | Some m => if m =? 0 then Z.max (fst image_shape) (snd image_shape)
                  else m
      | None => Z.max (fst image_shape) (snd image_shape)
      end in
    let num_channels := if multichannel then num_channels else 1 in
    intensity_range <-
      match intensity_range with
      | None => ret (if num_channels =? 1 then IntensityPair 0 254
                     else IntensityPairs [(0, 254)])
      | Some ir => check_intensity_range num_channels ir ;;; ret ir
      end ;;
    RandomState_new random_seed ;;;
    let user_shape := shape in
    let image_shape := (fst image_shape, snd image_shape, num_channels) in
    image <- np_full image_shape 255 ;;
    filled <- np_full image_shape false ;;
    let labels := [] in
    num_shapes <- with_random (randint min_shapes (max_shapes + 1)) ;;
    colors <- with_random (_generate_random_colors num_shapes num_channels
                                                   intensity_range) ;;
    st <- slots (seq 0 (Z.to_nat num_shapes)) user_shape scenario num_trials
                image_shape (min_size, max_size) allow_overlap colors
                (mkEngine image filled labels None []) ;;
    ret (mkRun (e_image st) (e_filled st) (e_labels st) (e_accepted st)
               num_shapes colors).

(** [np.squeeze(image, axis=2)] on an array with one channel. *)
Definition np_squeeze (a : ndarray Z) : list (list Z) :=
  map (map (fun px => hd 0 px)) a.

Definition random_shapes (image_shape : Z * Z) (max_shapes : Z)
           (min_shapes : Z) (min_size : Z) (max_size : option Z)
           (multichannel : bool) (num_channels : Z) (shape : option string)
           (scenario : Scenario) (intensity_range : option IntensityRange)
           (allow_overlap : bool) (num_trials : Z) (random_seed : option Z)
  : M (Image * list Label) :=
  run <- random_shapes_run image_shape max_shapes min_shapes min_size
                           max_size multichannel num_channels shape scenario
                           intensity_range allow_overlap num_trials
                           random_seed ;;
  let image := if multichannel then Multichannel (run_image run)
               else Grey (np_squeeze (run_image run)) in
  ret (image, run_labels run).

(** ** Vocabulary of the statements *)

(** The random state after [n] draws, and the [i]-th raw draw ahead. *)
Definition advance (n : nat) (rs : RandomState) : RandomState :=
  mkRandomState (rs_raw rs) (n + rs_pos rs).

Definition raw_at (rs : RandomState) (i : nat) : Z :=
  rs_raw rs (i + rs_pos rs).

(** The row lengths of an array: what index validity depends on. *)
Definition row_lengths {A} (a : ndarray A) : list nat := length <$> a.

(** The coordinates [indices] designate the cell [rc] of the array. *)
Definition designates {A} (a : ndarray A) (indices : Indices)
           (rc : nat * nat) : Prop :=
  exists p, p ∈ indices /\ cell_of a p = Some rc.

(** The cell [rc] is claimed by one of the accepted pixel sets. *)
Definition claimed {A} (a : ndarray A) (accepted : list Indices)
           (rc : nat * nat) : Prop :=
  exists indices, indices ∈ accepted /\ designates a indices rc.

(** Every pixel of the array has [chans] channels. *)
Definition channels {A} (chans : nat) (a : ndarray A) : Prop :=
  forall rc px, pixel a rc = Some px -> length px = chans.

(** One committed proposal (lines 357-361): the fitter bound to
    [shape_generator] fitted at an anchor inside the canvas, the
    occupancy test passed, the colour was written into the canvas, the
    mask was set, the label appended. *)
Definition committed (image_shape : Z * Z * Z) (shape : Z * Z)
           (allow_overlap : bool) (color : list Z) (st st' : Engine)
  : Prop :=
  exists (f : Fitter) (row column : Z) (random random' : RandomState)
         (indices : Indices) (label : Label)
         (cells_image cells_filled : list (nat * nat)) (px : list Z),
    e_shape_generator st = Some f /\
    0 <= row < fst (fst image_shape) /\
    0 <= column < snd (fst image_shape) /\
    f (row, column) image_shape shape random = (Ok (indices, label), random') /\
    cells_of (e_image st) indices = Some cells_image /\
    broadcast (Z.to_nat (snd image_shape)) (as_uint8 color) = Some px /\
    cells_of (e_filled st) indices = Some cells_filled /\
    (allow_overlap = false ->
     np_any (omap (pixel (e_filled st)) cells_filled) = false) /\
    st' = mkEngine
            (foldl (set_pixel px) (e_image st) cells_image)
            (foldl (set_pixel (replicate (Z.to_nat (snd image_shape)) true))
                   (e_filled st) cells_filled)
            (e_labels st ++ [label]) (e_shape_generator st)
            (e_accepted st ++ [indices]).

(** The state of the loop with [shape_generator] rebound. *)
Definition rebind (st : Engine) (g : option Fitter) : Engine :=
  mkEngine (e_image st) (e_filled st) (e_labels st) g (e_accepted st).


(** The values [random_shapes] rebinds its arguments to. *)
Definition channels_of (multichannel : bool) (num_channels : Z) : Z :=
  if multichannel then num_channels else 1.

Definition max_size_of (image_shape : Z * Z) (max_size : option Z) : Z :=
  match max_size with
  | Some m => if m =? 0 then Z.max (fst image_shape) (snd image_shape)
              else m
  | None => Z.max (fst image_shape) (snd image_shape)
  end.

Definition default_intensity_range (num_channels : Z) : IntensityRange :=
  if num_channels =? 1 then IntensityPair 0 254
  else IntensityPairs [(0, 254)].

(** The arrays the loop starts from. *)
Definition background (rows cols chans : Z) : ndarray Z :=
  replicate (Z.to_nat rows)
            (replicate (Z.to_nat cols) (replicate (Z.to_nat chans) 255)).

Definition unoccupied (rows cols chans : Z) : ndarray bool :=
  replicate (Z.to_nat rows)
            (replicate (Z.to_nat cols) (replicate (Z.to_nat chans) false)).

Definition initial (rows cols chans : Z) : Engine :=
  mkEngine (background rows cols chans) (unoccupied rows cols chans)
           [] None [].


(** The invariant of the placement loop.  The canvas and the mask index
    alike; every accepted pixel set indexes inside the mask; a pixel of
    the mask is true on all its channels when an accepted pixel set
    claims its cell and false on all of them otherwise; every label has
    its pixel set. *)
Record placement_inv (chans : nat) (st : Engine) : Prop := {
  inv_dims : row_lengths (e_image st) = row_lengths (e_filled st);
  inv_valid :
    forall indices, indices ∈ e_accepted st ->
                    exists cells, cells_of (e_filled st) indices = Some cells;
  inv_mask :
    forall rc px,
      pixel (e_filled st) rc = Some px ->
      (claimed (e_filled st) (e_accepted st) rc /\
       px = replicate chans true) \/
      (~ claimed (e_filled st) (e_accepted st) rc /\
       px = replicate chans false);
  inv_labels : length (e_labels st) = length (e_accepted st)
}.

(** No cell is designated by two distinct accepted pixel sets. *)
Definition pairwise_disjoint {A} (a : ndarray A) (accepted : list Indices)
  : Prop :=
  forall i j indices_i indices_j rc,
    i <> j ->
    accepted !! i = Some indices_i -> accepted !! j = Some indices_j ->
    designates a indices_i rc -> designates a indices_j rc -> False.

(** Every claimed cell of the canvas holds values between [low] and
    [high]. *)
Definition claimed_within (low high : Z) (st : Engine) : Prop :=
  forall rc px v,
    claimed (e_filled st) (e_accepted st) rc ->
    pixel (e_image st) rc = Some px -> v ∈ px -> low <= v <= high.


(** The mask [b] keeps every channel of every pixel that is true in the
    mask [a]. *)
Definition mask_le (a b : ndarray bool) : Prop :=
  forall rc px k,
    pixel a rc = Some px -> px !! k = Some true ->
    exists px', pixel b rc = Some px' /\ px' !! k = Some true.

(** The array has [rows] rows of [cols] pixels of [chans] channels. *)
Definition shaped {A} (rows cols chans : nat) (a : ndarray A) : Prop :=
  row_lengths a = replicate rows cols /\ channels chans a.


(** Every cell of the canvas that no accepted pixel set claims still
    holds the background value on all channels. *)
Definition unclaimed_background (chans : nat) (st : Engine) : Prop :=
  forall rc px,
    ~ claimed (e_filled st) (e_accepted st) rc ->
    pixel (e_image st) rc = Some px -> px = replicate chans 255.


(** Every label the fitter [f] returns on this canvas and size range
    satisfies [Q]. *)
Definition produces (f : Fitter) (image_shape : Z * Z * Z) (shape : Z * Z)
           (Q : Label -> Prop) : Prop :=
  forall point random indices label random',
    f point image_shape shape random = (Ok (indices, label), random') ->
    Q label.


(** A computation of [random_shapes] whose result and whose effect on
    the random state depend on the random state only, not on the
    warnings or the output already emitted. *)
Definition random_only {A} (m : M A) : Prop :=
  forall w1 w2,
    w_random w1 = w_random w2 ->
    fst (m w1) = fst (m w2) /\
    w_random (snd (m w1)) = w_random (snd (m w2)).

(** A computation that returns the same result in every state and
    leaves the state alone. *)
Definition stateless {S A} (m : SE S A) : Prop :=
  exists r, forall w, m w = (r, w).



(** [shape_generator] is unbound or bound to one of the three fitters. *)
Definition known_generator (g : option Fitter) : Prop :=
  forall f, g = Some f ->
            f = _generate_rectangle_mask \/ f = _generate_triangle_mask \/
            f = _generate_circle_mask.


(** The bounds named by an [intensity_range], and the form the argument
    has to take for the channel count: one pair for a single channel, a
    tuple of pairs otherwise. *)
Definition bounds_of (intensity_range : IntensityRange) : list Z :=
  match intensity_range with
  | IntensityPair low high => [low; high]
  | IntensityPairs ranges => flat_map (fun r => [fst r; snd r]) ranges
  end.

Definition well_formed_range (num_channels : Z)
           (intensity_range : IntensityRange) : Prop :=
  match intensity_range with
  | IntensityPair _ _ => num_channels = 1
  | IntensityPairs _ => num_channels <> 1
  end.

Definition intensity_error : Exn :=
  ValueError "Intensity range must lie within (0, 255) interval".


(** Every claimed pixel of the canvas holds a row of the colour table,
    broadcast over the channel axis. *)
Definition claimed_from_palette (chans : nat) (colors : list (list Z))
           (st : Engine) : Prop :=
  forall rc px,
    claimed (e_filled st) (e_accepted st) rc ->
    pixel (e_image st) rc = Some px ->
    exists color, color ∈ colors /\ broadcast chans color = Some px.


(** The error of the size check (line 295). *)
Definition min_size_error : Exn :=
  ValueError "Minimum dimension must be less than ncols and nrows".

(** The computation [m] never raises the exception [e0]. *)
Definition never_raises {S A} (e0 : Exn) (m : SE S A) : Prop :=
  forall w e w', m w = (Raise e, w') -> e <> e0.




(** ** Reasoning about computations *)

Lemma bind_Ok_inv {S A B} (m : SE S A) (k : A -> SE S B) w b w' :
  bind m k w = (Ok b, w') ->
  exists a w1, m w = (Ok a, w1) /\ k a w1 = (Ok b, w').
Proof.
  unfold bind. destruct (m w) as [[a|e] w1]; intros H.
  - exists a, w1. split; [reflexivity | exact H].
  - discriminate.
Qed.

Lemma bind_run_Ok {S A B} (m : SE S A) (k : A -> SE S B) w a w1 :
  m w = (Ok a, w1) -> bind m k w = k a w1.
Proof. unfold bind. intros ->. reflexivity. Qed.

Lemma bind_run_Raise {S A B} (m : SE S A) (k : A -> SE S B) w e w1 :
  m w = (Raise e, w1) -> bind m k w = (Raise e, w1).
Proof. unfold bind. intros ->. reflexivity. Qed.

Lemma randint_run low high rs :
  low < high ->
  randint low high rs =
  (Ok (low + raw_at rs 0 mod (high - low)), advance 1 rs).
Proof.
  intros Hlt. unfold randint.
  destruct (Z.leb_spec high low); [lia | reflexivity].
Qed.

Lemma randint_empty low high rs :
  high <= low -> randint low high rs = (Raise (ValueError "low >= high"), rs).
Proof.
  intros Hle. unfold randint.
  destruct (Z.leb_spec high low); [reflexivity | lia].
Qed.

Lemma randint_Ok_inv low high rs x rs' :
  randint low high rs = (Ok x, rs') ->
  low <= x < high /\ x = low + raw_at rs 0 mod (high - low) /\
  rs' = advance 1 rs.
Proof.
  destruct (Z_lt_le_dec low high) as [Hlt|Hle].
  - rewrite randint_run by assumption. intros [= <- <-].
    pose proof (Z.mod_pos_bound (raw_at rs 0) (high - low) ltac:(lia)).
    repeat split; lia.
  - rewrite randint_empty by assumption. discriminate.
Qed.

(** Every value of the interval is produced by some raw draw. *)
Lemma randint_onto low high x raw pos :
  low <= x < high ->
  randint low high (mkRandomState (fun i => if (i =? pos)%nat then x - low else raw i) pos)
  = (Ok x, mkRandomState (fun i => if (i =? pos)%nat then x - low else raw i) (S pos)).
Proof.
  intros Hx. rewrite randint_run by lia. unfold raw_at, advance. simpl.
  rewrite Nat.eqb_refl. rewrite Z.mod_small by lia. f_equal. f_equal. lia.
Qed.

(** ** Arrays *)

Lemma norm_index_lt n i k : norm_index n i = Some k -> (k < n)%nat.
Proof.
  unfold norm_index.
  destruct ((0 <=? i) && (i <? Z.of_nat n)) eqn:E1.
  - intros [= <-]. apply andb_true_iff in E1 as [H1 H2]. lia.
  - destruct ((- Z.of_nat n <=? i) && (i <? 0)) eqn:E2; [|discriminate].
    intros [= <-]. apply andb_true_iff in E2 as [H1 H2]. lia.
Qed.

Lemma cell_of_ext {A B} (a : ndarray A) (b : ndarray B) p :
  row_lengths a = row_lengths b -> cell_of a p = cell_of b p.
Proof.
  unfold row_lengths, cell_of. intros Heq.
  assert (Hlen : length a = length b).
  { rewrite <- (length_fmap length a), Heq. apply length_fmap. }
  rewrite Hlen. destruct (norm_index (length b) p.1) as [r|]; [|reflexivity].
  assert (Hr : (length <$> a) !! r = (length <$> b) !! r)
    by (rewrite Heq; reflexivity).
  rewrite !list_lookup_fmap in Hr.
  destruct (a !! r) as [ra|], (b !! r) as [rb|]; cbn in Hr;
    try discriminate; [|reflexivity].
  injection Hr as ->. reflexivity.
Qed.

Lemma cells_of_ext {A B} (a : ndarray A) (b : ndarray B) indices :
  row_lengths a = row_lengths b -> cells_of a indices = cells_of b indices.
Proof.
  intros Heq. induction indices as [|p rest IH]; [reflexivity|].
  cbn. rewrite (cell_of_ext a b p Heq), IH. reflexivity.
Qed.

Lemma cell_of_pixel {A} (a : ndarray A) p rc :
  cell_of a p = Some rc -> is_Some (pixel a rc).
Proof.
  unfold cell_of, pixel.
  destruct (norm_index (length a) p.1) as [r|]; [|discriminate].
  destruct (a !! r) as [row|] eqn:Hrow; [|discriminate].
  destruct (norm_index (length row) p.2) as [c|] eqn:Hc; [|discriminate].
  intros [= <-]. cbn. rewrite Hrow.
  apply lookup_lt_is_Some. eapply norm_index_lt. exact Hc.
Qed.

Lemma cells_of_Some {A} (a : ndarray A) indices rcs :
  cells_of a indices = Some rcs ->
  (forall p, p ∈ indices -> exists rc, cell_of a p = Some rc /\ rc ∈ rcs) /\
  (forall rc, rc ∈ rcs -> designates a indices rc).
Proof.
  revert rcs. induction indices as [|p rest IH]; intros rcs.
  - intros [= <-]. split; intros x Hx; inversion Hx.
  - cbn. destruct (cell_of a p) as [rc|] eqn:Hp; [|discriminate].
    destruct (cells_of a rest) as [rcs'|]; [|discriminate].
    intros [= <-]. destruct (IH rcs' eq_refl) as [IH1 IH2]. split.
    + intros q Hq. apply elem_of_cons in Hq as [->|Hq].
      * exists rc. split; [exact Hp | left].
      * destruct (IH1 q Hq) as (rc' & ? & ?). exists rc'.
        split; [assumption | right; assumption].
    + intros rc' Hrc. apply elem_of_cons in Hrc as [->|Hrc].
      * exists p. split; [left | exact Hp].
      * destruct (IH2 rc' Hrc) as (q & ? & ?). exists q.
        split; [right; assumption | assumption].
Qed.

Lemma row_lengths_set_pixel {A} (v : list A) (a : ndarray A) rc :
  row_lengths (set_pixel v a rc) = row_lengths a.
Proof.
  unfold row_lengths, set_pixel. apply list_eq. intros i.
  rewrite !list_lookup_fmap.
  destruct (decide (i = rc.1)) as [->|Hne].
  - rewrite list_lookup_alter_eq. destruct (a !! rc.1) as [row|]; cbn;
      [|reflexivity].
    rewrite length_alter. reflexivity.
  - rewrite list_lookup_alter_ne by congruence. reflexivity.
Qed.

Lemma row_lengths_foldl {A} (v : list A) rcs (a : ndarray A) :
  row_lengths (foldl (set_pixel v) a rcs) = row_lengths a.
Proof.
  revert a. induction rcs as [|rc rcs IH]; intros a; [reflexivity|].
  cbn [foldl]. rewrite IH. apply row_lengths_set_pixel.
Qed.

Lemma pixel_set_pixel {A} (v : list A) (a : ndarray A) rc rc' :
  pixel (set_pixel v a rc) rc' =
  if decide (rc = rc') then (fun _ => v) <$> pixel a rc' else pixel a rc'.
Proof.
  unfold pixel, set_pixel. destruct rc as [r c], rc' as [r' c']. cbn.
  destruct (decide (r = r')) as [->|Hr].
  - rewrite list_lookup_alter_eq. destruct (a !! r') as [row|]; cbn.
    + destruct (decide (c = c')) as [->|Hc].
      * rewrite list_lookup_alter_eq. rewrite decide_True by reflexivity.
        reflexivity.
      * rewrite list_lookup_alter_ne by assumption.
        rewrite decide_False by congruence. reflexivity.
    + destruct (decide ((r', c) = (r', c'))); reflexivity.
  - rewrite list_lookup_alter_ne by assumption.
    rewrite decide_False by congruence. reflexivity.
Qed.

Lemma pixel_foldl {A} (v : list A) rcs (a : ndarray A) rc :
  pixel (foldl (set_pixel v) a rcs) rc =
  if decide (rc ∈ rcs) then (fun _ => v) <$> pixel a rc else pixel a rc.
Proof.
  revert a. induction rcs as [|rc0 rcs IH]; intros a.
  - cbn. rewrite decide_False by (intros H; inversion H). reflexivity.
  - cbn [foldl]. rewrite IH, pixel_set_pixel.
    destruct (decide (rc0 = rc)) as [->|Hne].
    + rewrite (decide_True (P := rc ∈ rc :: rcs)) by left.
      destruct (decide (rc ∈ rcs)); destruct (pixel a rc); reflexivity.
    + destruct (decide (rc ∈ rcs)) as [Hin|Hnin].
      * rewrite decide_True by (right; assumption). reflexivity.
      * rewrite decide_False; [reflexivity|].
        intros H. apply elem_of_cons in H as [->|H]; contradiction.
Qed.

Lemma broadcast_scalar {A} (chans : nat) (x : A) :
  broadcast chans [x] = Some (replicate chans x).
Proof.
  unfold broadcast. cbn. destruct chans as [|[|n]]; reflexivity.
Qed.

Lemma broadcast_length {A} (chans : nat) (v px : list A) :
  broadcast chans v = Some px -> length px = chans.
Proof.
  unfold broadcast. destruct (Nat.eqb_spec (length v) chans) as [H|H].
  - intros [= <-]. exact H.
  - destruct v as [|x [|y v]]; try discriminate.
    intros [= <-]. apply length_replicate.
Qed.

Lemma broadcast_elem {A} (chans : nat) (v px : list A) x :
  broadcast chans v = Some px -> x ∈ px -> x ∈ v.
Proof.
  unfold broadcast. destruct (length v =? chans)%nat.
  - intros [= <-]. tauto.
  - destruct v as [|y [|z v]]; try discriminate.
    intros [= <-] Hx. apply elem_of_replicate_inv in Hx as ->. left.
Qed.


(** ** The trial loop *)

Lemma with_random_inv {A} (m : R A) w r w1 :
  with_random m w = (r, w1) ->
  exists rs, m (w_random w) = (r, rs) /\
             w1 = mkWorld rs (w_warnings w) (w_stdout w).
Proof.
  unfold with_random. destruct (m (w_random w)) as [r0 rs].
  intros [= -> <-]. exists rs. split; reflexivity.
Qed.

Lemma try_ArithmeticError_Ok_inv {S A} (m : SE S A) w o w1 :
  try_ArithmeticError m w = (Ok o, w1) ->
  (exists a, o = Some a /\ m w = (Ok a, w1)) \/
  (exists msg, o = None /\ m w = (Raise (ArithmeticError msg), w1)).
Proof.
  unfold try_ArithmeticError. destruct (m w) as [[a|e] w2].
  - intros [= <- <-]. left. exists a. split; reflexivity.
  - destruct e; try discriminate. intros [= <- <-]. right.
    exists msg. split; reflexivity.
Qed.

Lemma getitem_Ok_inv {S A} (a : ndarray A) indices (w : S) x w1 :
  getitem a indices w = (Ok x, w1) ->
  exists rcs, cells_of a indices = Some rcs /\ x = omap (pixel a) rcs /\
              w1 = w.
Proof.
  unfold getitem. destruct (cells_of a indices) as [rcs|]; [|discriminate].
  intros [= <- <-]. exists rcs. repeat split.
Qed.

Lemma setitem_Ok_inv {S A} chans (a : ndarray A) indices v (w : S) a' w1 :
  setitem chans a indices v w = (Ok a', w1) ->
  exists rcs px, cells_of a indices = Some rcs /\
                 broadcast (Z.to_nat chans) v = Some px /\
                 a' = foldl (set_pixel px) a rcs /\ w1 = w.
Proof.
  unfold setitem. destruct (cells_of a indices) as [rcs|]; [|discriminate].
  destruct (broadcast (Z.to_nat chans) v) as [px|]; [|discriminate].
  intros [= <- <-]. exists rcs, px. repeat split.
Qed.

Lemma trials_cases n image_shape shape allow_overlap colors shape_idx :
  forall st w st' w',
    trials n image_shape shape allow_overlap colors shape_idx st w
    = (Ok st', w') ->
    w_stdout w' = w_stdout w /\
    ((st' = st /\ w_warnings w' = (w_warnings w ++ [could_not_fit])%list) \/
     ((exists color, colors !! shape_idx = Some color /\
                     committed image_shape shape allow_overlap color st st')
      /\ w_warnings w' = w_warnings w)).
Proof.
  induction n as [|n IH]; intros st w st' w' Hrun.
  - cbn in Hrun. injection Hrun as <- <-. cbn. split; [reflexivity|].
    left. split; reflexivity.
  - cbn [trials] in Hrun.
    apply bind_Ok_inv in Hrun as (column & w1 & Hcol & Hrun).
    apply with_random_inv in Hcol as (rs1 & Hcol & ->).
    apply bind_Ok_inv in Hrun as (row & w2 & Hrow & Hrun).
    apply with_random_inv in Hrow as (rs2 & Hrow & ->).
    cbn [w_random w_warnings w_stdout] in *.
    apply bind_Ok_inv in Hrun as (fit & w3 & Hfit & Hrun).
    apply try_ArithmeticError_Ok_inv in Hfit
      as [(a & -> & Hfit)|(msg & -> & Hfit)].
    + apply with_random_inv in Hfit as (rs3 & Hfit & ->).
      cbn [w_random w_warnings w_stdout] in *.
      destruct a as [indices label].
      apply bind_Ok_inv in Hrun as (free & w4 & Hfree & Hrun).
      assert (Hw4 : w4 = mkWorld rs3 (w_warnings w) (w_stdout w) /\
                    exists cells_filled,
                      cells_of (e_filled st) indices = Some cells_filled \/
                      allow_overlap = true).
      { destruct allow_overlap.
        - injection Hfree as <- <-. split; [reflexivity|].
          exists []. right. reflexivity.
        - apply bind_Ok_inv in Hfree as (px & w5 & Hget & Hfree).
          apply getitem_Ok_inv in Hget as (rcs & Hrcs & -> & ->).
          injection Hfree as <- <-. split; [reflexivity|].
          exists rcs. left. exact Hrcs. }
      destruct Hw4 as [-> _].
      destruct free.
      * apply bind_Ok_inv in Hrun as (color & w5 & Hcolor & Hrun).
        destruct (colors !! shape_idx) as [color'|] eqn:Hlook;
          [|discriminate].
        injection Hcolor as <- <-.
        apply bind_Ok_inv in Hrun as (image' & w6 & Himg & Hrun).
        apply setitem_Ok_inv in Himg as (rcs_i & px & Hci & Hpx & -> & ->).
        apply bind_Ok_inv in Hrun as (filled' & w7 & Hfil & Hrun).
        apply setitem_Ok_inv in Hfil as (rcs_f & pxf & Hcf & Hpxf & -> & ->).
        rewrite broadcast_scalar in Hpxf. injection Hpxf as <-.
        injection Hrun as <- <-. cbn. split; [reflexivity|]. right.
        split; [|reflexivity]. exists color'. split; [reflexivity|].
        destruct (e_shape_generator st) as [f|] eqn:Hgen;
          [|discriminate].
        apply randint_Ok_inv in Hcol as (Hcolr & _ & _).
        apply randint_Ok_inv in Hrow as (Hrowr & _ & _).
        exists f, row, column, rs2, rs3, indices, label, rcs_i, rcs_f, px.
        repeat (split; [first [assumption | reflexivity]|]).
        split; [|rewrite Hgen; reflexivity].
        intros ->. apply bind_Ok_inv in Hfree as (pxs & w5 & Hget & Hfree).
        apply getitem_Ok_inv in Hget as (rcs & Hrcs & -> & ->).
        injection Hfree as Hfree. rewrite Hcf in Hrcs.
        injection Hrcs as <-. apply negb_true_iff. exact Hfree.
      * apply IH in Hrun as [Hout Hrun]. cbn in Hout, Hrun.
        split; assumption.
    + apply with_random_inv in Hfit as (rs3 & Hfit & ->).
      apply IH in Hrun as [Hout Hrun]. cbn in Hout, Hrun.
      split; assumption.
Qed.


(** ** The category selector and the slot loop *)

Lemma dict_get_state {S A} (d : list (string * A)) key (w : S) r w1 :
  dict_get d key w = (r, w1) -> w1 = w.
Proof.
  induction d as [|[k v] d IH]; cbn.
  - intros [= _ <-]. reflexivity.
  - destruct (String.eqb k key); [intros [= _ <-]; reflexivity | exact IH].
Qed.

Lemma select_generator_pinned name scenario current w :
  select_generator (Some name) scenario current w
  = (g <- dict_get SHAPE_GENERATORS name ;; ret (Some g)) w.
Proof. reflexivity. Qed.

Lemma select_generator_other name current w :
  select_generator None (OtherScenario name) current w
  = (Ok current,
     mkWorld (w_random w) (w_warnings w)
             (w_stdout w ++ ["Error in the script"])).
Proof. reflexivity. Qed.

Lemma select_generator_warnings user_shape scenario current w g w1 :
  select_generator user_shape scenario current w = (Ok g, w1) ->
  w_warnings w1 = w_warnings w.
Proof.
  unfold select_generator. destruct user_shape as [name|].
  - intros H. apply bind_Ok_inv in H as (f & w2 & Hget & Hret).
    apply dict_get_state in Hget as ->. injection Hret as _ <-.
    reflexivity.
  - destruct scenario; cbn [Scenario_eqb]; intros H;
      try (apply bind_Ok_inv in H as (f & w2 & Hdraw & Hret);
           apply with_random_inv in Hdraw as (rs & _ & ->);
           injection Hret as _ <-; reflexivity).
    apply bind_Ok_inv in H as ([] & w2 & Hprint & Hret).
    injection Hprint as <-. injection Hret as _ <-. reflexivity.
Qed.

(** Induction over the slot loop: a property of the loop state that
    survives rebinding [shape_generator] by the selector and survives
    every committed proposal holds when the loop ends. *)
Lemma slots_ind (P : Engine -> Prop) user_shape scenario num_trials
      image_shape shape allow_overlap colors :
  (forall st g w w1,
      P st ->
      select_generator user_shape scenario (e_shape_generator st) w
      = (Ok g, w1) ->
      P (rebind st g)) ->
  (forall st st' color,
      P st -> color ∈ colors ->
      committed image_shape shape allow_overlap color st st' -> P st') ->
  forall idxs st w st' w',
    P st ->
    slots idxs user_shape scenario num_trials image_shape shape
          allow_overlap colors st w = (Ok st', w') ->
    P st'.
Proof.
  intros Hsel Hcommit idxs.
  induction idxs as [|i idxs IH]; intros st w st' w' HP Hrun.
  - injection Hrun as <- _. exact HP.
  - cbn [slots] in Hrun.
    apply bind_Ok_inv in Hrun as (g & w1 & Hg & Hrun).
    apply bind_Ok_inv in Hrun as (st1 & w2 & Htr & Hrun).
    apply (Hsel _ _ _ _ HP) in Hg. fold (rebind st g) in Htr.
    apply trials_cases in Htr as [_ [[-> _]|[(color & Hlook & Hc) _]]].
    + eapply IH; eassumption.
    + eapply IH; [|eassumption].
      eapply Hcommit; [exact Hg | | exact Hc].
      eapply list_elem_of_lookup_2. exact Hlook.
Qed.

(** Every slot either appends one label or emits one warning. *)
Lemma slots_count user_shape scenario num_trials image_shape shape
      allow_overlap colors :
  forall idxs st w st' w',
    slots idxs user_shape scenario num_trials image_shape shape
          allow_overlap colors st w = (Ok st', w') ->
    exists exhausted : nat,
      w_warnings w' = (w_warnings w ++ replicate exhausted could_not_fit)%list
      /\ (length (e_labels st') + exhausted
          = length (e_labels st) + length idxs)%nat.
Proof.
  induction idxs as [|i idxs IH]; intros st w st' w' Hrun.
  - injection Hrun as <- <-. exists 0%nat. cbn.
    rewrite app_nil_r. split; [reflexivity | lia].
  - cbn [slots] in Hrun.
    apply bind_Ok_inv in Hrun as (g & w1 & Hg & Hrun).
    apply bind_Ok_inv in Hrun as (st1 & w2 & Htr & Hrun).
    apply select_generator_warnings in Hg.
    apply trials_cases in Htr as [_ [[-> Hw]|[(color & _ & Hc) Hw]]];
      apply IH in Hrun as (k & Hwarn & Hlen).
    + exists (S k). rewrite Hwarn, Hw, Hg. cbn [replicate].
      rewrite <- app_assoc. cbn in *. split; [reflexivity | lia].
    + exists k. rewrite Hwarn, Hw, Hg. split; [reflexivity|].
      destruct Hc as (f & row & col & rs & rs' & ind & label & ci & cf & px
                      & _ & _ & _ & _ & _ & _ & _ & _ & ->).
      cbn in *. rewrite length_app in Hlen. cbn in *. lia.
Qed.

(** ** The colour sampler *)

Lemma mapM_Ok_inv {S A B} (f : A -> SE S B) (l : list A) :
  forall w ys w',
    mapM f l w = (Ok ys, w') ->
    length ys = length l /\
    forall y, y ∈ ys -> exists x w1 w2, x ∈ l /\ f x w1 = (Ok y, w2).
Proof.
  induction l as [|x l IH]; intros w ys w' Hrun.
  - injection Hrun as <- _. split; [reflexivity|].
    intros y Hy. inversion Hy.
  - cbn [mapM] in Hrun.
    apply bind_Ok_inv in Hrun as (y0 & w1 & Hx & Hrun).
    apply bind_Ok_inv in Hrun as (ys0 & w2 & Hl & Hrun).
    injection Hrun as <- _. apply IH in Hl as [Hlen Hall]. split.
    + cbn. rewrite Hlen. reflexivity.
    + intros y Hy. apply elem_of_cons in Hy as [->|Hy].
      * exists x, w, w1. split; [left | exact Hx].
      * destruct (Hall y Hy) as (x' & wa & wb & Hin & Hf).
        exists x', wa, wb. split; [right; exact Hin | exact Hf].
Qed.

Lemma randint_draws_range low high n :
  forall rs xs rs',
    randint_draws low high n rs = (Ok xs, rs') ->
    forall x, x ∈ xs -> low <= x < high.
Proof.
  induction n as [|n IH]; intros rs xs rs' Hrun x Hx.
  - injection Hrun as <- _. inversion Hx.
  - cbn [randint_draws] in Hrun.
    apply bind_Ok_inv in Hrun as (x0 & rs1 & Hdraw & Hrun).
    apply bind_Ok_inv in Hrun as (xs0 & rs2 & Hrest & Hrun).
    injection Hrun as <- _. apply elem_of_cons in Hx as [->|Hx].
    + apply randint_Ok_inv in Hdraw. tauto.
    + eapply IH; eassumption.
Qed.

Lemma randint_size_range low high n rs xs rs' :
  randint_size low high n rs = (Ok xs, rs') ->
  forall x, x ∈ xs -> low <= x < high.
Proof.
  unfold randint_size. destruct (n <? 0); [discriminate|].
  destruct (n =? 0).
  - intros [= <- _] x Hx. inversion Hx.
  - apply randint_draws_range.
Qed.

Lemma np_transpose_rows (cols : list (list Z)) (color : list Z) :
  color ∈ np_transpose cols ->
  length color = length cols /\ cols <> [] /\
  forall v, v ∈ color -> v = 0 \/ exists col, col ∈ cols /\ v ∈ col.
Proof.
  unfold np_transpose. destruct cols as [|c cols]; [intros H; inversion H|].
  set (all := c :: cols). intros Hin.
  apply list_elem_of_In, in_map_iff in Hin as (i & <- & _).
  split; [apply length_map|]. split; [discriminate|].
  intros v Hv. apply list_elem_of_In, in_map_iff in Hv as (col & <- & Hcol).
  destruct (nth_in_or_default i col 0) as [Hnth|Hnth].
  - right. exists col. split; apply list_elem_of_In; assumption.
  - left. exact Hnth.
Qed.

Lemma channel_ranges_inv {S} num_channels intensity_range (w : S) ranges w1 :
  channel_ranges num_channels intensity_range w = (Ok ranges, w1) ->
  (num_channels <> 1 ->
   length ranges <> 1%nat \/ length ranges = Z.to_nat num_channels) /\
  (intensity_range = default_intensity_range num_channels ->
   forall r, r ∈ ranges -> r = (0, 254)).
Proof.
  unfold channel_ranges, default_intensity_range.
  destruct (Z.eqb_spec num_channels 1) as [->|Hne].
  - destruct intensity_range as [low high|[|r0 [|r1 rs]]]; try discriminate.
    intros [= <- _]. split; [congruence|].
    intros [= -> ->] r Hr. apply list_elem_of_singleton in Hr. exact Hr.
  - destruct intensity_range as [low high|[|r0 [|r1 rs]]]; try discriminate;
      intros [= <- _]; (split; [intros _|]).
    + left. discriminate.
    + discriminate.
    + right. apply length_replicate.
    + intros [= ->] r Hr. apply elem_of_replicate_inv in Hr. exact Hr.
    + left. discriminate.
    + discriminate.
Qed.

(** What a colour table produced by the sampler looks like. *)
Lemma _generate_random_colors_inv num_colors num_channels intensity_range
      rs colors rs' :
  _generate_random_colors num_colors num_channels intensity_range rs
  = (Ok colors, rs') ->
  (num_channels = 0 ->
   forall color, color ∈ colors -> (2 <= length color)%nat) /\
  (intensity_range = default_intensity_range num_channels ->
   forall color v, color ∈ colors -> v ∈ color -> 0 <= v <= 254).
Proof.
  unfold _generate_random_colors. intros Hrun.
  apply bind_Ok_inv in Hrun as (ranges & rs1 & Hranges & Hrun).
  apply bind_Ok_inv in Hrun as (cols & rs2 & Hcols & Hrun).
  injection Hrun as <- _.
  apply channel_ranges_inv in Hranges as [Hlen Hdef].
  apply mapM_Ok_inv in Hcols as [Hcl Hcols]. split.
  - intros -> color Hc. apply np_transpose_rows in Hc as (Hl & Hne & _).
    rewrite Hl, Hcl. destruct (Hlen ltac:(lia)) as [H1|H0].
    + destruct ranges as [|r0 [|r1 ranges]]; cbn in *; try lia.
      destruct cols; [congruence | discriminate].
    + cbn in H0. destruct cols; [congruence|]. cbn in Hcl. lia.
  - intros Hir color v Hc Hv.
    apply np_transpose_rows in Hc as (_ & _ & Hvals).
    destruct (Hvals v Hv) as [->|(col & Hcol & Hvc)]; [lia|].
    destruct (Hcols col Hcol) as (r & wa & wb & Hr & Hdraw).
    rewrite (Hdef Hir r Hr) in Hdraw. cbn in Hdraw.
    pose proof (randint_size_range _ _ _ _ _ _ Hdraw v Hvc). lia.
Qed.


(** ** Anatomy of a run *)

Lemma np_full_Ok_inv {S A} rows cols chans (v : A) (w : S) a w1 :
  np_full (rows, cols, chans) v w = (Ok a, w1) ->
  0 <= rows /\ 0 <= cols /\ 0 <= chans /\ w1 = w /\
  a = replicate (Z.to_nat rows)
                (replicate (Z.to_nat cols) (replicate (Z.to_nat chans) v)).
Proof.
  unfold np_full.
  destruct (Z.ltb_spec rows 0); [discriminate|].
  destruct (Z.ltb_spec cols 0); [discriminate|].
  destruct (Z.ltb_spec chans 0); [discriminate|].
  intros [= <- <-]. repeat split; assumption.
Qed.

Lemma check_intensity_state intensity w r w1 :
  check_intensity intensity w = (r, w1) -> w1 = w.
Proof.
  unfold check_intensity.
  destruct ((0 <=? intensity) && (intensity <=? 255));
    intros [= _ <-]; reflexivity.
Qed.

Lemma check_intensity_range_state num_channels intensity_range w r w1 :
  check_intensity_range num_channels intensity_range w = (r, w1) -> w1 = w.
Proof.
  unfold check_intensity_range.
  destruct (num_channels =? 1);
    destruct intensity_range as [low high|rs].
  - unfold bind. destruct (check_intensity low w) as [[[]|e] w2] eqn:E1.
    + apply check_intensity_state in E1 as ->.
      apply check_intensity_state.
    + apply check_intensity_state in E1 as ->. intros [= _ <-].
      reflexivity.
  - destruct rs; intros [= _ <-]; reflexivity.
  - intros [= _ <-]. reflexivity.
  - revert r w1. unfold bind.
    assert (Hm : forall r w1,
               mapM (fun r0 : Z * Z =>
                       bind (check_intensity r0.1)
                            (fun _ => check_intensity r0.2)) rs w
               = (r, w1) -> w1 = w).
    { induction rs as [|r0 rs IH]; intros r w1; cbn [mapM].
      - intros [= _ <-]. reflexivity.
      - unfold bind.
        destruct (check_intensity r0.1 w) as [[[]|e] w2] eqn:E1;
          apply check_intensity_state in E1 as ->;
          [|intros [= _ <-]; reflexivity].
        destruct (check_intensity r0.2 w) as [[[]|e] w2] eqn:E2;
          apply check_intensity_state in E2 as ->;
          [|intros [= _ <-]; reflexivity].
        destruct (mapM _ rs w) as [[ys|e] w2] eqn:E3;
          rewrite (IH _ _ eq_refl); intros [= _ <-]; reflexivity. }
    intros r w1.
    destruct (mapM _ rs w) as [[ys|e] w2] eqn:E;
      rewrite (Hm _ _ eq_refl); intros [= _ <-]; reflexivity.
Qed.

Lemma RandomState_new_Ok_inv random_seed w w1 :
  RandomState_new random_seed w = (Ok tt, w1) ->
  w_warnings w1 = w_warnings w /\ w_stdout w1 = w_stdout w /\
  w_random w1 = match random_seed with
                | Some seed => mkRandomState (seeded_stream seed) 0
                | None => w_random w
                end.
Proof.
  unfold RandomState_new. destruct random_seed as [seed|].
  - destruct ((0 <=? seed) && (seed <? 2 ^ 32)); [|discriminate].
    intros [= <-]. repeat split.
  - intros [= <-]. repeat split.
Qed.

Lemma random_shapes_run_inv rows cols max_shapes min_shapes min_size
      max_size multichannel num_channels shape scenario intensity_range
      allow_overlap num_trials random_seed w run w' :
  random_shapes_run (rows, cols) max_shapes min_shapes min_size max_size
                    multichannel num_channels shape scenario
                    intensity_range allow_overlap num_trials random_seed w
  = (Ok run, w') ->
  exists ir random0 random1 random2 num_shapes colors st,
    0 <= rows /\ 0 <= cols /\ 0 <= channels_of multichannel num_channels /\
    (intensity_range = None ->
     ir = default_intensity_range (channels_of multichannel num_channels)) /\
    random0 = match random_seed with
              | Some seed => mkRandomState (seeded_stream seed) 0
              | None => w_random w
              end /\
    randint min_shapes (max_shapes + 1) random0 = (Ok num_shapes, random1) /\
    _generate_random_colors num_shapes
                            (channels_of multichannel num_channels) ir
                            random1 = (Ok colors, random2) /\
    slots (seq 0 (Z.to_nat num_shapes)) shape scenario num_trials
          (rows, cols, channels_of multichannel num_channels)
          (min_size, max_size_of (rows, cols) max_size) allow_overlap colors
          (initial rows cols (channels_of multichannel num_channels))
          (mkWorld random2 (w_warnings w) (w_stdout w))
    = (Ok st, w') /\
    run = mkRun (e_image st) (e_filled st) (e_labels st) (e_accepted st)
                num_shapes colors.
Proof.
  unfold random_shapes_run. cbn [fst snd].
  destruct ((min_size >? rows) || (min_size >? cols)); [discriminate|].
  fold (channels_of multichannel num_channels).
  fold (max_size_of (rows, cols) max_size).
  set (chans := channels_of multichannel num_channels).
  intros Hrun.
  apply bind_Ok_inv in Hrun as (ir & w1 & Hir & Hrun).
  assert (Hw1 : w1 = w /\
                (intensity_range = None -> ir = default_intensity_range chans)).
  { destruct intensity_range as [ir0|].
    - apply bind_Ok_inv in Hir as ([] & w2 & Hchk & Hret).
      apply check_intensity_range_state in Hchk as ->.
      injection Hret as _ <-. split; [reflexivity | discriminate].
    - injection Hir as <- <-. split; reflexivity. }
  destruct Hw1 as [-> Hdef].
  apply bind_Ok_inv in Hrun as ([] & w2 & Hseed & Hrun).
  apply RandomState_new_Ok_inv in Hseed as (Hwarn & Hout & Hrand).
  apply bind_Ok_inv in Hrun as (image0 & w3 & Himg & Hrun).
  apply np_full_Ok_inv in Himg as (Hr & Hc & Hk & -> & ->).
  apply bind_Ok_inv in Hrun as (filled0 & w3 & Hfil & Hrun).
  apply np_full_Ok_inv in Hfil as (_ & _ & _ & -> & ->).
  apply bind_Ok_inv in Hrun as (num_shapes & w3 & Hnum & Hrun).
  apply with_random_inv in Hnum as (random1 & Hnum & ->).
  apply bind_Ok_inv in Hrun as (colors & w3 & Hcol & Hrun).
  apply with_random_inv in Hcol as (random2 & Hcol & ->).
  cbn [w_random w_warnings w_stdout] in *.
  apply bind_Ok_inv in Hrun as (st & w3 & Hslots & Hrun).
  injection Hrun as <- <-.
  exists ir, (w_random w2), random1, random2, num_shapes, colors, st.
  rewrite Hwarn, Hout in Hslots.
  repeat (split; [first [assumption | reflexivity]|]).
  reflexivity.
Qed.


(** ** The invariant of the placement loop *)

Lemma designates_ext {A B} (a : ndarray A) (b : ndarray B) indices rc :
  row_lengths a = row_lengths b ->
  designates a indices rc <-> designates b indices rc.
Proof.
  intros Heq. unfold designates.
  split; intros (p & Hp & Hc); exists p; (split; [exact Hp|]).
  - rewrite <- (cell_of_ext a b p Heq). exact Hc.
  - rewrite (cell_of_ext a b p Heq). exact Hc.
Qed.

Lemma designates_cells {A} (a : ndarray A) indices cells rc :
  cells_of a indices = Some cells ->
  rc ∈ cells <-> designates a indices rc.
Proof.
  intros Hc. apply cells_of_Some in Hc as [H1 H2]. split; [apply H2|].
  intros (p & Hp & Hcell). destruct (H1 p Hp) as (rc' & Hrc' & Hin).
  congruence.
Qed.

Lemma claimed_snoc {A} (a : ndarray A) accepted indices rc :
  claimed a (accepted ++ [indices]) rc <->
  claimed a accepted rc \/ designates a indices rc.
Proof.
  unfold claimed. split.
  - intros (ind & Hin & Hd). apply elem_of_app in Hin as [Hin|Hin].
    + left. exists ind. split; assumption.
    + apply list_elem_of_singleton in Hin as ->. right. exact Hd.
  - intros [(ind & Hin & Hd)|Hd].
    + exists ind. split; [apply elem_of_app; left; exact Hin | exact Hd].
    + exists indices. split; [|exact Hd].
      apply elem_of_app. right. apply list_elem_of_singleton. reflexivity.
Qed.

Lemma claimed_ext {A B} (a : ndarray A) (b : ndarray B) accepted rc :
  row_lengths a = row_lengths b ->
  claimed a accepted rc <-> claimed b accepted rc.
Proof.
  intros Heq. unfold claimed.
  split; intros (ind & Hin & Hd); exists ind; (split; [exact Hin|]);
    apply (designates_ext a b ind rc Heq); exact Hd.
Qed.

Lemma np_any_false pixels px b :
  np_any pixels = false -> px ∈ pixels -> b ∈ px -> b = false.
Proof.
  unfold np_any. intros Hany Hpx Hb.
  destruct b; [|reflexivity]. exfalso.
  assert (Htrue : existsb (existsb id) pixels = true); [|congruence].
  apply existsb_exists. exists px. split; [apply list_elem_of_In, Hpx|].
  apply existsb_exists. exists true.
  split; [apply list_elem_of_In, Hb | reflexivity].
Qed.

Lemma initial_inv rows cols chans :
  placement_inv (Z.to_nat chans) (initial rows cols chans).
Proof.
  split; cbn.
  - unfold row_lengths, background, unoccupied.
    rewrite !fmap_replicate, !length_replicate. reflexivity.
  - intros ind Hin. inversion Hin.
  - intros rc px Hpx. right. split.
    + intros (ind & Hin & _). inversion Hin.
    + unfold pixel, unoccupied in Hpx.
      destruct (replicate _ _ !! rc.1) as [row|] eqn:Hrow; [|discriminate].
      apply lookup_replicate in Hrow as [-> _].
      apply lookup_replicate in Hpx as [-> _]. reflexivity.
  - reflexivity.
Qed.

Lemma committed_inv image_shape shape allow_overlap color st st' :
  committed image_shape shape allow_overlap color st st' ->
  placement_inv (Z.to_nat (snd image_shape)) st ->
  placement_inv (Z.to_nat (snd image_shape)) st'.
Proof.
  intros (f & row & col & rs & rs' & indices & label & ci & cf & px
          & Hgen & Hrow & Hcol & Hfit & Hci & Hpx & Hcf & Hfree & ->)
         [Hdims Hvalid Hmask Hlabels].
  set (chans := Z.to_nat (snd image_shape)) in *.
  assert (Hrl : row_lengths (foldl (set_pixel (replicate chans true))
                                   (e_filled st) cf)
                = row_lengths (e_filled st)) by apply row_lengths_foldl.
  split; cbn [e_image e_filled e_labels e_accepted].
  - rewrite !row_lengths_foldl. exact Hdims.
  - intros ind Hin. rewrite (cells_of_ext _ (e_filled st) ind Hrl).
    apply elem_of_app in Hin as [Hin|Hin]; [apply Hvalid, Hin|].
    apply list_elem_of_singleton in Hin as ->. exists cf. exact Hcf.
  - intros rc px' Hpx'. rewrite pixel_foldl in Hpx'.
    rewrite (claimed_ext _ (e_filled st) _ rc Hrl), claimed_snoc.
    rewrite <- (designates_cells _ _ _ rc Hcf).
    destruct (decide (rc ∈ cf)) as [Hin|Hnin].
    + destruct (pixel (e_filled st) rc); [|discriminate].
      injection Hpx' as <-. left. split; [right; exact Hin | reflexivity].
    + destruct (Hmask rc px' Hpx') as [[Hcl ->]|[Hncl ->]].
      * left. split; [left; exact Hcl | reflexivity].
      * right. split; [tauto | reflexivity].
  - rewrite !length_app, Hlabels. reflexivity.
Qed.

Lemma committed_disjoint image_shape shape color st st' :
  committed image_shape shape false color st st' ->
  (0 < Z.to_nat (snd image_shape))%nat ->
  placement_inv (Z.to_nat (snd image_shape)) st ->
  pairwise_disjoint (e_filled st) (e_accepted st) ->
  pairwise_disjoint (e_filled st') (e_accepted st').
Proof.
  intros (f & row & col & rs & rs' & indices & label & ci & cf & px
          & Hgen & Hrow & Hcol & Hfit & Hci & Hpx & Hcf & Hfree & ->)
         Hpos [Hdims Hvalid Hmask Hlabels] Hdisj.
  set (chans := Z.to_nat (snd image_shape)) in *.
  assert (Hrl : row_lengths (foldl (set_pixel (replicate chans true))
                                   (e_filled st) cf)
                = row_lengths (e_filled st)) by apply row_lengths_foldl.
  assert (Hnew : forall ind rc, ind ∈ e_accepted st ->
                                designates (e_filled st) ind rc ->
                                designates (e_filled st) indices rc -> False).
  { intros ind rc Hin Hd1 Hd2.
    assert (Hcl : claimed (e_filled st) (e_accepted st) rc)
      by (exists ind; split; assumption).
    apply (designates_cells _ _ _ rc Hcf) in Hd2.
    destruct Hd1 as (p & _ & Hp). apply cell_of_pixel in Hp as [px0 Hpx0].
    destruct (Hmask rc px0 Hpx0) as [[_ ->]|[Hncl _]]; [|contradiction].
    assert (Hb : true = false); [|discriminate].
    eapply (np_any_false _ (replicate chans true) true (Hfree eq_refl)).
    - apply list_elem_of_omap. exists rc. split; assumption.
    - apply elem_of_replicate. split; [reflexivity | lia]. }
  intros i j ind_i ind_j rc Hij Hi Hj Hdi Hdj.
  cbn [e_filled e_accepted] in *.
  apply (designates_ext _ (e_filled st) _ rc Hrl) in Hdi, Hdj.
  apply lookup_app_Some in Hi as [Hi|[Hli Hi]];
    apply lookup_app_Some in Hj as [Hj|[Hlj Hj]].
  - exact (Hdisj i j ind_i ind_j rc Hij Hi Hj Hdi Hdj).
  - apply list_lookup_singleton_Some in Hj as [_ <-].
    apply (Hnew ind_i rc); [eapply list_elem_of_lookup_2 |..]; eassumption.
  - apply list_lookup_singleton_Some in Hi as [_ <-].
    apply (Hnew ind_j rc); [eapply list_elem_of_lookup_2 |..]; eassumption.
  - apply list_lookup_singleton_Some in Hi as [Hi _].
    apply list_lookup_singleton_Some in Hj as [Hj _]. lia.
Qed.


(** ** Shapes that must not overlap *)

Lemma rebind_inv chans st g :
  placement_inv chans st -> placement_inv chans (rebind st g).
Proof. intros [H1 H2 H3 H4]. split; assumption. Qed.

Lemma slots_placement_inv idxs user_shape scenario num_trials image_shape
      shape allow_overlap colors st w st' w' :
  slots idxs user_shape scenario num_trials image_shape shape allow_overlap
        colors st w = (Ok st', w') ->
  placement_inv (Z.to_nat (snd image_shape)) st ->
  placement_inv (Z.to_nat (snd image_shape)) st'.
Proof.
  intros Hrun Hinv.
  eapply (slots_ind (placement_inv (Z.to_nat (snd image_shape))));
    [| |exact Hinv|exact Hrun].
  - intros st0 g w0 w1 H _. apply rebind_inv, H.
  - intros st0 st1 color H _ Hc. eapply committed_inv; eassumption.
Qed.

(** A colour row with two or more entries does not fit a canvas without
    channels: nothing is committed. *)
Lemma committed_no_channels image_shape shape allow_overlap color st st' :
  Z.to_nat (snd image_shape) = 0%nat -> (2 <= length color)%nat ->
  committed image_shape shape allow_overlap color st st' -> False.
Proof.
  intros Hk Hlen (f & row & col & rs & rs' & indices & label & ci & cf & px
                  & _ & _ & _ & _ & _ & Hpx & _).
  rewrite Hk in Hpx. unfold broadcast, as_uint8 in Hpx.
  rewrite length_map in Hpx.
  destruct color as [|c0 [|c1 color]]; cbn in Hlen, Hpx;
    [lia | lia | discriminate].
Qed.

Lemma slots_disjoint idxs user_shape scenario num_trials image_shape shape
      colors st w st' w' :
  slots idxs user_shape scenario num_trials image_shape shape false colors
        st w = (Ok st', w') ->
  (Z.to_nat (snd image_shape) = 0%nat ->
   forall color, color ∈ colors -> (2 <= length color)%nat) ->
  placement_inv (Z.to_nat (snd image_shape)) st ->
  pairwise_disjoint (e_filled st) (e_accepted st) ->
  pairwise_disjoint (e_filled st') (e_accepted st').
Proof.
  intros Hrun Hcolors Hinv Hdisj.
  refine (proj2 (slots_ind
    (fun s => placement_inv (Z.to_nat (snd image_shape)) s /\
              pairwise_disjoint (e_filled s) (e_accepted s))
    user_shape scenario num_trials image_shape shape false colors
    _ _ idxs st w st' w' (conj Hinv Hdisj) Hrun)).
  - intros st0 g w0 w1 [H1 H2] _. split; [apply rebind_inv, H1 | exact H2].
  - intros st0 st1 color [H1 H2] Hin Hc. split.
    + eapply committed_inv; eassumption.
    + destruct (Z.to_nat (snd image_shape)) as [|k] eqn:Hk.
      * exfalso. eapply committed_no_channels; [exact Hk | | exact Hc].
        apply Hcolors; [reflexivity | exact Hin].
      * eapply committed_disjoint; [exact Hc | lia | | exact H2].
        rewrite Hk. exact H1.
Qed.

(** C3.  In every run with [allow_overlap = False] that returns, each
    label has its accepted pixel set, and the pixel sets of two distinct
    accepted shapes are disjoint: they share no coordinate pair, and no
    two of their coordinate pairs even designate the same cell of the
    canvas.  In the trial loop a proposal is committed only when no
    pixel it designates is marked in the occupancy mask, and when the
    loop hands over to the next slot every pixel of the committed
    proposal is marked on all channels. *)
Theorem accepted_shapes_disjoint
        rows cols max_shapes min_shapes min_size max_size multichannel
        num_channels shape scenario intensity_range num_trials random_seed
        w run w' :
  random_shapes_run (rows, cols) max_shapes min_shapes min_size max_size
                    multichannel num_channels shape scenario
                    intensity_range false num_trials random_seed w
  = (Ok run, w') ->
  length (run_labels run) = length (run_accepted run) /\
  pairwise_disjoint (run_filled run) (run_accepted run) /\
  (forall i j indices_i indices_j p,
      i <> j ->
      run_accepted run !! i = Some indices_i ->
      run_accepted run !! j = Some indices_j ->
      p ∈ indices_i -> p ∈ indices_j -> False) /\
  (forall n image_shape size colors shape_idx st w0 st' w1,
      trials n image_shape size false colors shape_idx st w0
      = (Ok st', w1) ->
      st' = st \/
      exists indices cells,
        e_accepted st' = (e_accepted st ++ [indices])%list /\
        cells_of (e_filled st) indices = Some cells /\
        (forall rc px b, rc ∈ cells -> pixel (e_filled st) rc = Some px ->
                         b ∈ px -> b = false) /\
        (forall rc px b, rc ∈ cells -> pixel (e_filled st') rc = Some px ->
                         b ∈ px -> b = true)).
Proof.
  intros Hrun.
  apply random_shapes_run_inv in Hrun
    as (ir & rs0 & rs1 & rs2 & num_shapes & colors & st & Hr & Hc & Hk
        & Hir & Hrs0 & Hnum & Hcol & Hslots & ->).
  cbn [run_labels run_accepted run_filled].
  set (chans := channels_of multichannel num_channels) in *.
  pose proof (slots_placement_inv _ _ _ _ _ _ _ _ _ _ _ _ Hslots
                (initial_inv rows cols chans)) as Hinv.
  assert (Hdisj : pairwise_disjoint (e_filled st) (e_accepted st)).
  { eapply slots_disjoint; [exact Hslots | | apply initial_inv |].
    - cbn [snd]. intros Hk0.
      apply _generate_random_colors_inv in Hcol as [Hcol _].
      apply Hcol. lia.
    - intros i j ind_i ind_j rc _ Hi. cbn in Hi. inversion Hi. }
  split; [apply (inv_labels _ _ Hinv)|]. split; [exact Hdisj|]. split.
  - intros i j ind_i ind_j p Hij Hi Hj Hpi Hpj.
    destruct (inv_valid _ _ Hinv ind_i) as [cells Hcells];
      [eapply list_elem_of_lookup_2; exact Hi|].
    apply cells_of_Some in Hcells as [Hcells _].
    destruct (Hcells p Hpi) as (rc & Hrc & _).
    apply (Hdisj i j ind_i ind_j rc Hij Hi Hj); exists p; split; assumption.
  - intros n image_shape size colors0 shape_idx st0 w0 st1 w1 Htr.
    apply trials_cases in Htr as [_ [[-> _]|[(color & _ & Hcm) _]]];
      [left; reflexivity | right].
    destruct Hcm as (f & row & col & rsa & rsb & indices & label & ci & cf
                     & px & _ & _ & _ & _ & _ & _ & Hcf & Hfree & ->).
    exists indices, cf. cbn [e_accepted e_filled].
    split; [reflexivity|]. split; [exact Hcf|]. split.
    + intros rc px0 b Hin Hpx0 Hb.
      eapply (np_any_false _ px0 b (Hfree eq_refl)); [|exact Hb].
      apply list_elem_of_omap. exists rc. split; assumption.
    + intros rc px0 b Hin Hpx0 Hb. rewrite pixel_foldl in Hpx0.
      rewrite decide_True in Hpx0 by exact Hin.
      destruct (pixel (e_filled st0) rc); [|discriminate].
      injection Hpx0 as <-. apply elem_of_replicate_inv in Hb. exact Hb.
Qed.


(** ** The occupancy mask *)

Lemma channels_foldl {A} chans (v : list A) cells (a : ndarray A) :
  length v = chans -> channels chans a ->
  channels chans (foldl (set_pixel v) a cells).
Proof.
  intros Hv Ha rc px Hpx. rewrite pixel_foldl in Hpx.
  destruct (decide (rc ∈ cells)); [|eapply Ha; exact Hpx].
  destruct (pixel a rc); [|discriminate]. injection Hpx as <-. exact Hv.
Qed.

Lemma channels_replicate {A} rows cols chans (v : A) :
  channels chans (replicate rows (replicate cols (replicate chans v))).
Proof.
  intros rc px Hpx. unfold pixel in Hpx.
  destruct (replicate _ _ !! rc.1) as [row|] eqn:Hrow; [|discriminate].
  apply lookup_replicate in Hrow as [-> _].
  apply lookup_replicate in Hpx as [-> _]. apply length_replicate.
Qed.

Lemma initial_shaped rows cols chans :
  shaped (Z.to_nat rows) (Z.to_nat cols) (Z.to_nat chans)
         (e_image (initial rows cols chans)) /\
  shaped (Z.to_nat rows) (Z.to_nat cols) (Z.to_nat chans)
         (e_filled (initial rows cols chans)).
Proof.
  split; (split; [|apply channels_replicate]);
    unfold row_lengths; cbn; unfold background, unoccupied;
    rewrite fmap_replicate, length_replicate; reflexivity.
Qed.

Lemma committed_shaped rows cols image_shape shape allow_overlap color
      st st' :
  committed image_shape shape allow_overlap color st st' ->
  shaped rows cols (Z.to_nat (snd image_shape)) (e_image st) /\
  shaped rows cols (Z.to_nat (snd image_shape)) (e_filled st) ->
  shaped rows cols (Z.to_nat (snd image_shape)) (e_image st') /\
  shaped rows cols (Z.to_nat (snd image_shape)) (e_filled st').
Proof.
  intros (f & row & col & rs & rs' & indices & label & ci & cf & px
          & _ & _ & _ & _ & _ & Hpx & _ & _ & ->) [[Hi1 Hi2] [Hf1 Hf2]].
  cbn [e_image e_filled]. unfold shaped.
  rewrite !row_lengths_foldl. repeat split; try assumption.
  - apply channels_foldl; [eapply broadcast_length; exact Hpx | exact Hi2].
  - apply channels_foldl; [apply length_replicate | exact Hf2].
Qed.

Lemma mask_le_refl a : mask_le a a.
Proof. intros rc px k Hpx Hk. exists px. split; assumption. Qed.

Lemma mask_le_trans a b c : mask_le a b -> mask_le b c -> mask_le a c.
Proof.
  intros Hab Hbc rc px k Hpx Hk.
  destruct (Hab rc px k Hpx Hk) as (px' & Hpx' & Hk').
  exact (Hbc rc px' k Hpx' Hk').
Qed.

Lemma committed_mask_le image_shape shape allow_overlap color st st' :
  committed image_shape shape allow_overlap color st st' ->
  channels (Z.to_nat (snd image_shape)) (e_filled st) ->
  mask_le (e_filled st) (e_filled st').
Proof.
  intros (f & row & col & rs & rs' & indices & label & ci & cf & px
          & _ & _ & _ & _ & _ & _ & _ & _ & ->) Hch rc px0 k Hpx0 Hk.
  cbn [e_filled]. rewrite pixel_foldl, Hpx0.
  destruct (decide (rc ∈ cf));
    [|exists px0; split; [reflexivity | assumption]].
  eexists. split; [reflexivity|]. apply lookup_replicate_2.
  rewrite <- (Hch rc px0 Hpx0). eapply lookup_lt_Some. exact Hk.
Qed.

Lemma slots_mask_le idxs user_shape scenario num_trials image_shape shape
      allow_overlap colors st w st' w' :
  slots idxs user_shape scenario num_trials image_shape shape allow_overlap
        colors st w = (Ok st', w') ->
  channels (Z.to_nat (snd image_shape)) (e_filled st) ->
  mask_le (e_filled st) (e_filled st') /\
  channels (Z.to_nat (snd image_shape)) (e_filled st').
Proof.
  intros Hrun Hch.
  refine (slots_ind
    (fun s => mask_le (e_filled st) (e_filled s) /\
              channels (Z.to_nat (snd image_shape)) (e_filled s))
    user_shape scenario num_trials image_shape shape allow_overlap colors
    _ _ idxs st w st' w' (conj (mask_le_refl _) Hch) Hrun).
  - intros st0 g w0 w1 H _. exact H.
  - intros st0 st1 color [H1 H2] _ Hc. split.
    + eapply mask_le_trans; [exact H1|].
      eapply committed_mask_le; eassumption.
    + destruct Hc as (f & row & col & rs & rs' & indices & label & ci & cf
                      & px & _ & _ & _ & _ & _ & _ & _ & _ & ->).
      cbn [e_filled]. apply channels_foldl;
        [apply length_replicate | exact H2].
Qed.

Lemma slots_shaped rows cols idxs user_shape scenario num_trials
      image_shape shape allow_overlap colors st w st' w' :
  slots idxs user_shape scenario num_trials image_shape shape allow_overlap
        colors st w = (Ok st', w') ->
  shaped rows cols (Z.to_nat (snd image_shape)) (e_image st) /\
  shaped rows cols (Z.to_nat (snd image_shape)) (e_filled st) ->
  shaped rows cols (Z.to_nat (snd image_shape)) (e_image st') /\
  shaped rows cols (Z.to_nat (snd image_shape)) (e_filled st').
Proof.
  intros Hrun Hsh.
  refine (slots_ind
    (fun s => shaped rows cols (Z.to_nat (snd image_shape)) (e_image s) /\
              shaped rows cols (Z.to_nat (snd image_shape)) (e_filled s))
    user_shape scenario num_trials image_shape shape allow_overlap colors
    _ _ idxs st w st' w' Hsh Hrun).
  - intros st0 g w0 w1 H _. exact H.
  - intros st0 st1 color H _ Hc. eapply committed_shaped; eassumption.
Qed.

(** C9, as the code has it.  In every run that returns, the occupancy
    mask is a boolean array with the shape of the canvas, channel axis
    included: [rows] rows of [cols] pixels of [num_channels] channels
    (one channel when [multichannel] is false).  All channels of a mask
    pixel agree, and a channel is true exactly when some accepted pixel
    set claims the cell.  The mask never loses a true value: neither
    across one trial loop nor across any stretch of the slot loop. *)
Theorem occupancy_mask_spec
        rows cols max_shapes min_shapes min_size max_size multichannel
        num_channels shape scenario intensity_range allow_overlap
        num_trials random_seed w run w' :
  random_shapes_run (rows, cols) max_shapes min_shapes min_size max_size
                    multichannel num_channels shape scenario
                    intensity_range allow_overlap num_trials random_seed w
  = (Ok run, w') ->
  shaped (Z.to_nat rows) (Z.to_nat cols)
         (Z.to_nat (channels_of multichannel num_channels))
         (run_filled run) /\
  shaped (Z.to_nat rows) (Z.to_nat cols)
         (Z.to_nat (channels_of multichannel num_channels))
         (run_image run) /\
  (forall rc px,
      pixel (run_filled run) rc = Some px ->
      px = replicate (Z.to_nat (channels_of multichannel num_channels)) true
      \/
      px = replicate (Z.to_nat (channels_of multichannel num_channels)) false)
  /\
  (forall rc px b,
      pixel (run_filled run) rc = Some px -> b ∈ px ->
      (b = true <-> claimed (run_filled run) (run_accepted run) rc)) /\
  mask_le (unoccupied rows cols (channels_of multichannel num_channels))
          (run_filled run) /\
  (forall n image_shape size overlap colors shape_idx st w0 st' w1,
      channels (Z.to_nat (snd image_shape)) (e_filled st) ->
      trials n image_shape size overlap colors shape_idx st w0
      = (Ok st', w1) ->
      mask_le (e_filled st) (e_filled st')) /\
  (forall idxs user_shape scen trials_budget image_shape size overlap
          colors st w0 st' w1,
      channels (Z.to_nat (snd image_shape)) (e_filled st) ->
      slots idxs user_shape scen trials_budget image_shape size overlap
            colors st w0 = (Ok st', w1) ->
      mask_le (e_filled st) (e_filled st')).
Proof.
  intros Hrun.
  apply random_shapes_run_inv in Hrun
    as (ir & rs0 & rs1 & rs2 & num_shapes & colors & st & Hr & Hc & Hk
        & Hir & Hrs0 & Hnum & Hcol & Hslots & ->).
  cbn [run_labels run_accepted run_filled run_image].
  set (chans := channels_of multichannel num_channels) in *.
  pose proof (slots_placement_inv _ _ _ _ _ _ _ _ _ _ _ _ Hslots
                (initial_inv rows cols chans)) as Hinv.
  cbn [snd] in Hinv.
  destruct (slots_shaped _ _ _ _ _ _ _ _ _ _ _ _ _ _ Hslots
              (initial_shaped rows cols chans)) as [Himg Hfil].
  cbn [snd] in Himg, Hfil.
  split; [exact Hfil|]. split; [exact Himg|]. split; [|split; [|split]].
  - intros rc px Hpx.
    destruct (inv_mask _ _ Hinv rc px Hpx) as [[_ ->]|[_ ->]]; tauto.
  - intros rc px b Hpx Hb.
    destruct (inv_mask _ _ Hinv rc px Hpx) as [[Hcl ->]|[Hncl ->]];
      apply elem_of_replicate_inv in Hb as ->.
    + tauto.
    + split; [discriminate | contradiction].
  - apply (slots_mask_le _ _ _ _ _ _ _ _ _ _ _ _ Hslots).
    apply channels_replicate.
  - split.
    + intros n image_shape size overlap colors0 shape_idx st0 w0 st1 w1
             Hch Htr.
      apply trials_cases in Htr as [_ [[-> _]|[(color & _ & Hcm) _]]].
      * apply mask_le_refl.
      * eapply committed_mask_le; eassumption.
    + intros idxs user_shape scen tb image_shape size overlap colors0 st0
             w0 st1 w1 Hch Hsl.
      eapply slots_mask_le; eassumption.
Qed.


(** ** Colours on the canvas *)

Lemma committed_canvas low high image_shape shape allow_overlap color
      st st' :
  0 <= low -> high <= 255 ->
  (forall v, v ∈ color -> low <= v <= high) ->
  committed image_shape shape allow_overlap color st st' ->
  placement_inv (Z.to_nat (snd image_shape)) st ->
  claimed_within low high st /\
  unclaimed_background (Z.to_nat (snd image_shape)) st ->
  claimed_within low high st' /\
  unclaimed_background (Z.to_nat (snd image_shape)) st'.
Proof.
  intros Hlow Hhigh Hcolor
         (f & row & col & rs & rs' & indices & label & ci & cf & px
          & _ & _ & _ & _ & Hci & Hpx & Hcf & _ & ->)
         [Hdims _ _ _] [Hin Hout].
  set (chans := Z.to_nat (snd image_shape)) in *.
  rewrite (cells_of_ext _ (e_filled st) indices Hdims), Hcf in Hci.
  injection Hci as <-.
  assert (Hrl : row_lengths (foldl (set_pixel (replicate chans true))
                                   (e_filled st) cf)
                = row_lengths (e_filled st)) by apply row_lengths_foldl.
  assert (Hcl : forall rc,
             claimed (foldl (set_pixel (replicate chans true))
                            (e_filled st) cf)
                     (e_accepted st ++ [indices]) rc <->
             claimed (e_filled st) (e_accepted st) rc \/ rc ∈ cf).
  { intros rc. rewrite (claimed_ext _ (e_filled st) _ rc Hrl), claimed_snoc.
    rewrite <- (designates_cells _ _ _ rc Hcf). reflexivity. }
  split.
  - intros rc px0 v Hclaim Hpx0 Hv. cbn [e_image e_filled e_accepted] in *.
    rewrite pixel_foldl in Hpx0. apply Hcl in Hclaim.
    destruct (decide (rc ∈ cf)) as [Hrc|Hrc].
    + destruct (pixel (e_image st) rc); [|discriminate].
      injection Hpx0 as <-.
      apply (broadcast_elem _ _ _ _ Hpx) in Hv. unfold as_uint8 in Hv.
      apply list_elem_of_In, in_map_iff in Hv as (c & <- & Hc).
      apply list_elem_of_In, Hcolor in Hc.
      rewrite Z.mod_small by lia. exact Hc.
    + destruct Hclaim as [Hclaim|?]; [|contradiction].
      eapply Hin; eassumption.
  - intros rc px0 Hnclaim Hpx0. cbn [e_image e_filled e_accepted] in *.
    rewrite pixel_foldl in Hpx0. rewrite Hcl in Hnclaim.
    destruct (decide (rc ∈ cf)) as [Hrc|Hrc]; [tauto|].
    apply (Hout rc px0); [tauto | exact Hpx0].
Qed.

Lemma initial_canvas low high rows cols chans :
  claimed_within low high (initial rows cols chans) /\
  unclaimed_background (Z.to_nat chans) (initial rows cols chans).
Proof.
  split.
  - intros rc px v (ind & Hin & _). inversion Hin.
  - intros rc px _ Hpx. cbn in Hpx. unfold pixel, background in Hpx.
    destruct (replicate _ _ !! rc.1) as [row|] eqn:Hrow; [|discriminate].
    apply lookup_replicate in Hrow as [-> _].
    apply lookup_replicate in Hpx as [-> _]. reflexivity.
Qed.

Lemma slots_canvas low high idxs user_shape scenario num_trials image_shape
      shape allow_overlap colors st w st' w' :
  0 <= low -> high <= 255 ->
  (forall color v, color ∈ colors -> v ∈ color -> low <= v <= high) ->
  slots idxs user_shape scenario num_trials image_shape shape allow_overlap
        colors st w = (Ok st', w') ->
  placement_inv (Z.to_nat (snd image_shape)) st ->
  claimed_within low high st /\
  unclaimed_background (Z.to_nat (snd image_shape)) st ->
  claimed_within low high st' /\
  unclaimed_background (Z.to_nat (snd image_shape)) st'.
Proof.
  intros Hlow Hhigh Hcolors Hrun Hinv Hcanvas.
  refine (proj2 (slots_ind
    (fun s => placement_inv (Z.to_nat (snd image_shape)) s /\
              (claimed_within low high s /\
               unclaimed_background (Z.to_nat (snd image_shape)) s))
    user_shape scenario num_trials image_shape shape allow_overlap colors
    _ _ idxs st w st' w' (conj Hinv Hcanvas) Hrun)).
  - intros st0 g w0 w1 [H1 H2] _. split; [apply rebind_inv, H1 | exact H2].
  - intros st0 st1 color [H1 H2] Hin Hc. split.
    + eapply committed_inv; eassumption.
    + eapply committed_canvas; try eassumption.
      intros v Hv. eapply Hcolors; eassumption.
Qed.

(** C10.  When [intensity_range] is [None], in every run that returns,
    every entry of the sampled colour table lies in 0..254, strictly
    below the background value 255 to which every pixel of the canvas
    is initialised.  Every coordinate of an accepted pixel set
    designates a canvas pixel whose channels all hold a value of 0..254,
    hence different from 255, while a pixel that no accepted pixel set
    claims still holds 255 on all its channels. *)
Theorem default_colors_below_background
        rows cols max_shapes min_shapes min_size max_size multichannel
        num_channels shape scenario allow_overlap num_trials random_seed
        w run w' :
  random_shapes_run (rows, cols) max_shapes min_shapes min_size max_size
                    multichannel num_channels shape scenario None
                    allow_overlap num_trials random_seed w
  = (Ok run, w') ->
  (forall color v, color ∈ run_colors run -> v ∈ color -> 0 <= v <= 254) /\
  (forall rc px v,
      pixel (background rows cols (channels_of multichannel num_channels)) rc
      = Some px -> v ∈ px -> v = 255) /\
  (forall indices p,
      indices ∈ run_accepted run -> p ∈ indices ->
      exists rc px,
        cell_of (run_image run) p = Some rc /\
        pixel (run_image run) rc = Some px /\
        forall v, v ∈ px -> 0 <= v <= 254 /\ v <> 255) /\
  (forall rc px,
      ~ claimed (run_filled run) (run_accepted run) rc ->
      pixel (run_image run) rc = Some px ->
      px = replicate (Z.to_nat (channels_of multichannel num_channels)) 255).
Proof.
  intros Hrun.
  apply random_shapes_run_inv in Hrun
    as (ir & rs0 & rs1 & rs2 & num_shapes & colors & st & Hr & Hc & Hk
        & Hir & Hrs0 & Hnum & Hcol & Hslots & ->).
  cbn [run_labels run_accepted run_filled run_image run_colors].
  set (chans := channels_of multichannel num_channels) in *.
  apply _generate_random_colors_inv in Hcol as [_ Hcolors].
  specialize (Hcolors (Hir eq_refl)).
  pose proof (slots_placement_inv _ _ _ _ _ _ _ _ _ _ _ _ Hslots
                (initial_inv rows cols chans)) as Hinv.
  destruct (slots_canvas 0 254 _ _ _ _ _ _ _ _ _ _ _ _
              ltac:(lia) ltac:(lia) Hcolors Hslots
              (initial_inv rows cols chans)
              (initial_canvas 0 254 rows cols chans)) as [Hin Hout].
  cbn [snd] in Hinv, Hout.
  split; [exact Hcolors|]. split; [|split].
  - intros rc px v Hpx Hv. unfold pixel, background in Hpx.
    destruct (replicate _ _ !! rc.1) as [row|] eqn:Hrow; [|discriminate].
    apply lookup_replicate in Hrow as [-> _].
    apply lookup_replicate in Hpx as [-> _].
    apply elem_of_replicate_inv in Hv. exact Hv.
  - intros indices p Hind Hp.
    destruct (inv_valid _ _ Hinv indices Hind) as [cells Hcells].
    apply cells_of_Some in Hcells as [Hcells _].
    destruct (Hcells p Hp) as (rc & Hrc & _).
    rewrite <- (cell_of_ext _ _ p (inv_dims _ _ Hinv)) in Hrc.
    destruct (cell_of_pixel _ _ _ Hrc) as [px Hpx].
    exists rc, px. split; [exact Hrc|]. split; [exact Hpx|].
    intros v Hv.
    assert (0 <= v <= 254); [|lia].
    apply (Hin rc px v); [|exact Hpx|exact Hv].
    exists indices. split; [exact Hind|]. exists p. split; [exact Hp|].
    rewrite <- (cell_of_ext _ _ p (inv_dims _ _ Hinv)). exact Hrc.
  - exact Hout.
Qed.


(** ** How many labels a run returns *)

(** C5.  When the trial budget of a slot is used up the loop emits the
    "could not fit" warning and hands the unchanged state to the next
    slot: the run does not abort for this reason.  In every run that
    returns, the shape count is the first randint draw of the run, over
    [min_shapes .. max_shapes] inclusive; every slot either appended a
    label or emitted that warning, so the labels and the warnings of the
    run together number the shape count; hence, for shape counts (a
    [min_shapes] that is not negative),
    [0 <= len(labels) <= shape_count <= max_shapes].  (For a negative
    drawn count, which only a negative [min_shapes] allows, the loop has
    no slot and [len(labels) = 0].) *)
Theorem labels_bounded_by_shape_count
        rows cols max_shapes min_shapes min_size max_size multichannel
        num_channels shape scenario intensity_range allow_overlap
        num_trials random_seed w run w' :
  random_shapes_run (rows, cols) max_shapes min_shapes min_size max_size
                    multichannel num_channels shape scenario
                    intensity_range allow_overlap num_trials random_seed w
  = (Ok run, w') ->
  (forall image_shape size overlap colors shape_idx st w0,
      trials 0 image_shape size overlap colors shape_idx st w0
      = (Ok st, mkWorld (w_random w0) (w_warnings w0 ++ [could_not_fit])
                        (w_stdout w0))) /\
  (exists random0,
      random0 = match random_seed with
                | Some seed => mkRandomState (seeded_stream seed) 0
                | None => w_random w
                end /\
      run_num_shapes run
      = min_shapes + raw_at random0 0 mod (max_shapes + 1 - min_shapes)) /\
  min_shapes <= run_num_shapes run <= max_shapes /\
  (exists exhausted : nat,
      w_warnings w' = (w_warnings w ++ replicate exhausted could_not_fit)%list
      /\ Z.of_nat (length (run_labels run)) + Z.of_nat exhausted
         = Z.max 0 (run_num_shapes run)) /\
  0 <= Z.of_nat (length (run_labels run)) <= Z.max 0 (run_num_shapes run) /\
  (0 <= min_shapes ->
   Z.of_nat (length (run_labels run)) <= run_num_shapes run).
Proof.
  intros Hrun.
  apply random_shapes_run_inv in Hrun
    as (ir & rs0 & rs1 & rs2 & num_shapes & colors & st & Hr & Hc & Hk
        & Hir & Hrs0 & Hnum & Hcol & Hslots & ->).
  cbn [run_labels run_num_shapes].
  apply randint_Ok_inv in Hnum as (Hrange & Hval & _).
  apply slots_count in Hslots as (k & Hwarn & Hlen).
  cbn in Hwarn, Hlen. rewrite length_seq in Hlen.
  split; [reflexivity|].
  split; [exists rs0; split; [exact Hrs0|exact Hval]|].
  split; [lia|].
  split; [exists k; split; [exact Hwarn | lia]|].
  split; lia.
Qed.


(** ** Which fitter labels the shapes *)

Lemma rectangle_Ok_inv point image shape random indices label random' :
  _generate_rectangle_mask point image shape random
  = (Ok (indices, label), random') ->
  exists height width,
    fst shape <= height <= Z.min (fst (fst image) - fst point) (snd shape) /\
    fst shape <= width <= Z.min (snd (fst image) - snd point) (snd shape) /\
    label = ("rectangle", ((fst point, fst point + height),
                           (snd point, snd point + width))).
Proof.
  unfold _generate_rectangle_mask.
  destruct (_ <? fst shape); [discriminate|].
  destruct (_ <? fst shape); [discriminate|].
  intros Hrun. apply bind_Ok_inv in Hrun as (r & rs1 & Hr & Hrun).
  apply bind_Ok_inv in Hrun as (c & rs2 & Hc & Hrun).
  injection Hrun as _ <- _.
  apply randint_Ok_inv in Hr as (Hr & _). apply randint_Ok_inv in Hc as (Hc & _).
  exists r, c. repeat split; lia.
Qed.

Lemma circle_label point image shape random indices label random' :
  _generate_circle_mask point image shape random
  = (Ok (indices, label), random') ->
  fst label = "circle".
Proof.
  unfold _generate_circle_mask.
  destruct (_ || _); [discriminate|].
  destruct (Qlt_bool _ _); [discriminate|].
  intros Hrun. apply bind_Ok_inv in Hrun as (r & rs1 & Hr & Hrun).
  injection Hrun as _ <- _. reflexivity.
Qed.

Lemma triangle_label point image shape random indices label random' :
  _generate_triangle_mask point image shape random
  = (Ok (indices, label), random') ->
  fst label = "triangle".
Proof.
  unfold _generate_triangle_mask.
  destruct (_ || _); [discriminate|].
  destruct (_ <? fst shape); [discriminate|].
  intros Hrun. apply bind_Ok_inv in Hrun as (r & rs1 & Hr & Hrun).
  injection Hrun as _ <- _. reflexivity.
Qed.

(** The pinned lookup returns the fitter registered under the name. *)
Lemma dict_get_SHAPE_GENERATORS {S} name (w : S) f w1 :
  dict_get SHAPE_GENERATORS name w = (Ok f, w1) ->
  w1 = w /\
  ((name = "rectangle" /\ f = _generate_rectangle_mask) \/
   (name = "circle" /\ f = _generate_circle_mask) \/
   (name = "triangle" /\ f = _generate_triangle_mask)).
Proof.
  unfold SHAPE_GENERATORS. cbn [dict_get].
  destruct (String.eqb_spec "rectangle" name) as [<-|_];
    [intros [= <- <-]; split; [reflexivity | left; split; reflexivity]|].
  destruct (String.eqb_spec "circle" name) as [<-|_];
    [intros [= <- <-]; split; [reflexivity |
                               right; left; split; reflexivity]|].
  destruct (String.eqb_spec "triangle" name) as [<-|_];
    [intros [= <- <-]; split; [reflexivity |
                               right; right; split; reflexivity]|].
  discriminate.
Qed.


(** The labels of the loop all satisfy [Q] when every fitter the
    selector can bind only produces such labels. *)
Lemma slots_labels (Q : Label -> Prop) user_shape scenario num_trials
      image_shape shape allow_overlap colors idxs st w st' w' :
  (forall current w0 g w1,
      (forall f, current = Some f -> produces f image_shape shape Q) ->
      select_generator user_shape scenario current w0 = (Ok g, w1) ->
      forall f, g = Some f -> produces f image_shape shape Q) ->
  slots idxs user_shape scenario num_trials image_shape shape allow_overlap
        colors st w = (Ok st', w') ->
  (forall f, e_shape_generator st = Some f ->
             produces f image_shape shape Q) ->
  Forall Q (e_labels st) ->
  Forall Q (e_labels st').
Proof.
  intros Hsel Hrun Hgen Hlabels.
  refine (proj1 (slots_ind
    (fun s => Forall Q (e_labels s) /\
              forall f, e_shape_generator s = Some f ->
                        produces f image_shape shape Q)
    user_shape scenario num_trials image_shape shape allow_overlap colors
    _ _ idxs st w st' w' (conj Hlabels Hgen) Hrun)).
  - intros st0 g w0 w1 [H1 H2] Hg. split; [exact H1|].
    cbn [rebind e_shape_generator]. eapply Hsel; eassumption.
  - intros st0 st1 color [H1 H2] _
           (f & row & col & rs & rs' & indices & label & ci & cf & px
            & Hgen0 & _ & _ & Hfit & _ & _ & _ & _ & ->).
    cbn [e_labels e_shape_generator]. split; [|exact H2].
    apply Forall_app. split; [exact H1|].
    apply Forall_singleton. eapply H2; eassumption.
Qed.


(** Without a fitter bound to [shape_generator], and with a selector
    that leaves it unbound, nothing is committed. *)
Lemma slots_unbound name num_trials image_shape shape allow_overlap colors
      idxs st w st' w' :
  slots idxs None (OtherScenario name) num_trials image_shape shape
        allow_overlap colors st w = (Ok st', w') ->
  e_shape_generator st = None ->
  st' = st.
Proof.
  intros Hrun Hgen.
  refine (proj2 (slots_ind
    (fun s => e_shape_generator s = None /\ s = st)
    None (OtherScenario name) num_trials image_shape shape allow_overlap
    colors _ _ idxs st w st' w' (conj Hgen eq_refl) Hrun)).
  - intros st0 g w0 w1 [H1 ->] Hg. rewrite select_generator_other in Hg.
    injection Hg as <- _. split; [exact Hgen|].
    destruct st. cbn in *. subst. reflexivity.
  - intros st0 st1 color [H1 _] _ (f & row & col & rs & rs' & indices
             & label & ci & cf & px & Hgen0 & _).
    congruence.
Qed.

Lemma slots_other_stdout name num_trials image_shape shape allow_overlap
      colors :
  forall idxs st w st' w',
    slots idxs None (OtherScenario name) num_trials image_shape shape
          allow_overlap colors st w = (Ok st', w') ->
    w_stdout w'
    = (w_stdout w ++ replicate (length idxs) "Error in the script")%list.
Proof.
  induction idxs as [|i idxs IH]; intros st w st' w' Hrun.
  - injection Hrun as _ <-. cbn. rewrite app_nil_r. reflexivity.
  - cbn [slots] in Hrun.
    apply bind_Ok_inv in Hrun as (g & w1 & Hg & Hrun).
    apply bind_Ok_inv in Hrun as (st1 & w2 & Htr & Hrun).
    rewrite select_generator_other in Hg. injection Hg as _ <-.
    apply trials_cases in Htr as [Hout _]. apply IH in Hrun.
    rewrite Hrun, Hout. cbn. rewrite <- app_assoc. reflexivity.
Qed.


Lemma random_shapes_Ok_inv image_shape max_shapes min_shapes min_size
      max_size multichannel num_channels shape scenario intensity_range
      allow_overlap num_trials random_seed w image labels w' :
  random_shapes image_shape max_shapes min_shapes min_size max_size
                multichannel num_channels shape scenario intensity_range
                allow_overlap num_trials random_seed w
  = (Ok (image, labels), w') ->
  exists run,
    random_shapes_run image_shape max_shapes min_shapes min_size max_size
                      multichannel num_channels shape scenario
                      intensity_range allow_overlap num_trials random_seed w
    = (Ok run, w') /\
    labels = run_labels run /\
    image = if multichannel then Multichannel (run_image run)
            else Grey (np_squeeze (run_image run)).
Proof.
  unfold random_shapes. intros Hrun.
  apply bind_Ok_inv in Hrun as (run & w1 & Hrun & Hret).
  injection Hret as <- <- <-. exists run. repeat split. exact Hrun.
Qed.

Lemma bind_ext {S A B} (m : SE S A) (k1 k2 : A -> SE S B) w :
  (forall a w1, k1 a w1 = k2 a w1) -> bind m k1 w = bind m k2 w.
Proof.
  intros Hk. unfold bind. destruct (m w) as [[a|e] w1];
    [apply Hk | reflexivity].
Qed.


(** ** The weighted selection of the default scenario *)

Lemma choice_p_halo {A} (a b c : A) (random : RandomState) :
  choice_p [a; b; c] [4 # 10; 4 # 10; 2 # 10]%Q random
  = (Ok (if Qlt_bool ((raw_at random 0 mod 2 ^ 53) # 2 ^ 53) (4 # 10) then a
         else if Qlt_bool ((raw_at random 0 mod 2 ^ 53) # 2 ^ 53) (8 # 10)
              then b else c),
     advance 1 random).
Proof.
  unfold choice_p. cbn [length Nat.eqb negb].
  unfold bind at 1. unfold random_sample, bind, next_raw, ret.
  unfold raw_at, advance. cbn [Nat.add].
  set (k := rs_raw random (rs_pos random) mod 2 ^ 53).
  assert (Hk : 0 <= k < 9007199254740992).
  { subst k. apply (Z.mod_pos_bound _ (2 ^ 53)). reflexivity. }
  set (cdf := map _ _). vm_compute in cdf. subst cdf.
  cbn [searchsorted_right]. unfold Qlt_bool, Qle_bool. cbn [Qnum Qden].
  change (Z.pos (2 ^ 53)) with 9007199254740992.
  change (Z.pos 10) with 10.
  destruct (Z.leb_spec (4000 * 9007199254740992) (k * 10000)),
           (Z.leb_spec (4 * 9007199254740992) (k * 10)); try lia;
    cbn [negb]; [|reflexivity].
  destruct (Z.leb_spec (80000 * 9007199254740992) (k * 100000)),
           (Z.leb_spec (8 * 9007199254740992) (k * 10)); try lia;
    cbn [negb]; [|reflexivity].
  destruct (Z.leb_spec (1000000 * 9007199254740992) (k * 1000000));
    [lia | reflexivity].
Qed.

Lemma select_generator_halo current w :
  select_generator None SHAPE_GENERATOR_ALL_HALO current w
  = (Ok (Some
           (if Qlt_bool ((raw_at (w_random w) 0 mod 2 ^ 53) # 2 ^ 53)
                        (4 # 10)
            then _generate_rectangle_mask
            else if Qlt_bool ((raw_at (w_random w) 0 mod 2 ^ 53) # 2 ^ 53)
                             (8 # 10)
                 then _generate_triangle_mask
                 else _generate_circle_mask)),
     mkWorld (advance 1 (w_random w)) (w_warnings w) (w_stdout w)).
Proof.
  unfold select_generator. cbn [Scenario_eqb].
  unfold bind, with_random.
  change SHAPE_CHOICES_ALL
    with [_generate_rectangle_mask; _generate_triangle_mask;
          _generate_circle_mask].
  rewrite choice_p_halo. reflexivity.
Qed.

(** C4, as the code has it.  Under the default, "all categories,
    shape-diverse" scenario the selector makes one weighted draw over
    the fitters in the order of the registry, which is rectangle,
    triangle, circle, with the weights 0.4, 0.4, 0.2: a uniform sample
    below 0.4 selects the rectangle fitter, a sample from 0.4 to below
    0.8 the triangle fitter, and a sample from 0.8 the circle fitter.
    The weight 0.4 goes to rectangle, 0.4 to triangle and 0.2 to
    circle. *)
Theorem halo_scenario_weights :
  map fst SHAPE_GENERATORS_ALL = ["rectangle"; "triangle"; "circle"] /\
  SHAPE_CHOICES_ALL = [_generate_rectangle_mask; _generate_triangle_mask;
                       _generate_circle_mask] /\
  forall current w,
    select_generator None SHAPE_GENERATOR_ALL_HALO current w
    = (Ok (Some
             (if Qlt_bool ((raw_at (w_random w) 0 mod 2 ^ 53) # 2 ^ 53)
                          (4 # 10)
              then _generate_rectangle_mask
              else if Qlt_bool ((raw_at (w_random w) 0 mod 2 ^ 53) # 2 ^ 53)
                               (8 # 10)
                   then _generate_triangle_mask
                   else _generate_circle_mask)),
       mkWorld (advance 1 (w_random w)) (w_warnings w) (w_stdout w)).
Proof.
  split; [reflexivity|]. split; [reflexivity|].
  apply select_generator_halo.
Qed.

(** ** Determinism *)

Lemma stateless_ret {S A} (a : A) : stateless (@ret S A a).
Proof. exists (Ok a). reflexivity. Qed.

Lemma stateless_raise {S A} e : stateless (@raise S A e).
Proof. exists (Raise e). reflexivity. Qed.

Lemma stateless_bind {S A B} (m : SE S A) (k : A -> SE S B) :
  stateless m -> (forall a, stateless (k a)) -> stateless (bind m k).
Proof.
  intros [[a|e] Hm] Hk.
  - destruct (Hk a) as [r Hr]. exists r. intros w. unfold bind.
    rewrite Hm. apply Hr.
  - exists (Raise e). intros w. unfold bind. rewrite Hm. reflexivity.
Qed.

Lemma stateless_mapM {S A B} (f : A -> SE S B) l :
  (forall x, stateless (f x)) -> stateless (mapM f l).
Proof.
  intros Hf. induction l as [|x l IH]; cbn [mapM].
  - apply stateless_ret.
  - apply stateless_bind; [apply Hf|]. intros y.
    apply stateless_bind; [apply IH|]. intros ys. apply stateless_ret.
Qed.

Lemma stateless_random_only {A} (m : M A) : stateless m -> random_only m.
Proof.
  intros [r Hr] w1 w2 Hw. rewrite !Hr. split; [reflexivity | exact Hw].
Qed.

Lemma stateless_check_intensity_range num_channels intensity_range :
  stateless (check_intensity_range num_channels intensity_range).
Proof.
  assert (Hc : forall x, stateless (check_intensity x)).
  { intros x. unfold check_intensity.
    destruct (_ && _); [apply stateless_ret | apply stateless_raise]. }
  unfold check_intensity_range.
  destruct (num_channels =? 1); destruct intensity_range as [low high|rs].
  - apply stateless_bind; [apply Hc | intros _; apply Hc].
  - destruct rs; [apply stateless_ret | apply stateless_raise].
  - apply stateless_raise.
  - apply stateless_bind; [|intros _; apply stateless_ret].
    apply stateless_mapM. intros r.
    apply stateless_bind; [apply Hc | intros _; apply Hc].
Qed.

Lemma stateless_np_full {S A} shape (v : A) : stateless (@np_full S A shape v).
Proof.
  destruct shape as [[rows cols] chans]. unfold np_full.
  destruct (_ || _); [apply stateless_raise | apply stateless_ret].
Qed.

Lemma stateless_getitem {S A} (a : ndarray A) indices :
  stateless (@getitem S A a indices).
Proof.
  unfold getitem.
  destruct (cells_of a indices); [apply stateless_ret | apply stateless_raise].
Qed.

Lemma stateless_setitem {S A} chans (a : ndarray A) indices v :
  stateless (@setitem S A chans a indices v).
Proof.
  unfold setitem. destruct (cells_of a indices); [|apply stateless_raise].
  destruct (broadcast _ v); [apply stateless_ret | apply stateless_raise].
Qed.

Lemma stateless_dict_get {S A} (d : list (string * A)) key :
  stateless (@dict_get S A d key).
Proof.
  induction d as [|[k v] d IH]; cbn [dict_get].
  - apply stateless_raise.
  - destruct (String.eqb k key); [apply stateless_ret | exact IH].
Qed.

Lemma random_only_bind {A B} (m : M A) (k : A -> M B) :
  random_only m -> (forall a, random_only (k a)) -> random_only (bind m k).
Proof.
  intros Hm Hk w1 w2 Hw. unfold bind.
  destruct (Hm w1 w2 Hw) as [Hr Hs].
  destruct (m w1) as [[a1|e1] w1'], (m w2) as [[a2|e2] w2'];
    cbn in Hr, Hs; try discriminate.
  - injection Hr as ->. apply Hk. exact Hs.
  - injection Hr as ->. split; [reflexivity | exact Hs].
Qed.

Lemma random_only_with_random {A} (m : R A) : random_only (with_random m).
Proof.
  intros w1 w2 Hw. unfold with_random. rewrite Hw.
  destruct (m (w_random w2)) as [r rs]. split; reflexivity.
Qed.

Lemma random_only_try {A} (m : M A) :
  random_only m -> random_only (try_ArithmeticError m).
Proof.
  intros Hm w1 w2 Hw. unfold try_ArithmeticError.
  destruct (Hm w1 w2 Hw) as [Hr Hs].
  destruct (m w1) as [[a1|e1] w1'], (m w2) as [[a2|e2] w2'];
    cbn in Hr, Hs; try discriminate.
  - injection Hr as ->. split; [reflexivity | exact Hs].
  - injection Hr as ->. destruct e2; (split; [reflexivity | exact Hs]).
Qed.

Lemma random_only_warn msg : random_only (warn msg).
Proof. intros w1 w2 Hw. split; [reflexivity | exact Hw]. Qed.

Lemma random_only_print msg : random_only (print msg).
Proof. intros w1 w2 Hw. split; [reflexivity | exact Hw]. Qed.

Lemma random_only_ret {A} (a : A) : random_only (ret a).
Proof. apply stateless_random_only, stateless_ret. Qed.

Lemma random_only_raise {A} e : random_only (@raise World A e).
Proof. apply stateless_random_only, stateless_raise. Qed.

Lemma random_only_select_generator user_shape scenario current :
  random_only (select_generator user_shape scenario current).
Proof.
  unfold select_generator. destruct user_shape as [name|].
  - apply random_only_bind; [|intros g; apply random_only_ret].
    apply stateless_random_only, stateless_dict_get.
  - destruct scenario; cbn [Scenario_eqb];
      try (apply random_only_bind;
           [apply random_only_with_random | intros g; apply random_only_ret]).
    apply random_only_bind; [apply random_only_print|].
    intros _. apply random_only_ret.
Qed.

Lemma random_only_trials n image_shape shape allow_overlap colors shape_idx :
  forall st,
    random_only (trials n image_shape shape allow_overlap colors shape_idx st).
Proof.
  induction n as [|n IH]; intros st; cbn [trials].
  - apply random_only_bind; [apply random_only_warn|].
    intros _. apply random_only_ret.
  - apply random_only_bind; [apply random_only_with_random|]. intros column.
    apply random_only_bind; [apply random_only_with_random|]. intros row.
    apply random_only_bind;
      [apply random_only_try, random_only_with_random|].
    intros [[indices label]|]; [|apply IH].
    apply random_only_bind.
    { destruct allow_overlap; [apply random_only_ret|].
      apply random_only_bind;
        [apply stateless_random_only, stateless_getitem|].
      intros pixels. apply random_only_ret. }
    intros [|]; [|apply IH].
    apply random_only_bind.
    { destruct (colors !! shape_idx);
        [apply random_only_ret | apply random_only_raise]. }
    intros color.
    apply random_only_bind;
      [apply stateless_random_only, stateless_setitem|]. intros image'.
    apply random_only_bind;
      [apply stateless_random_only, stateless_setitem|]. intros filled'.
    apply random_only_ret.
Qed.

Lemma random_only_slots user_shape scenario num_trials image_shape shape
      allow_overlap colors :
  forall idxs st,
    random_only (slots idxs user_shape scenario num_trials image_shape shape
                       allow_overlap colors st).
Proof.
  induction idxs as [|i idxs IH]; intros st; cbn [slots].
  - apply random_only_ret.
  - apply random_only_bind; [apply random_only_select_generator|].
    intros g. apply random_only_bind; [apply random_only_trials|].
    intros st'. apply IH.
Qed.

Lemma result_fixed_map {A B} (m : M A) (f : A -> B) :
  (forall w1 w2, fst (m w1) = fst (m w2)) ->
  forall w1 w2,
    fst (bind m (fun a => ret (f a)) w1) = fst (bind m (fun a => ret (f a)) w2).
Proof.
  intros Hm w1 w2. specialize (Hm w1 w2). unfold bind, ret.
  destruct (m w1) as [[a1|e1] w1'], (m w2) as [[a2|e2] w2'];
    cbn in Hm; try discriminate; injection Hm as ->; reflexivity.
Qed.

Lemma result_fixed_stateless {A B} (m : M A) (k : A -> M B) :
  stateless m ->
  (forall a w1 w2, fst (k a w1) = fst (k a w2)) ->
  forall w1 w2, fst (bind m k w1) = fst (bind m k w2).
Proof.
  intros [r Hr] Hk w1 w2. unfold bind. rewrite !Hr.
  destruct r as [a|e]; [apply Hk | reflexivity].
Qed.

(** After seeding with an integer the random state is the same whatever
    the world was. *)
Lemma result_fixed_seeded {B} seed (k : unit -> M B) :
  (forall u, random_only (k u)) ->
  forall w1 w2,
    fst (bind (RandomState_new (Some seed)) k w1)
    = fst (bind (RandomState_new (Some seed)) k w2).
Proof.
  intros Hk w1 w2. unfold bind, RandomState_new.
  destruct (_ && _); [|reflexivity].
  apply Hk. reflexivity.
Qed.

(** C6.  [random_shapes] is deterministic in its seed: two calls with
    the same arguments and the same integer [random_seed] return the
    same result, image and labels alike (or raise the same exception),
    whatever state the random generator, the warnings and the output
    were in before the call. *)
Theorem random_shapes_deterministic
        image_shape max_shapes min_shapes min_size max_size multichannel
        num_channels shape scenario intensity_range allow_overlap
        num_trials (seed : Z) (w1 w2 : World) :
  fst (random_shapes image_shape max_shapes min_shapes min_size max_size
                     multichannel num_channels shape scenario
                     intensity_range allow_overlap num_trials (Some seed)
                     w1)
  = fst (random_shapes image_shape max_shapes min_shapes min_size max_size
                       multichannel num_channels shape scenario
                       intensity_range allow_overlap num_trials (Some seed)
                       w2).
Proof.
  unfold random_shapes. apply result_fixed_map.
  unfold random_shapes_run.
  destruct (_ || _); [intros wa wb; reflexivity|].
  apply result_fixed_stateless.
  { destruct intensity_range as [ir|]; [|apply stateless_ret].
    apply stateless_bind; [apply stateless_check_intensity_range|].
    intros _. apply stateless_ret. }
  intros ir. apply result_fixed_seeded. intros [].
  apply random_only_bind;
    [apply stateless_random_only, stateless_np_full|]. intros image0.
  apply random_only_bind;
    [apply stateless_random_only, stateless_np_full|]. intros filled0.
  apply random_only_bind; [apply random_only_with_random|].
  intros num_shapes.
  apply random_only_bind; [apply random_only_with_random|].
  intros colors.
  apply random_only_bind; [apply random_only_slots|].
  intros st. apply random_only_ret.
Qed.

(** ** The rectangle fitter *)

(** C7.  For the rectangle fitter called with an anchor, a canvas
    extent and a size range, the available width is
    [min (canvas_cols - anchor_col) size_max] and the available height
    is [min (canvas_rows - anchor_row) size_max].  The fit fails, with
    the "cannot fit" arithmetic error and without touching the random
    state, exactly when one of them is below [size_min].  Otherwise the
    height is the first draw and the width the second draw of the random
    state, each a [randint] over [size_min .. available] inclusive, the
    label is [('rectangle', ((row, row + height), (col, col + width)))]
    and the pixels are the polygon of the four corners; every height and
    width of these intervals is produced by some random state. *)
Theorem rectangle_fitter_spec
        (anchor_row anchor_col canvas_rows canvas_cols chans : Z)
        (size_min size_max : Z) (random : RandomState) :
  (_generate_rectangle_mask (anchor_row, anchor_col)
                            (canvas_rows, canvas_cols, chans)
                            (size_min, size_max) random
   = (Raise cannot_fit, random)
   <-> (Z.min (canvas_cols - anchor_col) size_max < size_min \/
        Z.min (canvas_rows - anchor_row) size_max < size_min))
  /\
  (~ (Z.min (canvas_cols - anchor_col) size_max < size_min \/
      Z.min (canvas_rows - anchor_row) size_max < size_min) ->
   exists height width,
     height = size_min + raw_at random 0
                mod (Z.min (canvas_rows - anchor_row) size_max + 1 - size_min) /\
     width = size_min + raw_at random 1
                mod (Z.min (canvas_cols - anchor_col) size_max + 1 - size_min) /\
     size_min <= height <= Z.min (canvas_rows - anchor_row) size_max /\
     size_min <= width <= Z.min (canvas_cols - anchor_col) size_max /\
     _generate_rectangle_mask (anchor_row, anchor_col)
                              (canvas_rows, canvas_cols, chans)
                              (size_min, size_max) random
     = (Ok (draw_polygon
              [anchor_row; anchor_row + height; anchor_row + height; anchor_row]
              [anchor_col; anchor_col; anchor_col + width; anchor_col + width],
            ("rectangle", ((anchor_row, anchor_row + height),
                           (anchor_col, anchor_col + width)))),
        advance 2 random))
  /\
  (forall height width,
     size_min <= height <= Z.min (canvas_rows - anchor_row) size_max ->
     size_min <= width <= Z.min (canvas_cols - anchor_col) size_max ->
     exists random0 indices random1,
       _generate_rectangle_mask (anchor_row, anchor_col)
                                (canvas_rows, canvas_cols, chans)
                                (size_min, size_max) random0
       = (Ok (indices,
              ("rectangle", ((anchor_row, anchor_row + height),
                             (anchor_col, anchor_col + width)))),
          random1)).
Proof.
  set (aw := Z.min (canvas_cols - anchor_col) size_max).
  set (ah := Z.min (canvas_rows - anchor_row) size_max).
  assert (Hrun : forall rs, ~ (aw < size_min \/ ah < size_min) ->
    _generate_rectangle_mask (anchor_row, anchor_col)
      (canvas_rows, canvas_cols, chans) (size_min, size_max) rs
    = (r <- randint size_min (ah + 1) ;;
       c <- randint size_min (aw + 1) ;;
       ret (draw_polygon
              [anchor_row; anchor_row + r; anchor_row + r; anchor_row]
              [anchor_col; anchor_col; anchor_col + c; anchor_col + c],
            ("rectangle", ((anchor_row, anchor_row + r),
                           (anchor_col, anchor_col + c))))) rs).
  { intros rs Hfit. unfold _generate_rectangle_mask. cbn [fst snd].
    fold aw ah.
    destruct (Z.ltb_spec aw size_min); [lia|].
    destruct (Z.ltb_spec ah size_min); [lia|]. reflexivity. }
  split; [|split].
  - split.
    + intros Hfail.
      destruct (Z_lt_le_dec aw size_min) as [?|Hw]; [left; assumption|].
      destruct (Z_lt_le_dec ah size_min) as [?|Hh]; [right; assumption|].
      exfalso. rewrite Hrun in Hfail by lia.
      rewrite (bind_run_Ok _ _ _ _ _ (randint_run size_min (ah + 1) random ltac:(lia))) in Hfail.
      rewrite (bind_run_Ok _ _ _ _ _ (randint_run size_min (aw + 1) _ ltac:(lia))) in Hfail.
      discriminate.
    + intros Hbad. unfold _generate_rectangle_mask. cbn [fst snd].
      fold aw ah.
      destruct (Z.ltb_spec aw size_min); [reflexivity|].
      destruct (Z.ltb_spec ah size_min); [reflexivity|]. lia.
  - intros Hfit.
    assert (size_min <= aw /\ size_min <= ah) as [Hw Hh] by lia.
    eexists _, _. split; [reflexivity|]. split; [reflexivity|].
    pose proof (Z.mod_pos_bound (raw_at random 0) (ah + 1 - size_min) ltac:(lia)).
    pose proof (Z.mod_pos_bound (raw_at random 1) (aw + 1 - size_min) ltac:(lia)).
    split; [lia|]. split; [lia|].
    rewrite Hrun by exact Hfit.
    rewrite (bind_run_Ok _ _ _ _ _ (randint_run size_min (ah + 1) random ltac:(lia))).
    rewrite (bind_run_Ok _ _ _ _ _ (randint_run size_min (aw + 1) _ ltac:(lia))).
    reflexivity.
  - intros height width Hh Hw.
    set (raw := fun i : nat => match i with O => height - size_min
                                        | _ => width - size_min end).
    exists (mkRandomState raw 0). eexists _, _.
    rewrite Hrun by lia.
    rewrite (bind_run_Ok _ _ _ _ _ (randint_run size_min (ah + 1) _ ltac:(lia))).
    rewrite (bind_run_Ok _ _ _ _ _ (randint_run size_min (aw + 1) _ ltac:(lia))).
    unfold ret, raw_at, advance, raw. cbn.
    rewrite !Z.mod_small by lia.
    replace (size_min + (height - size_min)) with height by lia.
    replace (size_min + (width - size_min)) with width by lia.
    reflexivity.
Qed.

(** ** The circle fitter *)







(** ** The triangle fitter and the failures of the circle fitter *)

(** X1.  The triangle fitter rejects a size range with a bound equal to 1
    by a [ValueError], before looking at the anchor.  Otherwise the
    available side is [min(canvas_cols - anchor_col, anchor_row + 1,
    size_max)]; below [size_min] the fit fails with the "cannot fit"
    arithmetic error, and neither failure touches the random state.
    Otherwise the side is one randint draw over
    [size_min .. available_side] inclusive, the triangle has the vertices
    (row, col), (row - height, col + side // 2), (row, col + side), and
    the label is [('triangle', ((row - height, row), (col, col + side)))]. *)
Theorem triangle_fitter_spec
        (anchor_row anchor_col canvas_rows canvas_cols chans : Z)
        (size_min size_max : Z) (random : RandomState) :
  (size_min = 1 \/ size_max = 1 ->
   _generate_triangle_mask (anchor_row, anchor_col)
                           (canvas_rows, canvas_cols, chans)
                           (size_min, size_max) random
   = (Raise (ValueError "dimension must be > 1 for triangles"), random)) /\
  (size_min <> 1 -> size_max <> 1 ->
   Z.min (Z.min (canvas_cols - anchor_col) (anchor_row + 1)) size_max
   < size_min ->
   _generate_triangle_mask (anchor_row, anchor_col)
                           (canvas_rows, canvas_cols, chans)
                           (size_min, size_max) random
   = (Raise cannot_fit, random)) /\
  (size_min <> 1 -> size_max <> 1 ->
   size_min
   <= Z.min (Z.min (canvas_cols - anchor_col) (anchor_row + 1)) size_max ->
   exists side,
     side = size_min
            + raw_at random 0
                mod (Z.min (Z.min (canvas_cols - anchor_col) (anchor_row + 1))
                           size_max + 1 - size_min) /\
     size_min <= side
     <= Z.min (Z.min (canvas_cols - anchor_col) (anchor_row + 1)) size_max /\
     _generate_triangle_mask (anchor_row, anchor_col)
                             (canvas_rows, canvas_cols, chans)
                             (size_min, size_max) random
     = (Ok (draw_polygon
              [anchor_row; anchor_row - triangle_height_of side; anchor_row]
              [anchor_col; anchor_col + side / 2; anchor_col + side],
            ("triangle", ((anchor_row - triangle_height_of side, anchor_row),
                          (anchor_col, anchor_col + side)))),
        advance 1 random)).
Proof.
  set (avail := Z.min (Z.min (canvas_cols - anchor_col) (anchor_row + 1))
                      size_max).
  unfold _generate_triangle_mask. cbn [fst snd]. fold avail.
  split; [|split].
  - intros [-> | ->]; [reflexivity|].
    rewrite Z.eqb_refl, orb_true_r. reflexivity.
  - intros H1 H2 Hlt.
    destruct (Z.eqb_spec size_min 1); [contradiction|].
    destruct (Z.eqb_spec size_max 1); [contradiction|]. cbn [orb].
    destruct (Z.ltb_spec avail size_min); [reflexivity | lia].
  - intros H1 H2 Hle.
    destruct (Z.eqb_spec size_min 1); [contradiction|].
    destruct (Z.eqb_spec size_max 1); [contradiction|]. cbn [orb].
    destruct (Z.ltb_spec avail size_min); [lia|].
    eexists. split; [reflexivity|].
    pose proof (Z.mod_pos_bound (raw_at random 0) (avail + 1 - size_min)
                  ltac:(lia)).
    split; [lia|].
    rewrite (bind_run_Ok _ _ _ _ _
               (randint_run size_min (avail + 1) random ltac:(lia))).
    reflexivity.
Qed.







(** ** Argument checks and degenerate arguments of [random_shapes] *)

Lemma with_random_run {A} (m : R A) w r rs :
  m (w_random w) = (r, rs) ->
  with_random m w = (r, mkWorld rs (w_warnings w) (w_stdout w)).
Proof. unfold with_random. intros ->. reflexivity. Qed.

(** The run once the size check and the allocations have succeeded. *)
Lemma random_shapes_run_steps rows cols max_shapes min_shapes min_size
      max_size multichannel num_channels shape scenario intensity_range
      allow_overlap num_trials random_seed w :
  min_size <= rows -> min_size <= cols ->
  0 <= rows -> 0 <= cols -> 0 <= channels_of multichannel num_channels ->
  random_shapes_run (rows, cols) max_shapes min_shapes min_size max_size
                    multichannel num_channels shape scenario intensity_range
                    allow_overlap num_trials random_seed w
  = (ir <- match intensity_range with
           | None => ret (default_intensity_range
                            (channels_of multichannel num_channels))
           | Some ir =>
               check_intensity_range (channels_of multichannel num_channels)
                                     ir ;;; ret ir
           end ;;
     RandomState_new random_seed ;;;
     num_shapes <- with_random (randint min_shapes (max_shapes + 1)) ;;
     colors <- with_random
                 (_generate_random_colors
                    num_shapes (channels_of multichannel num_channels) ir) ;;
     st <- slots (seq 0 (Z.to_nat num_shapes)) shape scenario num_trials
                 (rows, cols, channels_of multichannel num_channels)
                 (min_size, max_size_of (rows, cols) max_size) allow_overlap
                 colors
                 (initial rows cols (channels_of multichannel num_channels)) ;;
     ret (mkRun (e_image st) (e_filled st) (e_labels st) (e_accepted st)
                num_shapes colors)) w.
Proof.
  intros H1 H2 Hr Hc Hk. unfold random_shapes_run. cbn [fst snd].
  destruct (Z.gtb_spec min_size rows); [lia|].
  destruct (Z.gtb_spec min_size cols); [lia|]. cbn [orb].
  fold (channels_of multichannel num_channels).
  apply bind_ext. intros ir w1. apply bind_ext. intros [] w2.
  unfold np_full.
  destruct (Z.ltb_spec rows 0); [lia|].
  destruct (Z.ltb_spec cols 0); [lia|].
  destruct (Z.ltb_spec (channels_of multichannel num_channels) 0); [lia|].
  reflexivity.
Qed.

(** X4.  When [min_shapes] exceeds [max_shapes] the draw of the shape
    count fails: [random_shapes] raises the "low >= high" [ValueError] of
    [randint], without any warning or output. *)
Theorem empty_shape_count_range
        rows cols max_shapes min_shapes min_size max_size multichannel
        num_channels shape scenario allow_overlap num_trials w :
  min_size <= rows -> min_size <= cols ->
  0 <= rows -> 0 <= cols -> 0 <= channels_of multichannel num_channels ->
  max_shapes < min_shapes ->
  random_shapes (rows, cols) max_shapes min_shapes min_size max_size
                multichannel num_channels shape scenario None
                allow_overlap num_trials None w
  = (Raise (ValueError "low >= high"), w).
Proof.
  intros H1 H2 Hr Hc Hk Hlt. unfold random_shapes. unfold bind at 1.
  rewrite random_shapes_run_steps by assumption.
  unfold bind at 1. unfold ret at 1. unfold bind at 1.
  unfold RandomState_new, ret at 1. unfold bind at 1.
  rewrite (with_random_run _ _ _ _
             (randint_empty min_shapes (max_shapes + 1) (w_random w)
                            ltac:(lia))).
  destruct w. reflexivity.
Qed.

Lemma slots_no_trials user_shape scenario num_trials image_shape shape
      allow_overlap colors :
  Z.to_nat num_trials = 0%nat ->
  forall idxs st w st' w',
    slots idxs user_shape scenario num_trials image_shape shape allow_overlap
          colors st w = (Ok st', w') ->
    e_image st' = e_image st /\ e_filled st' = e_filled st /\
    e_labels st' = e_labels st /\ e_accepted st' = e_accepted st.
Proof.
  intros Hn. induction idxs as [|i idxs IH]; intros st w st' w' Hrun.
  - injection Hrun as <- _. repeat split.
  - cbn [slots] in Hrun. rewrite Hn in Hrun.
    apply bind_Ok_inv in Hrun as (g & w1 & Hg & Hrun).
    apply bind_Ok_inv in Hrun as (st1 & w2 & Htr & Hrun).
    cbn [trials] in Htr. injection Htr as <- _.
    apply IH in Hrun. exact Hrun.
Qed.

(** X5.  With a trial budget [num_trials] of zero or less no anchor is
    ever proposed: a call that returns has no label, its canvas is the
    untouched background, and it emitted the "could not fit" warning once
    for each slot of the drawn shape count. *)
Theorem no_trials_no_shapes
        rows cols max_shapes min_shapes min_size max_size multichannel
        num_channels shape scenario intensity_range allow_overlap num_trials
        random_seed w run w' :
  num_trials <= 0 ->
  random_shapes_run (rows, cols) max_shapes min_shapes min_size max_size
                    multichannel num_channels shape scenario intensity_range
                    allow_overlap num_trials random_seed w
  = (Ok run, w') ->
  run_labels run = [] /\
  run_image run = background rows cols (channels_of multichannel num_channels)
  /\
  w_warnings w'
  = (w_warnings w
       ++ replicate (Z.to_nat (run_num_shapes run)) could_not_fit)%list.
Proof.
  intros Hn Hrun.
  apply random_shapes_run_inv in Hrun
    as (ir & rs0 & rs1 & rs2 & num_shapes & colors & st & Hr & Hc & Hk
        & Hir & Hrs0 & Hnum & Hcol & Hslots & ->).
  cbn [run_labels run_image run_num_shapes].
  assert (Hz : Z.to_nat num_trials = 0%nat) by lia.
  pose proof (slots_no_trials _ _ _ _ _ _ _ Hz _ _ _ _ _ Hslots)
    as (Himg & _ & Hlab & _).
  apply slots_count in Hslots as (k & Hwarn & Hlen).
  rewrite Hlab in Hlen. cbn in Hlen, Hwarn. rewrite length_seq in Hlen.
  split; [exact Hlab|]. split; [exact Himg|].
  rewrite Hwarn. f_equal. f_equal. lia.
Qed.


(** ** The other scenarios *)

Lemma choice_p_elem {A} (a : list A) (p : list Q) random x random' :
  choice_p a p random = (Ok x, random') -> x ∈ a.
Proof.
  unfold choice_p. destruct (negb _); [discriminate|].
  intros Hrun. apply bind_Ok_inv in Hrun as (u & rs1 & _ & Hrun).
  destruct (a !! _) as [y|] eqn:Hy; [|discriminate].
  injection Hrun as <- _. eapply list_elem_of_lookup_2. exact Hy.
Qed.

Lemma choice_elem {A} (a : list A) random x random' :
  choice a random = (Ok x, random') -> x ∈ a.
Proof.
  unfold choice. destruct a as [|a0 a]; [discriminate|].
  intros Hrun. apply bind_Ok_inv in Hrun as (i & rs1 & _ & Hrun).
  destruct (_ !! Z.to_nat i) as [y|] eqn:Hy; [|discriminate].
  injection Hrun as <- _. eapply list_elem_of_lookup_2. exact Hy.
Qed.

(** The fitters a scenario can select. *)
Lemma select_generator_scenario scenario current w g w1 :
  select_generator None scenario current w = (Ok g, w1) ->
  match scenario with
  | SHAPE_GENERATOR_ALL_HALO | SHAPE_GENERATOR_ALL_CORE =>
      exists f, g = Some f /\ f ∈ SHAPE_CHOICES_ALL
  | SHAPE_GENERATOR_R_T => exists f, g = Some f /\ f ∈ SHAPE_CHOICES_R_T
  | SHAPE_GENERATOR_C => exists f, g = Some f /\ f ∈ SHAPE_CHOICES_C
  | OtherScenario _ => g = current
  end.
Proof.
  unfold select_generator. destruct scenario; cbn [Scenario_eqb]; intros H;
    try (apply bind_Ok_inv in H as (f & w2 & Hdraw & Hret);
         apply with_random_inv in Hdraw as (rs & Hdraw & _);
         injection Hret as <- _; exists f; split; [reflexivity|];
         first [eapply choice_p_elem; exact Hdraw
               | eapply choice_elem; exact Hdraw]).
  apply bind_Ok_inv in H as ([] & w2 & _ & Hret).
  injection Hret as <- _. reflexivity.
Qed.

Lemma fitter_categories image_shape shape :
  produces _generate_rectangle_mask image_shape shape
           (fun label => fst label = "rectangle") /\
  produces _generate_triangle_mask image_shape shape
           (fun label => fst label = "triangle") /\
  produces _generate_circle_mask image_shape shape
           (fun label => fst label = "circle").
Proof.
  split; [|split]; intros point rs ind label rs' Hfit.
  - apply rectangle_Ok_inv in Hfit as (h & c & _ & _ & ->). reflexivity.
  - eapply triangle_label. exact Hfit.
  - eapply circle_label. exact Hfit.
Qed.

(** X6.  Without a pinned category the scenario bounds the categories of
    the returned labels: under the circle-only scenario every label is a
    "circle"; under the rectangle-and-triangle scenario every label is a
    "rectangle" or a "triangle", never a circle; under both
    all-categories scenarios every label is one of "rectangle",
    "triangle", "circle". *)
Theorem scenario_bounds_categories
        rows cols max_shapes min_shapes min_size max_size multichannel
        num_channels scenario intensity_range allow_overlap num_trials
        random_seed w image labels w' :
  random_shapes (rows, cols) max_shapes min_shapes min_size max_size
                multichannel num_channels None scenario intensity_range
                allow_overlap num_trials random_seed w
  = (Ok (image, labels), w') ->
  (scenario = SHAPE_GENERATOR_C ->
   Forall (fun label => fst label = "circle") labels) /\
  (scenario = SHAPE_GENERATOR_R_T ->
   Forall (fun label => fst label = "rectangle" \/ fst label = "triangle")
          labels) /\
  Forall (fun label => fst label = "rectangle" \/ fst label = "triangle" \/
                       fst label = "circle") labels.
Proof.
  intros Hrun.
  apply random_shapes_Ok_inv in Hrun as (run & Hrun & -> & _).
  apply random_shapes_run_inv in Hrun
    as (ir & rs0 & rs1 & rs2 & num_shapes & colors & st & Hr & Hc & Hk
        & Hir & Hrs0 & Hnum & Hcol & Hslots & ->).
  cbn [run_labels].
  set (image_shape := (rows, cols, channels_of multichannel num_channels))
    in *.
  set (shape := (min_size, max_size_of (rows, cols) max_size)) in *.
  destruct (fitter_categories image_shape shape) as (Hrect & Htri & Hcirc).
  split; [|split].
  - intros ->.
    eapply (slots_labels (fun label => fst label = "circle"));
      [|exact Hslots|discriminate|constructor].
    intros current w0 g w1 _ Hsel f ->.
    apply select_generator_scenario in Hsel as (f0 & [= <-] & Hin).
    apply list_elem_of_singleton in Hin as ->. exact Hcirc.
  - intros ->.
    eapply (slots_labels
              (fun label => fst label = "rectangle" \/ fst label = "triangle"));
      [|exact Hslots|discriminate|constructor].
    intros current w0 g w1 _ Hsel f ->.
    apply select_generator_scenario in Hsel as (f0 & [= <-] & Hin).
    apply elem_of_cons in Hin as [->|Hin].
    + intros point rs ind label rs' Hfit. left. eapply Hrect. exact Hfit.
    + apply list_elem_of_singleton in Hin as ->.
      intros point rs ind label rs' Hfit. right. eapply Htri. exact Hfit.
  - eapply (slots_labels
              (fun label => fst label = "rectangle" \/
                            fst label = "triangle" \/ fst label = "circle"));
      [|exact Hslots|discriminate|constructor].
    intros current w0 g w1 Hcur Hsel f ->.
    apply select_generator_scenario in Hsel.
    assert (Hall : forall f0, f0 ∈ SHAPE_CHOICES_ALL ->
              produces f0 image_shape shape
                (fun label => fst label = "rectangle" \/
                              fst label = "triangle" \/ fst label = "circle")).
    { intros f0 Hin point rs ind label rs' Hfit.
      apply elem_of_cons in Hin as [->|Hin];
        [left; eapply Hrect; exact Hfit|].
      apply elem_of_cons in Hin as [->|Hin];
        [right; left; eapply Htri; exact Hfit|].
      apply list_elem_of_singleton in Hin as ->.
      right; right. eapply Hcirc. exact Hfit. }
    destruct scenario.
    + destruct Hsel as (f0 & Heq & Hin); injection Heq as <-. apply Hall, Hin.
    + destruct Hsel as (f0 & Heq & Hin); injection Heq as <-. apply Hall, Hin.
    + destruct Hsel as (f0 & Heq & Hin); injection Heq as <-. apply Hall.
      apply elem_of_cons in Hin as [->|Hin]; [left|].
      apply list_elem_of_singleton in Hin as ->. right. left.
    + destruct Hsel as (f0 & Heq & Hin); injection Heq as <-. apply Hall.
      apply list_elem_of_singleton in Hin as ->. right. right. left.
    + subst current. apply Hcur. reflexivity.
Qed.

Lemma choice_p_core {A} (a b c : A) (random : RandomState) :
  choice_p [a; b; c] [1 # 10; 1 # 10; 8 # 10]%Q random
  = (Ok (if Qlt_bool ((raw_at random 0 mod 2 ^ 53) # 2 ^ 53) (1 # 10) then a
         else if Qlt_bool ((raw_at random 0 mod 2 ^ 53) # 2 ^ 53) (2 # 10)
              then b else c),
     advance 1 random).
Proof.
  unfold choice_p. cbn [length Nat.eqb negb].
  unfold bind at 1. unfold random_sample, bind, next_raw, ret.
  unfold raw_at, advance. cbn [Nat.add].
  set (k := rs_raw random (rs_pos random) mod 2 ^ 53).
  assert (Hk : 0 <= k < 9007199254740992).
  { subst k. apply (Z.mod_pos_bound _ (2 ^ 53)). reflexivity. }
  set (cdf := map _ _). vm_compute in cdf. subst cdf.
  cbn [searchsorted_right]. unfold Qlt_bool, Qle_bool. cbn [Qnum Qden].
  change (Z.pos (2 ^ 53)) with 9007199254740992.
  change (Z.pos 10) with 10.
  repeat match goal with
         | |- context [Z.leb ?x ?y] => destruct (Z.leb_spec x y)
         end; cbn [negb]; try reflexivity; lia.
Qed.

(** X7.  Under the second all-categories scenario the selector makes one
    weighted draw over the registry order rectangle, triangle, circle with
    the weights 0.1, 0.1, 0.8: a uniform sample below 0.1 selects the
    rectangle fitter, a sample from 0.1 to below 0.2 the triangle fitter,
    and a sample from 0.2 the circle fitter. *)
Theorem core_scenario_weights current w :
  select_generator None SHAPE_GENERATOR_ALL_CORE current w
  = (Ok (Some
           (if Qlt_bool ((raw_at (w_random w) 0 mod 2 ^ 53) # 2 ^ 53)
                        (1 # 10)
            then _generate_rectangle_mask
            else if Qlt_bool ((raw_at (w_random w) 0 mod 2 ^ 53) # 2 ^ 53)
                             (2 # 10)
                 then _generate_triangle_mask
                 else _generate_circle_mask)),
     mkWorld (advance 1 (w_random w)) (w_warnings w) (w_stdout w)).
Proof.
  unfold select_generator. cbn [Scenario_eqb].
  unfold bind, with_random.
  change SHAPE_CHOICES_ALL
    with [_generate_rectangle_mask; _generate_triangle_mask;
          _generate_circle_mask].
  rewrite choice_p_core. reflexivity.
Qed.


(** ** Bounding boxes *)




Lemma select_generator_known user_shape scenario current w g w1 :
  known_generator current ->
  select_generator user_shape scenario current w = (Ok g, w1) ->
  known_generator g.
Proof.
  intros Hcur Hsel f ->. destruct user_shape as [name|].
  - rewrite select_generator_pinned in Hsel.
    apply bind_Ok_inv in Hsel as (f0 & w2 & Hget & Hret).
    injection Hret as <- _.
    apply dict_get_SHAPE_GENERATORS in Hget
      as [_ [[_ ->]|[[_ ->]|[_ ->]]]]; tauto.
  - apply select_generator_scenario in Hsel.
    assert (Hall : forall f0, f0 ∈ SHAPE_CHOICES_ALL ->
              f0 = _generate_rectangle_mask \/
              f0 = _generate_triangle_mask \/ f0 = _generate_circle_mask).
    { intros f0 Hin.
      apply elem_of_cons in Hin as [->|Hin]; [tauto|].
      apply elem_of_cons in Hin as [->|Hin]; [tauto|].
      apply list_elem_of_singleton in Hin as ->. tauto. }
    destruct scenario.
    + destruct Hsel as (f0 & Heq & Hin); injection Heq as <-. apply Hall, Hin.
    + destruct Hsel as (f0 & Heq & Hin); injection Heq as <-. apply Hall, Hin.
    + destruct Hsel as (f0 & Heq & Hin); injection Heq as <-.
      apply elem_of_cons in Hin as [->|Hin]; [tauto|].
      apply list_elem_of_singleton in Hin as ->. tauto.
    + destruct Hsel as (f0 & Heq & Hin); injection Heq as <-.
      apply list_elem_of_singleton in Hin as ->. tauto.
    + subst current. apply Hcur. reflexivity.
Qed.



(** ** Composition of the slot loop *)

Lemma bind_assoc {S A B C} (m : SE S A) (k : A -> SE S B) (h : B -> SE S C)
      w :
  bind (bind m k) h w = bind m (fun a => bind (k a) h) w.
Proof.
  unfold bind. destruct (m w) as [[a|e] w1]; reflexivity.
Qed.

Lemma slots_app user_shape scenario num_trials image_shape shape
      allow_overlap colors idxs1 idxs2 :
  forall st w,
    slots (idxs1 ++ idxs2) user_shape scenario num_trials image_shape shape
          allow_overlap colors st w
    = (st1 <- slots idxs1 user_shape scenario num_trials image_shape shape
                    allow_overlap colors st ;;
       slots idxs2 user_shape scenario num_trials image_shape shape
             allow_overlap colors st1) w.
Proof.
  induction idxs1 as [|i idxs1 IH]; intros st w; [reflexivity|].
  cbn [app slots]. rewrite bind_assoc.
  apply bind_ext. intros g w1. rewrite bind_assoc.
  apply bind_ext. intros st1 w2. apply IH.
Qed.

(** X9.  The slot loop composes and only appends.  Running the slots of
    [idxs1 ++ idxs2] is running those of [idxs1] and then those of
    [idxs2] from the state reached.  The labels and the accepted pixel
    sets present before a stretch of slots are still there afterwards, in
    the same order and at the front: labels are neither removed nor
    reordered, an accepted shape is never revisited. *)
Theorem slots_append_only user_shape scenario num_trials image_shape shape
        allow_overlap colors :
  (forall idxs1 idxs2 st w,
      slots (idxs1 ++ idxs2) user_shape scenario num_trials image_shape shape
            allow_overlap colors st w
      = (st1 <- slots idxs1 user_shape scenario num_trials image_shape shape
                      allow_overlap colors st ;;
         slots idxs2 user_shape scenario num_trials image_shape shape
               allow_overlap colors st1) w) /\
  (forall idxs st w st' w',
      slots idxs user_shape scenario num_trials image_shape shape
            allow_overlap colors st w = (Ok st', w') ->
      exists new_labels new_sets,
        e_labels st' = (e_labels st ++ new_labels)%list /\
        e_accepted st' = (e_accepted st ++ new_sets)%list /\
        length new_labels = length new_sets /\
        (length new_labels <= length idxs)%nat).
Proof.
  split; [intros; apply slots_app|].
  induction idxs as [|i idxs IH]; intros st w st' w' Hrun.
  - injection Hrun as <- _. exists [], []. rewrite !app_nil_r.
    repeat split. cbn. lia.
  - cbn [slots] in Hrun.
    apply bind_Ok_inv in Hrun as (g & w1 & Hg & Hrun).
    apply bind_Ok_inv in Hrun as (st1 & w2 & Htr & Hrun).
    apply IH in Hrun as (nl & ns & Hl & Ha & Hlen & Hle).
    apply trials_cases in Htr as [_ [[-> _]|[(color & _ & Hc) _]]].
    + exists nl, ns. cbn in *. repeat split; try assumption. lia.
    + destruct Hc as (f & row & col & rs & rs' & ind & label & ci & cf & px
                      & _ & _ & _ & _ & _ & _ & _ & _ & ->).
      cbn [e_labels e_accepted rebind] in *.
      exists (label :: nl), (ind :: ns).
      rewrite Hl, Ha, <- !app_assoc. cbn. repeat split; lia.
Qed.

(** ** Pixels that are never repainted *)

Lemma committed_keeps_claimed image_shape shape color st st' rc :
  committed image_shape shape false color st st' ->
  (0 < Z.to_nat (snd image_shape))%nat ->
  placement_inv (Z.to_nat (snd image_shape)) st ->
  claimed (e_filled st) (e_accepted st) rc ->
  pixel (e_image st') rc = pixel (e_image st) rc /\
  claimed (e_filled st') (e_accepted st') rc.
Proof.
  intros Hc Hpos Hinv Hcl.
  pose proof Hc as (f & row & col & rs & rs' & indices & label & ci & cf
                    & px & _ & _ & _ & _ & Hci & _ & Hcf & Hfree & ->).
  destruct Hinv as [Hdims Hvalid Hmask Hlabels].
  set (chans := Z.to_nat (snd image_shape)) in *.
  rewrite (cells_of_ext _ (e_filled st) indices Hdims), Hcf in Hci.
  injection Hci as <-. cbn [e_image e_filled e_accepted]. split.
  - rewrite pixel_foldl.
    destruct (decide (rc ∈ cf)) as [Hin|Hnin]; [exfalso | reflexivity].
    destruct Hcl as (ind & Hind & p & Hp & Hcell).
    destruct (cell_of_pixel _ _ _ Hcell) as [px0 Hpx0].
    destruct (Hmask rc px0 Hpx0) as [[_ ->]|[Hncl _]].
    + assert (Hb : true = false); [|discriminate].
      eapply (np_any_false _ (replicate chans true) true (Hfree eq_refl)).
      * apply list_elem_of_omap. exists rc. split; assumption.
      * apply elem_of_replicate. split; [reflexivity | lia].
    + apply Hncl. exists ind. split; [exact Hind|].
      exists p. split; assumption.
  - apply (claimed_ext _ (e_filled st)); [apply row_lengths_foldl|].
    apply claimed_snoc. left. exact Hcl.
Qed.

Lemma slots_keeps_claimed idxs user_shape scenario num_trials image_shape
      shape colors st w st' w' rc :
  (0 < Z.to_nat (snd image_shape))%nat ->
  placement_inv (Z.to_nat (snd image_shape)) st ->
  claimed (e_filled st) (e_accepted st) rc ->
  slots idxs user_shape scenario num_trials image_shape shape false colors
        st w = (Ok st', w') ->
  pixel (e_image st') rc = pixel (e_image st) rc /\
  claimed (e_filled st') (e_accepted st') rc.
Proof.
  intros Hpos Hinv Hcl Hrun.
  refine (proj2 (slots_ind
    (fun s => placement_inv (Z.to_nat (snd image_shape)) s /\
              (pixel (e_image s) rc = pixel (e_image st) rc /\
               claimed (e_filled s) (e_accepted s) rc))
    _ _ _ _ _ _ _ _ _ _ _ _ _ _ (conj Hinv (conj eq_refl Hcl)) Hrun)).
  - intros st0 g w0 w1 [H1 H2] _. split; [apply rebind_inv, H1 | exact H2].
  - intros st0 st1 color [H1 [H2 H3]] _ Hc. split.
    + eapply committed_inv; eassumption.
    + destruct (committed_keeps_claimed _ _ _ _ _ rc Hc Hpos H1 H3)
        as [Hpx Hcl'].
      split; [rewrite Hpx; exact H2 | exact Hcl'].
Qed.

(** X10.  With [allow_overlap = False], on a canvas with at least one
    channel, a pixel claimed by an accepted shape is never written again:
    whatever slots are processed after the ones that claimed it, it keeps
    its value and stays claimed. *)
Theorem claimed_pixels_never_repainted
        rows cols chans idxs1 idxs2 user_shape scenario num_trials shape
        colors w st1 w1 st2 w2 rc :
  0 < chans ->
  slots idxs1 user_shape scenario num_trials (rows, cols, chans) shape false
        colors (initial rows cols chans) w = (Ok st1, w1) ->
  slots idxs2 user_shape scenario num_trials (rows, cols, chans) shape false
        colors st1 w1 = (Ok st2, w2) ->
  claimed (e_filled st1) (e_accepted st1) rc ->
  pixel (e_image st2) rc = pixel (e_image st1) rc /\
  claimed (e_filled st2) (e_accepted st2) rc.
Proof.
  intros Hpos Hrun1 Hrun2 Hcl.
  eapply slots_keeps_claimed; [| |exact Hcl|exact Hrun2].
  - cbn [snd]. lia.
  - eapply slots_placement_inv; [exact Hrun1 | apply initial_inv].
Qed.

(** ** The order of the colour draws *)

Lemma randint_draws_run low high n :
  low < high ->
  forall rs,
    randint_draws low high n rs
    = (Ok (map (fun i => low + raw_at rs i mod (high - low)) (seq 0 n)),
       advance n rs).
Proof.
  intros Hlt. induction n as [|n IH]; intros rs.
  - destruct rs. reflexivity.
  - cbn [randint_draws].
    rewrite (bind_run_Ok _ _ _ _ _ (randint_run low high rs Hlt)).
    rewrite (bind_run_Ok _ _ _ _ _ (IH (advance 1 rs))).
    unfold ret. f_equal.
    + f_equal. cbn [seq map]. f_equal.
      rewrite <- seq_shift, map_map. apply map_ext. intros i.
      unfold raw_at, advance. cbn. do 3 f_equal. lia.
    + unfold advance. cbn. f_equal. lia.
Qed.

Lemma nth_map_seq {A} (f : nat -> A) (n i : nat) (d : A) :
  (i < n)%nat -> nth i (map f (seq 0 n)) d = f i.
Proof.
  intros Hi. rewrite (nth_indep _ d (f 0%nat))
    by (rewrite length_map, length_seq; exact Hi).
  rewrite map_nth, seq_nth by exact Hi. reflexivity.
Qed.

Lemma sample_columns n ranges :
  (0 < n)%nat ->
  (forall r, r ∈ ranges -> fst r <= snd r) ->
  forall rs,
  exists cols,
    mapM (fun r => randint_size (fst r) (snd r + 1) (Z.of_nat n)) ranges rs
    = (Ok cols, advance (length ranges * n) rs) /\
    length cols = length ranges /\
    forall j r,
      ranges !! j = Some r ->
      cols !! j
      = Some (map (fun i => fst r + raw_at rs (j * n + i)
                                     mod (snd r + 1 - fst r)) (seq 0 n)).
Proof.
  intros Hn. induction ranges as [|r0 ranges IH]; intros Hr rs.
  - exists []. split; [destruct rs; reflexivity|].
    split; [reflexivity|]. intros j r Hj. discriminate.
  - destruct (IH (fun r H => Hr r (list_elem_of_further _ _ _ H))
                 (advance n rs)) as (cols & Hrun & Hlen & Hcols).
    eexists. cbn [mapM]. split; [|split].
    + assert (Hdraw : randint_size (fst r0) (snd r0 + 1) (Z.of_nat n) rs
                      = (Ok (map (fun i => fst r0 + raw_at rs i
                                                mod (snd r0 + 1 - fst r0))
                                 (seq 0 n)), advance n rs)).
      { unfold randint_size.
        destruct (Z.ltb_spec (Z.of_nat n) 0); [lia|].
        destruct (Z.eqb_spec (Z.of_nat n) 0); [lia|].
        rewrite Nat2Z.id. apply randint_draws_run.
        specialize (Hr r0 (list_elem_of_here _ _)). lia. }
      rewrite (bind_run_Ok _ _ _ _ _ Hdraw).
      rewrite (bind_run_Ok _ _ _ _ _ Hrun).
      unfold ret. f_equal. unfold advance. cbn. f_equal. lia.
    + cbn. rewrite Hlen. reflexivity.
    + intros [|j] r Hj.
      * injection Hj as <-. reflexivity.
      * cbn in Hj. transitivity (cols !! j); [reflexivity|].
        rewrite (Hcols j r Hj).
        f_equal. apply map_ext. intros i. unfold raw_at, advance. cbn.
        do 3 f_equal. lia.
Qed.

(** X11.  The colour sampler draws channel by channel.  When the channel
    ranges are not empty intervals and [num_colors] is positive, sampling
    succeeds, consumes [num_colors] draws per channel, and returns
    [num_colors] rows with one entry per channel: the entry of channel [j]
    in row [i] is the randint over [low_j .. high_j] made from draw number
    [j * num_colors + i]. *)
Theorem colors_are_drawn_channel_major
        (num_colors num_channels : Z) intensity_range ranges
        (random : RandomState) :
  0 < num_colors ->
  channel_ranges num_channels intensity_range random = (Ok ranges, random) ->
  (forall r, r ∈ ranges -> fst r <= snd r) ->
  exists colors,
    _generate_random_colors num_colors num_channels intensity_range random
    = (Ok colors, advance (length ranges * Z.to_nat num_colors) random) /\
    (ranges <> [] -> length colors = Z.to_nat num_colors) /\
    forall i j r,
      (i < Z.to_nat num_colors)%nat -> ranges !! j = Some r ->
      exists row,
        colors !! i = Some row /\ length row = length ranges /\
        fst r <= fst r + raw_at random (j * Z.to_nat num_colors + i)
                           mod (snd r + 1 - fst r) <= snd r /\
        row !! j
        = Some (fst r + raw_at random (j * Z.to_nat num_colors + i)
                          mod (snd r + 1 - fst r)).
Proof.
  intros Hn Hranges Hvalid.
  destruct (sample_columns (Z.to_nat num_colors) ranges ltac:(lia) Hvalid
                           random) as (cols & Hrun & Hlen & Hcols).
  rewrite Z2Nat.id in Hrun by lia.
  exists (np_transpose cols). split; [|split].
  - unfold _generate_random_colors.
    rewrite (bind_run_Ok _ _ _ _ _ Hranges).
    rewrite (bind_run_Ok _ _ _ _ _ Hrun). reflexivity.
  - intros Hne. destruct ranges as [|r0 ranges]; [contradiction|].
    destruct cols as [|c cols]; [discriminate|].
    specialize (Hcols 0%nat r0 eq_refl). injection Hcols as ->.
    unfold np_transpose.
    repeat first [rewrite length_map | rewrite length_seq]. reflexivity.
  - intros i j r Hi Hj.
    assert (Hne : exists c cs, cols = c :: cs /\ length c = Z.to_nat num_colors).
    { destruct ranges as [|r0 ranges]; [discriminate|].
      destruct cols as [|c cols]; [discriminate|].
      specialize (Hcols 0%nat r0 eq_refl). injection Hcols as ->.
      eexists _, _. split; [reflexivity|].
      rewrite length_map, length_seq. reflexivity. }
    destruct Hne as (c & cs & Hcs & Hc).
    exists (map (fun col => nth i col 0) cols).
    split; [|split; [|split]].
    + unfold np_transpose. rewrite Hcs, <- Hcs, Hc.
      change (map ?f ?l) with (f <$> l) at 1.
      rewrite list_lookup_fmap, lookup_seq_lt by exact Hi. reflexivity.
    + rewrite length_map. exact Hlen.
    + pose proof (Z.mod_pos_bound
                    (raw_at random (j * Z.to_nat num_colors + i))
                    (snd r + 1 - fst r)) as Hb.
      assert (r ∈ ranges) by (eapply list_elem_of_lookup_2; exact Hj).
      specialize (Hvalid r ltac:(assumption)). lia.
    + change (map ?f ?l) with (f <$> l) at 1.
      rewrite list_lookup_fmap, (Hcols j r Hj). cbn [fmap option_fmap option_map].
      f_equal.
      rewrite nth_map_seq by exact Hi. reflexivity.
Qed.


(** ** The intensity check *)

Lemma check_intensity_run intensity (w : World) :
  check_intensity intensity w
  = (if (0 <=? intensity) && (intensity <=? 255) then Ok tt
     else Raise intensity_error, w).
Proof.
  unfold check_intensity. destruct (_ && _); reflexivity.
Qed.

Lemma bind_check_intensity {B} intensity (k : unit -> M B) (w : World) :
  bind (check_intensity intensity) k w
  = if (0 <=? intensity) && (intensity <=? 255) then k tt w
    else (Raise intensity_error, w).
Proof.
  unfold bind. rewrite check_intensity_run. destruct (_ && _); reflexivity.
Qed.

Lemma check_pairs_run (ranges : list (Z * Z)) (w : World) :
  (Forall (fun x => 0 <= x <= 255) (flat_map (fun r => [fst r; snd r]) ranges)
   /\ exists units,
       mapM (fun r => check_intensity (fst r) ;;; check_intensity (snd r))
            ranges w = (Ok units, w)) \/
  (Exists (fun x => ~ 0 <= x <= 255) (flat_map (fun r => [fst r; snd r]) ranges)
   /\ mapM (fun r => check_intensity (fst r) ;;; check_intensity (snd r))
           ranges w = (Raise intensity_error, w)).
Proof.
  induction ranges as [|r ranges IH].
  - left. split; [constructor|]. exists []. reflexivity.
  - cbn [mapM flat_map app]. rewrite bind_assoc, bind_check_intensity.
    destruct (Z.leb_spec 0 (fst r)), (Z.leb_spec (fst r) 255); cbn [andb];
      try (right; split; [apply Exists_cons_hd; lia | reflexivity]).
    rewrite bind_check_intensity.
    destruct (Z.leb_spec 0 (snd r)), (Z.leb_spec (snd r) 255); cbn [andb];
      try (right; split; [apply Exists_cons_tl, Exists_cons_hd; lia
                         | reflexivity]).
    destruct IH as [[Hall [units Hrun]]|[Hex Hrun]].
    + left. split; [repeat constructor; try lia; exact Hall|].
      exists (tt :: units). rewrite (bind_run_Ok _ _ _ _ _ Hrun).
      reflexivity.
    + right. split; [apply Exists_cons_tl, Exists_cons_tl, Hex|].
      rewrite (bind_run_Raise _ _ _ _ _ Hrun). reflexivity.
Qed.

Lemma check_intensity_range_run num_channels intensity_range (w : World) :
  well_formed_range num_channels intensity_range ->
  (Forall (fun x => 0 <= x <= 255) (bounds_of intensity_range) /\
   check_intensity_range num_channels intensity_range w = (Ok tt, w)) \/
  (Exists (fun x => ~ 0 <= x <= 255) (bounds_of intensity_range) /\
   check_intensity_range num_channels intensity_range w
   = (Raise intensity_error, w)).
Proof.
  unfold well_formed_range, check_intensity_range, bounds_of.
  destruct intensity_range as [low high|ranges].
  - intros ->. cbn [Z.eqb Pos.eqb]. rewrite bind_check_intensity.
    destruct (Z.leb_spec 0 low), (Z.leb_spec low 255); cbn [andb];
      try (right; split; [apply Exists_cons_hd; lia | reflexivity]).
    rewrite check_intensity_run.
    destruct (Z.leb_spec 0 high), (Z.leb_spec high 255); cbn [andb];
      try (right; split; [apply Exists_cons_tl, Exists_cons_hd; lia
                         | reflexivity]).
    left. split; [repeat constructor; lia | reflexivity].
  - intros Hne. destruct (Z.eqb_spec num_channels 1); [contradiction|].
    destruct (check_pairs_run ranges w) as [[Hall [units Hrun]]|[Hex Hrun]].
    + left. split; [exact Hall|]. rewrite (bind_run_Ok _ _ _ _ _ Hrun).
      reflexivity.
    + right. split; [exact Hex|]. rewrite (bind_run_Raise _ _ _ _ _ Hrun).
      reflexivity.
Qed.

(** X12.  For an [intensity_range] of the form that fits the channel
    count (one pair for a single channel, a tuple of pairs otherwise) and
    a [min_size] that passes its check: when some bound lies outside
    0..255, [random_shapes] raises the "Intensity range" [ValueError]
    before it seeds a generator, draws, warns or prints; and every call
    that returns had all its bounds within 0..255. *)
Theorem intensity_range_check
        rows cols max_shapes min_shapes min_size max_size multichannel
        num_channels shape scenario intensity_range allow_overlap num_trials
        random_seed w :
  min_size <= rows -> min_size <= cols ->
  well_formed_range (channels_of multichannel num_channels) intensity_range ->
  (Exists (fun x => ~ 0 <= x <= 255) (bounds_of intensity_range) ->
   random_shapes (rows, cols) max_shapes min_shapes min_size max_size
                 multichannel num_channels shape scenario
                 (Some intensity_range) allow_overlap num_trials random_seed
                 w
   = (Raise intensity_error, w)) /\
  (forall image labels w',
      random_shapes (rows, cols) max_shapes min_shapes min_size max_size
                    multichannel num_channels shape scenario
                    (Some intensity_range) allow_overlap num_trials
                    random_seed w
      = (Ok (image, labels), w') ->
      Forall (fun x => 0 <= x <= 255) (bounds_of intensity_range)).
Proof.
  intros H1 H2 Hwf.
  assert (Hhead : forall r w1,
    check_intensity_range (channels_of multichannel num_channels)
                          intensity_range w = (Raise r, w1) ->
    random_shapes (rows, cols) max_shapes min_shapes min_size max_size
                  multichannel num_channels shape scenario
                  (Some intensity_range) allow_overlap num_trials random_seed
                  w = (Raise r, w1)).
  { intros r w1 Hchk. unfold random_shapes, random_shapes_run.
    cbn [fst snd].
    destruct (Z.gtb_spec min_size rows); [lia|].
    destruct (Z.gtb_spec min_size cols); [lia|]. cbn [orb].
    fold (channels_of multichannel num_channels).
    rewrite !bind_assoc. rewrite (bind_run_Raise _ _ _ _ _ Hchk).
    reflexivity. }
  destruct (check_intensity_range_run _ _ w Hwf) as [[Hall Hrun]|[Hex Hrun]].
  - split.
    + intros Hbad. exfalso. apply Exists_exists in Hbad as (x & Hx & Hbad).
      apply Hbad. rewrite Forall_forall in Hall. apply Hall, Hx.
    + intros. exact Hall.
  - split.
    + intros _. apply Hhead. exact Hrun.
    + intros image labels w' Hok. rewrite (Hhead _ _ Hrun) in Hok.
      discriminate.
Qed.


(** ** Colours as stored *)

Lemma as_uint8_id (color : list Z) :
  (forall v, v ∈ color -> 0 <= v <= 255) -> as_uint8 color = color.
Proof.
  intros Hc. unfold as_uint8. induction color as [|c color IH];
    [reflexivity|].
  cbn [map]. rewrite Z.mod_small by (specialize (Hc c (list_elem_of_here _ _)); lia).
  f_equal. apply IH. intros v Hv. apply Hc. right. exact Hv.
Qed.

Lemma committed_palette image_shape shape allow_overlap colors color st st' :
  color ∈ colors ->
  (forall v, v ∈ color -> 0 <= v <= 255) ->
  committed image_shape shape allow_overlap color st st' ->
  placement_inv (Z.to_nat (snd image_shape)) st ->
  claimed_from_palette (Z.to_nat (snd image_shape)) colors st ->
  claimed_from_palette (Z.to_nat (snd image_shape)) colors st'.
Proof.
  intros Hin Hbyte
         (f & row & col & rs & rs' & indices & label & ci & cf & px
          & _ & _ & _ & _ & Hci & Hpx & Hcf & _ & ->)
         [Hdims _ _ _] Hpal.
  set (chans := Z.to_nat (snd image_shape)) in *.
  rewrite (cells_of_ext _ (e_filled st) indices Hdims), Hcf in Hci.
  injection Hci as <-. rewrite (as_uint8_id _ Hbyte) in Hpx.
  intros rc px0 Hclaim Hpx0. cbn [e_image e_filled e_accepted] in *.
  rewrite pixel_foldl in Hpx0.
  apply (claimed_ext _ (e_filled st)) in Hclaim;
    [|apply row_lengths_foldl].
  apply claimed_snoc in Hclaim.
  rewrite <- (designates_cells _ _ _ rc Hcf) in Hclaim.
  destruct (decide (rc ∈ cf)) as [Hrc|Hrc].
  - destruct (pixel (e_image st) rc); [|discriminate].
    injection Hpx0 as <-. exists color. split; assumption.
  - destruct Hclaim as [Hclaim|?]; [|contradiction].
    eapply Hpal; eassumption.
Qed.

Lemma stateless_channel_ranges {S} num_channels intensity_range :
  stateless (@channel_ranges S num_channels intensity_range).
Proof.
  unfold channel_ranges.
  destruct (num_channels =? 1);
    destruct intensity_range as [low high|[|r0 [|r1 rs]]];
    first [apply stateless_ret | apply stateless_raise].
Qed.

Lemma random_shapes_run_inv_range rows cols max_shapes min_shapes min_size
      max_size multichannel num_channels shape scenario intensity_range
      allow_overlap num_trials random_seed w run w' :
  random_shapes_run (rows, cols) max_shapes min_shapes min_size max_size
                    multichannel num_channels shape scenario intensity_range
                    allow_overlap num_trials random_seed w
  = (Ok run, w') ->
  exists ir random1 random2,
    match intensity_range with
    | Some ir0 =>
        ir = ir0 /\
        check_intensity_range (channels_of multichannel num_channels) ir0 w
        = (Ok tt, w)
    | None => ir = default_intensity_range
                     (channels_of multichannel num_channels)
    end /\
    _generate_random_colors (run_num_shapes run)
                            (channels_of multichannel num_channels) ir random1
    = (Ok (run_colors run), random2).
Proof.
  unfold random_shapes_run. cbn [fst snd].
  destruct (_ || _); [discriminate|].
  fold (channels_of multichannel num_channels).
  intros Hrun.
  apply bind_Ok_inv in Hrun as (ir & w1 & Hir & Hrun).
  apply bind_Ok_inv in Hrun as ([] & w2 & _ & Hrun).
  apply bind_Ok_inv in Hrun as (image0 & w3 & _ & Hrun).
  apply bind_Ok_inv in Hrun as (filled0 & w4 & _ & Hrun).
  apply bind_Ok_inv in Hrun as (num_shapes & w5 & _ & Hrun).
  apply bind_Ok_inv in Hrun as (colors & w6 & Hcol & Hrun).
  apply with_random_inv in Hcol as (random2 & Hcol & _).
  apply bind_Ok_inv in Hrun as (st & w7 & _ & Hrun).
  injection Hrun as <- _. cbn [run_num_shapes run_colors].
  exists ir, (w_random w5), random2. split; [|exact Hcol].
  destruct intensity_range as [ir0|].
  - apply bind_Ok_inv in Hir as ([] & wa & Hchk & Hret).
    pose proof (check_intensity_range_state _ _ _ _ _ Hchk) as ->.
    injection Hret as <- _. split; [reflexivity | exact Hchk].
  - injection Hir as <- _. reflexivity.
Qed.

Lemma channel_ranges_checked num_channels intensity_range (w : World)
      ranges (random random' : RandomState) :
  check_intensity_range num_channels intensity_range w = (Ok tt, w) ->
  channel_ranges num_channels intensity_range random = (Ok ranges, random') ->
  forall r, r ∈ ranges -> 0 <= fst r <= 255 /\ 0 <= snd r <= 255.
Proof.
  intros Hchk Hranges.
  assert (Hwf : well_formed_range num_channels intensity_range).
  { unfold well_formed_range, check_intensity_range, channel_ranges in *.
    destruct (Z.eqb_spec num_channels 1);
      destruct intensity_range as [low high|[|r0 rs]];
      try assumption; try discriminate. }
  destruct (check_intensity_range_run _ _ w Hwf) as [[Hall _]|[_ Hbad]];
    [|congruence].
  rewrite Forall_forall in Hall. unfold bounds_of, channel_ranges in *.
  assert (Hpairs : forall (rs : list (Z * Z)) r,
             (forall x, x ∈ flat_map (fun r => [fst r; snd r]) rs ->
                        0 <= x <= 255) ->
             r ∈ rs -> 0 <= fst r <= 255 /\ 0 <= snd r <= 255).
  { intros rs r Hb Hr. split; apply Hb; apply list_elem_of_In, in_flat_map;
      exists r; (split; [apply list_elem_of_In, Hr|]); cbn; tauto. }
  destruct (num_channels =? 1).
  - destruct intensity_range as [low high|[|r0 [|r1 rs]]]; try discriminate.
    injection Hranges as <- _. intros r Hr.
    apply list_elem_of_singleton in Hr as ->. cbn [fst snd].
    split; apply Hall; [left | right; left].
  - destruct intensity_range as [low high|[|r0 [|r1 rs]]]; try discriminate;
      injection Hranges as <- _; intros r Hr.
    + inversion Hr.
    + apply elem_of_replicate_inv in Hr as ->.
      apply (Hpairs [r0]); [exact Hall | left].
    + apply (Hpairs (r0 :: r1 :: rs)); [exact Hall | exact Hr].
Qed.

Lemma colors_within_ranges num_colors num_channels intensity_range rs colors
      rs' :
  _generate_random_colors num_colors num_channels intensity_range rs
  = (Ok colors, rs') ->
  exists ranges,
    channel_ranges num_channels intensity_range rs = (Ok ranges, rs) /\
    forall color v, color ∈ colors -> v ∈ color ->
                    v = 0 \/ exists r, r ∈ ranges /\ fst r <= v <= snd r.
Proof.
  unfold _generate_random_colors. intros Hrun.
  apply bind_Ok_inv in Hrun as (ranges & rs1 & Hranges & Hrun).
  assert (rs1 = rs) as ->.
  { destruct (@stateless_channel_ranges RandomState num_channels
                                        intensity_range) as [r Hr].
    rewrite Hr in Hranges. congruence. }
  apply bind_Ok_inv in Hrun as (cols & rs2 & Hcols & Hrun).
  injection Hrun as <- _. exists ranges. split; [exact Hranges|].
  apply mapM_Ok_inv in Hcols as [_ Hcols].
  intros color v Hc Hv.
  apply np_transpose_rows in Hc as (_ & _ & Hvals).
  destruct (Hvals v Hv) as [->|(col & Hcol & Hvc)]; [left; reflexivity|].
  destruct (Hcols col Hcol) as (r & wa & wb & Hr & Hdraw).
  right. exists r. split; [exact Hr|].
  pose proof (randint_size_range _ _ _ _ _ _ Hdraw v Hvc). lia.
Qed.

(** X13.  In every run that returns, every entry of the colour table lies
    within 0..255, so that storing a colour into the 8-bit canvas never
    wraps, and every canvas pixel claimed by an accepted shape holds one
    row of the colour table, broadcast over the channel axis. *)
Theorem claimed_pixels_hold_table_colors
        rows cols max_shapes min_shapes min_size max_size multichannel
        num_channels shape scenario intensity_range allow_overlap num_trials
        random_seed w run w' :
  random_shapes_run (rows, cols) max_shapes min_shapes min_size max_size
                    multichannel num_channels shape scenario intensity_range
                    allow_overlap num_trials random_seed w
  = (Ok run, w') ->
  (forall color v, color ∈ run_colors run -> v ∈ color -> 0 <= v <= 255) /\
  (forall color, color ∈ run_colors run -> as_uint8 color = color) /\
  (forall rc px,
      claimed (run_filled run) (run_accepted run) rc ->
      pixel (run_image run) rc = Some px ->
      exists color,
        color ∈ run_colors run /\
        broadcast (Z.to_nat (channels_of multichannel num_channels)) color
        = Some px).
Proof.
  intros Hrun.
  pose proof (random_shapes_run_inv_range _ _ _ _ _ _ _ _ _ _ _ _ _ _ _ _ _
                Hrun) as (ir0 & ra & rb & Hrange & Hcol0).
  apply random_shapes_run_inv in Hrun
    as (ir & rs0 & rs1 & rs2 & num_shapes & colors & st & Hr & Hc & Hk
        & Hir & Hrs0 & Hnum & Hcol & Hslots & ->).
  cbn [run_labels run_accepted run_filled run_image run_colors
       run_num_shapes] in *.
  set (chans := channels_of multichannel num_channels) in *.
  assert (Hbyte : forall color v, color ∈ colors -> v ∈ color -> 0 <= v <= 255).
  { destruct intensity_range as [ir1|].
    - destruct Hrange as [-> Hchk].
      destruct (colors_within_ranges _ _ _ _ _ _ Hcol0)
        as (ranges & Hranges & Hvals).
      intros color v Hc' Hv.
      destruct (Hvals color v Hc' Hv) as [->|(r & Hr' & Hv')]; [lia|].
      pose proof (channel_ranges_checked _ _ w _ _ _ Hchk Hranges r Hr').
      lia.
    - apply _generate_random_colors_inv in Hcol as [_ Hdef].
      intros color v Hc' Hv. specialize (Hdef (Hir eq_refl) color v Hc' Hv).
      lia. }
  split; [exact Hbyte|]. split.
  - intros color Hc'. apply as_uint8_id. intros v Hv.
    eapply Hbyte; eassumption.
  - refine (proj2 (slots_ind
      (fun s => placement_inv (Z.to_nat chans) s /\
                claimed_from_palette (Z.to_nat chans) colors s)
      _ _ _ _ _ _ _ _ _ _ _ _ _ _ (conj (initial_inv rows cols chans) _)
      Hslots)).
    + intros st0 g w0 w1 [H1 H2] _. split; [apply rebind_inv, H1 | exact H2].
    + intros st0 st1 color [H1 H2] Hin Hcm. split.
      * exact (committed_inv (rows, cols, chans) _ _ _ _ _ Hcm H1).
      * apply (committed_palette (rows, cols, chans) _ _ _ _ _ _ Hin
                 (fun v Hv => Hbyte color v Hin Hv) Hcm H1 H2).
    + intros rc px (ind & Hin & _). inversion Hin.
Qed.


(** ** Reversed intensity bounds *)

Lemma reversed_pair_fails num_colors low high random :
  0 < num_colors -> high < low ->
  _generate_random_colors num_colors 1 (IntensityPair low high) random
  = (Raise (ValueError "low >= high"), random).
Proof.
  intros Hn Hlt. unfold _generate_random_colors, channel_ranges.
  cbn [Z.eqb Pos.eqb]. unfold bind at 1. unfold ret at 1. cbn [mapM].
  assert (Hdraw : randint_size low (high + 1) num_colors random
                  = (Raise (ValueError "low >= high"), random)).
  { unfold randint_size.
    destruct (Z.ltb_spec num_colors 0); [lia|].
    destruct (Z.eqb_spec num_colors 0); [lia|].
    destruct (Z.to_nat num_colors) as [|k] eqn:E; [lia|].
    cbn [randint_draws].
    rewrite (bind_run_Raise _ _ _ _ _
               (randint_empty low (high + 1) random ltac:(lia))).
    reflexivity. }
  cbn [fst snd]. rewrite !bind_assoc.
  rewrite (bind_run_Raise _ _ _ _ _ Hdraw). reflexivity.
Qed.

(** X14.  The intensity check does not compare the two bounds of a pair.
    A single-channel call whose pair has both bounds within 0..255 but the
    high bound below the low one passes the check, draws a shape count of
    at least one, and then fails in the colour sampler with the
    "low >= high" [ValueError] of [randint]. *)
Theorem reversed_intensity_pair_fails
        rows cols max_shapes min_shapes min_size max_size num_channels shape
        scenario low high allow_overlap num_trials w :
  min_size <= rows -> min_size <= cols -> 0 <= rows -> 0 <= cols ->
  0 <= high -> high < low -> low <= 255 ->
  1 <= min_shapes -> min_shapes <= max_shapes ->
  fst (random_shapes (rows, cols) max_shapes min_shapes min_size max_size
                     false num_channels shape scenario
                     (Some (IntensityPair low high)) allow_overlap num_trials
                     None w)
  = Raise (ValueError "low >= high").
Proof.
  intros H1 H2 Hr Hc Hh Hlt Hl Hmin Hmax.
  unfold random_shapes. unfold bind at 1.
  rewrite random_shapes_run_steps by (cbn; lia).
  cbn [channels_of].
  destruct (check_intensity_range_run 1 (IntensityPair low high) w eq_refl)
    as [[_ Hchk]|[Hbad _]].
  2:{ exfalso. cbn [bounds_of] in Hbad.
      apply Exists_cons in Hbad as [Hbad|Hbad]; [lia|].
      apply Exists_cons in Hbad as [Hbad|Hbad]; [lia|]. inversion Hbad. }
  rewrite !bind_assoc. rewrite (bind_run_Ok _ _ _ _ _ Hchk).
  unfold bind at 1. unfold ret at 1. unfold bind at 1.
  unfold RandomState_new, ret at 1.
  pose proof (randint_run min_shapes (max_shapes + 1) (w_random w)
                          ltac:(lia)) as Hnum.
  rewrite (bind_run_Ok _ _ _ _ _ (with_random_run _ _ _ _ Hnum)).
  set (n := min_shapes + _).
  assert (Hn : 0 < n).
  { subst n.
    pose proof (Z.mod_pos_bound (raw_at (w_random w) 0)
                                (max_shapes + 1 - min_shapes) ltac:(lia)).
    lia. }
  rewrite (bind_run_Raise _ _ _ _ _
             (with_random_run _ _ _ _
                (reversed_pair_fails n low high _ Hn Hlt))).
  reflexivity.
Qed.

(** ** The image that is returned *)

(** X15.  The image a call returns is the canvas its run ends with
    ([run_image], the array the loop painted), of [rows] rows of [cols]
    pixels.  With [multichannel = True] the returned image is that canvas
    itself, with [num_channels] channels.  With [multichannel = False] the
    requested channel count is ignored, the canvas has one channel, and
    the returned image has no channel axis: it is a two-dimensional array
    of [rows] rows of [cols] values, and its value at a position is the
    single channel of the canvas pixel at that position.  The labels
    returned are those of the run. *)
Theorem returned_image_shape
        rows cols max_shapes min_shapes min_size max_size multichannel
        num_channels shape scenario intensity_range allow_overlap num_trials
        random_seed w run w' :
  random_shapes_run (rows, cols) max_shapes min_shapes min_size max_size
                    multichannel num_channels shape scenario intensity_range
                    allow_overlap num_trials random_seed w
  = (Ok run, w') ->
  shaped (Z.to_nat rows) (Z.to_nat cols)
         (Z.to_nat (channels_of multichannel num_channels)) (run_image run) /\
  exists image,
    random_shapes (rows, cols) max_shapes min_shapes min_size max_size
                  multichannel num_channels shape scenario intensity_range
                  allow_overlap num_trials random_seed w
    = (Ok (image, run_labels run), w') /\
    match image with
    | Grey a =>
        multichannel = false /\
        length a = Z.to_nat rows /\
        (forall r row, a !! r = Some row -> length row = Z.to_nat cols) /\
        (forall r c v,
            (a !! r) ≫= (fun row => row !! c) = Some v <->
            pixel (run_image run) (r, c) = Some [v])
    | Multichannel a =>
        multichannel = true /\ a = run_image run
    end.
Proof.
  intros Hrun.
  assert (Hret : random_shapes (rows, cols) max_shapes min_shapes min_size
                               max_size multichannel num_channels shape
                               scenario intensity_range allow_overlap
                               num_trials random_seed w
                 = (Ok (if multichannel then Multichannel (run_image run)
                        else Grey (np_squeeze (run_image run)),
                        run_labels run), w')).
  { unfold random_shapes. rewrite (bind_run_Ok _ _ _ _ _ Hrun).
    reflexivity. }
  apply random_shapes_run_inv in Hrun
    as (ir & rs0 & rs1 & rs2 & num_shapes & colors & st & Hr & Hc & Hk
        & Hir & Hrs0 & Hnum & Hcol & Hslots & ->).
  cbn [run_image run_labels] in *.
  destruct (slots_shaped _ _ _ _ _ _ _ _ _ _ _ _ _ _ Hslots
              (initial_shaped rows cols
                 (channels_of multichannel num_channels))) as [Himg _].
  cbn [snd] in Himg. split; [exact Himg|].
  eexists. split; [exact Hret|].
  destruct multichannel; cbn [channels_of] in Himg.
  - split; reflexivity.
  - destruct Himg as [Hrows Hch]. split; [reflexivity|].
    assert (Hlen : length (e_image st) = Z.to_nat rows).
    { rewrite <- (length_fmap length (e_image st)).
      fold (row_lengths (e_image st)). rewrite Hrows.
      apply length_replicate. }
    assert (Hrow : forall r row, e_image st !! r = Some row ->
                                 length row = Z.to_nat cols).
    { intros r row Hrw.
      assert (H : row_lengths (e_image st) !! r = Some (length row))
        by (unfold row_lengths; rewrite list_lookup_fmap, Hrw; reflexivity).
      rewrite Hrows in H. apply lookup_replicate in H as [H _].
      exact H. }
    unfold np_squeeze.
    change (map ?f ?l) with (f <$> l).
    split; [rewrite length_fmap; exact Hlen|]. split.
    + intros r row Hrw. rewrite list_lookup_fmap in Hrw.
      destruct (e_image st !! r) as [row0|] eqn:E; [|discriminate].
      injection Hrw as <-. change (map ?f ?l) with (f <$> l).
      rewrite length_fmap. eapply Hrow. exact E.
    + intros r c v. unfold pixel. cbn [fst snd].
      rewrite list_lookup_fmap.
      destruct (e_image st !! r) as [row0|] eqn:E; cbn; [|split; discriminate].
      change (map ?f ?l) with (f <$> l). rewrite list_lookup_fmap.
      destruct (row0 !! c) as [px|] eqn:Ec; cbn; [|split; discriminate].
      assert (Hpx : length px = 1%nat).
      { apply (Hch (r, c) px). unfold pixel. cbn. rewrite E. exact Ec. }
      destruct px as [|x [|y px]]; try discriminate. cbn.
      split; intros [= ->]; reflexivity.
Qed.


(** ** Errors of a fitter that are not caught *)

Lemma default_colors_run num_colors num_channels (random : RandomState) :
  0 < num_colors ->
  exists colors random',
    _generate_random_colors num_colors num_channels
                            (default_intensity_range num_channels) random
    = (Ok colors, random').
Proof.
  intros Hn.
  assert (Hranges : exists ranges,
             channel_ranges num_channels
                            (default_intensity_range num_channels) random
             = (Ok ranges, random) /\
             forall r, r ∈ ranges -> fst r <= snd r).
  { unfold channel_ranges, default_intensity_range.
    destruct (num_channels =? 1).
    - exists [(0, 254)]. split; [reflexivity|].
      intros r Hr. apply list_elem_of_singleton in Hr as ->. cbn. lia.
    - exists (replicate (Z.to_nat num_channels) (0, 254)).
      split; [reflexivity|].
      intros r Hr. apply elem_of_replicate_inv in Hr as ->. cbn. lia. }
  destruct Hranges as (ranges & Hranges & Hvalid).
  destruct (sample_columns (Z.to_nat num_colors) ranges ltac:(lia) Hvalid
                           random) as (cols & Hrun & _).
  rewrite Z2Nat.id in Hrun by lia.
  eexists _, _. unfold _generate_random_colors.
  rewrite (bind_run_Ok _ _ _ _ _ Hranges).
  rewrite (bind_run_Ok _ _ _ _ _ Hrun). reflexivity.
Qed.

Lemma select_generator_circle_only current w :
  select_generator None SHAPE_GENERATOR_C current w
  = (Ok (Some _generate_circle_mask),
     mkWorld (advance 1 (w_random w)) (w_warnings w) (w_stdout w)).
Proof.
  unfold select_generator. cbn [Scenario_eqb].
  assert (Hdraw : choice SHAPE_CHOICES_C (w_random w)
                  = (Ok _generate_circle_mask, advance 1 (w_random w))).
  { unfold choice, SHAPE_CHOICES_C, SHAPE_GENERATORS_C, dict_values.
    cbn [map snd length Z.of_nat Pos.of_succ_nat].
    rewrite (bind_run_Ok _ _ _ _ _ (randint_run 0 1 (w_random w) ltac:(lia))).
    rewrite Z.sub_0_r, Z.mod_1_r. reflexivity. }
  rewrite (bind_run_Ok _ _ _ _ _ (with_random_run _ _ _ _ Hdraw)).
  reflexivity.
Qed.

(** The first trial of a slot whose fitter raises a [ValueError]. *)
Lemma trials_value_error n rows cols chans shape allow_overlap colors
      shape_idx st w f msg :
  0 < rows -> 0 < cols ->
  e_shape_generator st = Some f ->
  (forall point random,
      f point (rows, cols, chans) shape random
      = (Raise (ValueError msg), random)) ->
  fst (trials (S n) (rows, cols, chans) shape allow_overlap colors shape_idx
              st w)
  = Raise (ValueError msg).
Proof.
  intros Hr Hc Hgen Hfail. cbn [trials fst snd].
  rewrite (bind_run_Ok _ _ _ _ _
             (with_random_run _ _ _ _
                (randint_run 0 cols (w_random w) Hc))).
  set (w1 := mkWorld _ _ _).
  rewrite (bind_run_Ok _ _ _ _ _
             (with_random_run _ _ _ _
                (randint_run 0 rows (w_random w1) Hr))).
  set (w2 := mkWorld _ _ _).
  rewrite Hgen. cbn [call_generator].
  unfold bind at 1, try_ArithmeticError, with_random.
  rewrite Hfail. reflexivity.
Qed.

Lemma slots_value_error idxs shape_idx user_shape scenario num_trials rows
      cols chans shape allow_overlap colors st w f w1 msg :
  0 < rows -> 0 < cols -> 0 < num_trials ->
  select_generator user_shape scenario (e_shape_generator st) w
  = (Ok (Some f), w1) ->
  (forall point random,
      f point (rows, cols, chans) shape random
      = (Raise (ValueError msg), random)) ->
  fst (slots (shape_idx :: idxs) user_shape scenario num_trials
             (rows, cols, chans) shape allow_overlap colors st w)
  = Raise (ValueError msg).
Proof.
  intros Hr Hc Ht Hsel Hfail. cbn [slots].
  rewrite (bind_run_Ok _ _ _ _ _ Hsel).
  destruct (Z.to_nat num_trials) as [|n] eqn:E; [lia|].
  unfold bind at 1.
  pose proof (trials_value_error n rows cols chans shape allow_overlap colors
                shape_idx
                (mkEngine (e_image st) (e_filled st) (e_labels st) (Some f)
                          (e_accepted st)) w1 f msg Hr Hc eq_refl Hfail)
    as Herr.
  destruct (trials _ _ _ _ _ _ _ _) as [[st'|e] w2]; cbn [fst] in Herr;
    [discriminate|].
  cbn [fst]. exact Herr.
Qed.

(** X16.  The trial loop catches only [ArithmeticError].  The
    [ValueError] by which the circle and the triangle fitters reject a size
    range with a bound equal to 1 is not caught: with at least one shape
    to place and one trial, a call that pins the category "circle" or runs
    the circle-only scenario, with [min_size] or the effective [max_size]
    equal to 1, raises "size must be > 1 for circles", and a call that
    pins "triangle" raises "dimension must be > 1 for triangles". *)
Theorem unit_size_error_escapes_trials
        rows cols max_shapes min_shapes min_size max_size multichannel
        num_channels shape scenario allow_overlap num_trials w :
  min_size <= rows -> min_size <= cols -> 0 < rows -> 0 < cols ->
  0 <= channels_of multichannel num_channels ->
  1 <= min_shapes -> min_shapes <= max_shapes -> 0 < num_trials ->
  min_size = 1 \/ max_size_of (rows, cols) max_size = 1 ->
  (shape = Some "circle" \/ (shape = None /\ scenario = SHAPE_GENERATOR_C) ->
   fst (random_shapes (rows, cols) max_shapes min_shapes min_size max_size
                      multichannel num_channels shape scenario None
                      allow_overlap num_trials None w)
   = Raise (ValueError "size must be > 1 for circles")) /\
  (shape = Some "triangle" ->
   fst (random_shapes (rows, cols) max_shapes min_shapes min_size max_size
                      multichannel num_channels shape scenario None
                      allow_overlap num_trials None w)
   = Raise (ValueError "dimension must be > 1 for triangles")).
Proof.
  intros H1 H2 Hr Hc Hk Hmin Hmax Ht Hunit.
  assert (Hrun : forall f msg,
             (exists w1, forall current w0,
                 select_generator shape scenario current w0
                 = (Ok (Some f), w1 w0)) ->
             (forall point random,
                 f point (rows, cols, channels_of multichannel num_channels)
                   (min_size, max_size_of (rows, cols) max_size) random
                 = (Raise (ValueError msg), random)) ->
             fst (random_shapes (rows, cols) max_shapes min_shapes min_size
                                max_size multichannel num_channels shape
                                scenario None allow_overlap num_trials None
                                w)
             = Raise (ValueError msg)).
  { intros f msg [w1 Hsel] Hfail.
    unfold random_shapes. unfold bind at 1.
    rewrite random_shapes_run_steps by lia.
    unfold bind at 1, ret at 1. unfold bind at 1.
    unfold RandomState_new, ret at 1.
    pose proof (randint_run min_shapes (max_shapes + 1) (w_random w)
                            ltac:(lia)) as Hnum.
    rewrite (bind_run_Ok _ _ _ _ _ (with_random_run _ _ _ _ Hnum)).
    set (n := min_shapes + _).
    assert (Hn : 0 < n).
    { subst n.
      pose proof (Z.mod_pos_bound (raw_at (w_random w) 0)
                                  (max_shapes + 1 - min_shapes) ltac:(lia)).
      lia. }
    set (w0 := mkWorld _ _ _).
    destruct (default_colors_run
                n (channels_of multichannel num_channels) (w_random w0) Hn)
      as (colors & random' & Hcolors).
    rewrite (bind_run_Ok _ _ _ _ _ (with_random_run _ _ _ _ Hcolors)).
    destruct (Z.to_nat n) as [|k] eqn:E; [lia|].
    cbn [seq]. unfold bind at 1.
    match goal with
    | |- context [slots _ _ _ _ _ _ _ _ _ ?w3] =>
        pose proof (slots_value_error
                      (seq 1 k) 0%nat shape scenario num_trials rows cols
                      (channels_of multichannel num_channels)
                      (min_size, max_size_of (rows, cols) max_size)
                      allow_overlap colors
                      (initial rows cols
                               (channels_of multichannel num_channels))
                      w3 f _ msg Hr Hc Ht (Hsel _ w3) Hfail) as Herr
    end.
    destruct (slots _ _ _ _ _ _ _ _ _ _) as [[st'|e] w2]; cbn [fst] in Herr;
      [discriminate|].
    injection Herr as ->. reflexivity. }
  assert (Hone : (min_size =? 1) || (max_size_of (rows, cols) max_size =? 1)
                 = true).
  { destruct Hunit as [-> | ->]; [reflexivity | apply orb_true_r]. }
  split.
  - intros Hshape. apply (Hrun _generate_circle_mask).
    + destruct Hshape as [-> | [-> ->]].
      * exists (fun w0 => w0). intros current w0. reflexivity.
      * eexists (fun w0 => _). intros current w0.
        apply select_generator_circle_only.
    + intros point random. unfold _generate_circle_mask. cbn [fst snd].
      rewrite Hone. reflexivity.
  - intros ->. apply (Hrun _generate_triangle_mask).
    + exists (fun w0 => w0). intros current w0. reflexivity.
    + intros point random. unfold _generate_triangle_mask. cbn [fst snd].
      rewrite Hone. reflexivity.
Qed.


(** ** What the run prints *)

Lemma select_generator_stdout user_shape scenario current w g w1 :
  (user_shape = None -> forall name, scenario <> OtherScenario name) ->
  select_generator user_shape scenario current w = (Ok g, w1) ->
  w_stdout w1 = w_stdout w.
Proof.
  intros Hknown. unfold select_generator. destruct user_shape as [name|].
  - intros H. apply bind_Ok_inv in H as (f & w2 & Hget & Hret).
    apply dict_get_state in Hget as ->. injection Hret as _ <-.
    reflexivity.
  - destruct scenario; cbn [Scenario_eqb]; intros H;
      try (apply bind_Ok_inv in H as (f & w2 & Hdraw & Hret);
           apply with_random_inv in Hdraw as (rs & _ & ->);
           injection Hret as _ <-; reflexivity).
    exfalso. eapply (Hknown eq_refl). reflexivity.
Qed.

Lemma slots_stdout user_shape scenario num_trials image_shape shape
      allow_overlap colors :
  (user_shape = None -> forall name, scenario <> OtherScenario name) ->
  forall idxs st w st' w',
    slots idxs user_shape scenario num_trials image_shape shape
          allow_overlap colors st w = (Ok st', w') ->
    w_stdout w' = w_stdout w.
Proof.
  intros Hknown. induction idxs as [|i idxs IH]; intros st w st' w' Hrun.
  - injection Hrun as _ <-. reflexivity.
  - cbn [slots] in Hrun.
    apply bind_Ok_inv in Hrun as (g & w1 & Hg & Hrun).
    apply bind_Ok_inv in Hrun as (st1 & w2 & Htr & Hrun).
    apply (select_generator_stdout _ _ _ _ _ _ Hknown) in Hg.
    apply trials_cases in Htr as [Hout _]. apply IH in Hrun.
    congruence.
Qed.

(** X17.  The only output of [random_shapes] is the message of the
    unrecognized-scenario branch: a call that returns with a pinned
    category, or with one of the four recognized scenarios, has printed
    nothing. *)
Theorem recognized_scenario_prints_nothing
        rows cols max_shapes min_shapes min_size max_size multichannel
        num_channels shape scenario intensity_range allow_overlap num_trials
        random_seed w image labels w' :
  (shape = None -> forall name, scenario <> OtherScenario name) ->
  random_shapes (rows, cols) max_shapes min_shapes min_size max_size
                multichannel num_channels shape scenario intensity_range
                allow_overlap num_trials random_seed w
  = (Ok (image, labels), w') ->
  w_stdout w' = w_stdout w.
Proof.
  intros Hknown Hrun. unfold random_shapes in Hrun.
  apply bind_Ok_inv in Hrun as (run & w1 & Hrun & Hret).
  injection Hret as _ _ <-.
  apply random_shapes_run_inv in Hrun
    as (ir & rs0 & rs1 & rs2 & num_shapes & colors & st & _ & _ & _
        & _ & _ & _ & _ & Hslots & _).
  apply (slots_stdout _ _ _ _ _ _ _ Hknown) in Hslots. exact Hslots.
Qed.


(** ** When every slot is filled *)

Lemma rectangle_fits row col rows cols chans min_size max_size random :
  row < rows -> col < cols -> min_size <= 1 -> min_size <= max_size ->
  exists fit random',
    _generate_rectangle_mask (row, col) (rows, cols, chans)
                             (min_size, max_size) random
    = (Ok fit, random').
Proof.
  intros Hrow Hcol Hone Hmax. unfold _generate_rectangle_mask.
  cbn [fst snd].
  destruct (Z.ltb_spec (Z.min (cols - col) max_size) min_size); [lia|].
  destruct (Z.ltb_spec (Z.min (rows - row) max_size) min_size); [lia|].
  rewrite (bind_run_Ok _ _ _ _ _
             (randint_run min_size (Z.min (rows - row) max_size + 1) random
                          ltac:(lia))).
  rewrite (bind_run_Ok _ _ _ _ _
             (randint_run min_size (Z.min (cols - col) max_size + 1)
                          (advance 1 random) ltac:(lia))).
  eexists _, _. reflexivity.
Qed.

(** With overlap allowed, a fitter that fits at every anchor of the
    canvas makes the first trial of a slot the accepted one. *)
Lemma trials_overlap_first_fit n rows cols chans shape colors shape_idx st w
      st' w' f :
  e_shape_generator st = Some f ->
  (forall row col random,
      0 <= row < rows -> 0 <= col < cols ->
      exists fit random',
        f (row, col) (rows, cols, chans) shape random = (Ok fit, random')) ->
  trials (S n) (rows, cols, chans) shape true colors shape_idx st w
  = (Ok st', w') ->
  w_warnings w' = w_warnings w /\
  length (e_labels st') = S (length (e_labels st)).
Proof.
  intros Hgen Hfits Hrun. cbn [trials fst snd] in Hrun.
  apply bind_Ok_inv in Hrun as (column & w1 & Hcol & Hrun).
  apply with_random_inv in Hcol as (rs1 & Hcol & ->).
  apply bind_Ok_inv in Hrun as (row & w2 & Hrow & Hrun).
  apply with_random_inv in Hrow as (rs2 & Hrow & ->).
  cbn [w_random w_warnings w_stdout] in *.
  apply randint_Ok_inv in Hcol as (Hcolr & _ & _).
  apply randint_Ok_inv in Hrow as (Hrowr & _ & _).
  apply bind_Ok_inv in Hrun as (fit & w3 & Hfit & Hrun).
  rewrite Hgen in Hfit. cbn [call_generator] in Hfit.
  destruct (Hfits row column rs2 Hrowr Hcolr) as (fit0 & rs3 & Hf).
  apply try_ArithmeticError_Ok_inv in Hfit
    as [(a & -> & Hfit)|(msg & -> & Hfit)];
    apply with_random_inv in Hfit as (rs4 & Hfit & ->);
    cbn [w_random] in Hfit; rewrite Hf in Hfit; [|discriminate].
  destruct a as [indices label].
  unfold bind at 1, ret at 1 in Hrun.
  apply bind_Ok_inv in Hrun as (color & w5 & Hcolor & Hrun).
  destruct (colors !! shape_idx) as [color'|]; [|discriminate].
  injection Hcolor as <- <-.
  apply bind_Ok_inv in Hrun as (image' & w6 & Himg & Hrun).
  apply setitem_Ok_inv in Himg as (rcs_i & px & _ & _ & -> & ->).
  apply bind_Ok_inv in Hrun as (filled' & w7 & Hfil & Hrun).
  apply setitem_Ok_inv in Hfil as (rcs_f & pxf & _ & _ & -> & ->).
  injection Hrun as <- <-. cbn [w_warnings e_labels].
  split; [reflexivity|]. rewrite length_app. cbn. lia.
Qed.

Lemma slots_overlap_all_fit user_shape scenario num_trials rows cols chans
      shape colors f :
  0 < num_trials ->
  (forall current w g w1,
      select_generator user_shape scenario current w = (Ok g, w1) ->
      g = Some f) ->
  (forall row col random,
      0 <= row < rows -> 0 <= col < cols ->
      exists fit random',
        f (row, col) (rows, cols, chans) shape random = (Ok fit, random')) ->
  forall idxs st w st' w',
    slots idxs user_shape scenario num_trials (rows, cols, chans) shape true
          colors st w = (Ok st', w') ->
    w_warnings w' = w_warnings w /\
    length (e_labels st') = (length (e_labels st) + length idxs)%nat.
Proof.
  intros Ht Hsel Hfits.
  induction idxs as [|i idxs IH]; intros st w st' w' Hrun.
  - injection Hrun as <- <-. split; [reflexivity | cbn; lia].
  - cbn [slots] in Hrun.
    apply bind_Ok_inv in Hrun as (g & w1 & Hg & Hrun).
    apply bind_Ok_inv in Hrun as (st1 & w2 & Htr & Hrun).
    pose proof (select_generator_warnings _ _ _ _ _ _ Hg) as Hw1.
    apply Hsel in Hg as ->.
    destruct (Z.to_nat num_trials) as [|n] eqn:E; [lia|].
    eapply trials_overlap_first_fit in Htr as [Hw2 Hlen];
      [|reflexivity|exact Hfits].
    apply IH in Hrun as [Hw3 Hlen3]. cbn [e_labels] in Hlen.
    split; [congruence | cbn [length]; lia].
Qed.

(** X18.  With overlap allowed and a [min_size] of at most 1, a pinned
    rectangle fits at every anchor, so the first trial of every slot is
    accepted: a call that returns has one label for every slot of the
    drawn shape count and emitted no warning. *)
Theorem unit_rectangles_fill_every_slot
        rows cols max_shapes min_shapes min_size max_size multichannel
        num_channels scenario intensity_range num_trials random_seed w run
        w' :
  min_size <= 1 -> min_size <= max_size_of (rows, cols) max_size ->
  0 < num_trials ->
  random_shapes_run (rows, cols) max_shapes min_shapes min_size max_size
                    multichannel num_channels (Some "rectangle") scenario
                    intensity_range true num_trials random_seed w
  = (Ok run, w') ->
  length (run_labels run) = Z.to_nat (run_num_shapes run) /\
  w_warnings w' = w_warnings w.
Proof.
  intros Hone Hmax Ht Hrun.
  apply random_shapes_run_inv in Hrun
    as (ir & rs0 & rs1 & rs2 & num_shapes & colors & st & _ & _ & _
        & _ & _ & _ & _ & Hslots & ->).
  cbn [run_labels run_num_shapes].
  eapply (slots_overlap_all_fit _ _ _ _ _ _ _ _ _generate_rectangle_mask Ht)
    in Hslots as [Hw Hlen].
  - split; [|exact Hw].
    rewrite Hlen. cbn [initial e_labels length]. rewrite length_seq.
    reflexivity.
  - intros current w0 g w1 Hg. rewrite select_generator_pinned in Hg.
    apply bind_Ok_inv in Hg as (f & w2 & Hget & Hret).
    injection Hret as <- _. cbn in Hget. injection Hget as <- _.
    reflexivity.
  - intros row col random Hrow Hcol.
    apply rectangle_fits; lia.
Qed.


(** ** Which step raises the error of the size check *)

Lemma bind_Raise_inv {S A B} (m : SE S A) (k : A -> SE S B) w e w' :
  bind m k w = (Raise e, w') ->
  m w = (Raise e, w') \/
  exists a w1, m w = (Ok a, w1) /\ k a w1 = (Raise e, w').
Proof.
  unfold bind. destruct (m w) as [[a|e1] w1]; intros H.
  - right. exists a, w1. split; [reflexivity | exact H].
  - left. injection H as -> ->. reflexivity.
Qed.

Lemma never_raises_ret {S A} e0 (a : A) : never_raises e0 (@ret S A a).
Proof. intros w e w' H. discriminate. Qed.

Lemma never_raises_raise {S A} e0 e1 :
  e1 <> e0 -> never_raises e0 (@raise S A e1).
Proof. intros Hne w e w' [= <- _]. exact Hne. Qed.

Lemma never_raises_bind {S A B} e0 (m : SE S A) (k : A -> SE S B) :
  never_raises e0 m -> (forall a, never_raises e0 (k a)) ->
  never_raises e0 (bind m k).
Proof.
  intros Hm Hk w e w' H.
  apply bind_Raise_inv in H as [H | (a & w1 & _ & H)].
  - eapply Hm. exact H.
  - eapply Hk. exact H.
Qed.

Lemma never_raises_with_random {A} e0 (m : R A) :
  never_raises e0 m -> never_raises e0 (with_random m).
Proof.
  intros Hm w e w' H. apply with_random_inv in H as (rs & H & _).
  eapply Hm. exact H.
Qed.

Lemma never_raises_try {S A} e0 (m : SE S A) :
  never_raises e0 m -> never_raises e0 (try_ArithmeticError m).
Proof.
  intros Hm w e w'. unfold try_ArithmeticError.
  destruct (m w) as [[a|e1] w1] eqn:E; [discriminate|].
  destruct e1; intros [= <- _]; eapply Hm; exact E.
Qed.

Lemma never_raises_mapM {S A B} e0 (f : A -> SE S B) l :
  (forall x, never_raises e0 (f x)) -> never_raises e0 (mapM f l).
Proof.
  intros Hf. induction l as [|x l IH]; cbn [mapM].
  - apply never_raises_ret.
  - apply never_raises_bind; [apply Hf|]. intros y.
    apply never_raises_bind; [exact IH|]. intros ys.
    apply never_raises_ret.
Qed.

Lemma never_raises_next_raw e0 : never_raises e0 next_raw.
Proof. intros w e w' H. discriminate. Qed.

(** The steps of a computation, taken apart down to its [ret]s and
    [raise]s; the exceptions are compared with the one to avoid. *)
Ltac never_raises_steps :=
  repeat first
    [ apply never_raises_ret
    | apply never_raises_next_raw
    | apply never_raises_raise; discriminate
    | apply never_raises_with_random
    | apply never_raises_try
    | apply never_raises_bind; [|intros ?]
    | match goal with
      | |- never_raises _ (if ?b then _ else _) => destruct b
      end ].

Lemma randint_size_error low high :
  never_raises min_size_error (randint low high).
Proof.
  unfold randint. never_raises_steps.
Qed.

Lemma randint_draws_size_error low high n :
  never_raises min_size_error (randint_draws low high n).
Proof.
  induction n as [|n IH]; cbn [randint_draws].
  - apply never_raises_ret.
  - apply never_raises_bind; [apply randint_size_error|]. intros x.
    apply never_raises_bind; [exact IH|]. intros xs.
    apply never_raises_ret.
Qed.

Lemma randint_size_size_error low high n :
  never_raises min_size_error (randint_size low high n).
Proof.
  unfold randint_size.
  destruct (n <? 0); [apply never_raises_raise; discriminate|].
  destruct (n =? 0); [apply never_raises_ret|].
  apply randint_draws_size_error.
Qed.

Lemma colors_size_error num_colors num_channels intensity_range :
  never_raises min_size_error
               (_generate_random_colors num_colors num_channels
                                        intensity_range).
Proof.
  unfold _generate_random_colors. apply never_raises_bind.
  - unfold channel_ranges.
    destruct (num_channels =? 1);
      destruct intensity_range as [low high|[|r0 [|r1 rs]]];
      never_raises_steps.
  - intros ranges. apply never_raises_bind; [|intros; apply never_raises_ret].
    apply never_raises_mapM. intros r. apply randint_size_size_error.
Qed.

Lemma check_intensity_size_error intensity :
  never_raises min_size_error (check_intensity intensity).
Proof. unfold check_intensity. never_raises_steps. Qed.

Lemma check_intensity_range_size_error num_channels intensity_range :
  never_raises min_size_error
               (check_intensity_range num_channels intensity_range).
Proof.
  unfold check_intensity_range.
  destruct (num_channels =? 1);
    destruct intensity_range as [low high|[|r0 rs]];
    never_raises_steps;
    try apply check_intensity_size_error;
    apply never_raises_mapM; intros r; never_raises_steps;
    apply check_intensity_size_error.
Qed.

Lemma RandomState_new_size_error random_seed :
  never_raises min_size_error (RandomState_new random_seed).
Proof.
  unfold RandomState_new. destruct random_seed as [seed|];
    never_raises_steps.
  intros w e w' H. discriminate.
Qed.

Lemma np_full_size_error {A} shape (v : A) :
  never_raises min_size_error (@np_full World A shape v).
Proof.
  unfold np_full. destruct shape as [[rows cols] chans].
  never_raises_steps.
Qed.

Lemma fitters_size_error (f : Fitter) point image_shape shape :
  f = _generate_rectangle_mask \/ f = _generate_triangle_mask \/
  f = _generate_circle_mask ->
  never_raises min_size_error (f point image_shape shape).
Proof.
  intros [-> | [-> | ->]].
  - unfold _generate_rectangle_mask. cbv zeta.
    never_raises_steps; apply randint_size_error.
  - unfold _generate_triangle_mask. cbv zeta.
    never_raises_steps; apply randint_size_error.
  - unfold _generate_circle_mask, randint_float. cbv zeta.
    never_raises_steps; apply randint_size_error.
Qed.

Lemma call_generator_size_error g point image_shape shape :
  known_generator g ->
  never_raises min_size_error (call_generator g point image_shape shape).
Proof.
  intros Hg. unfold call_generator. destruct g as [f|].
  - apply fitters_size_error. apply Hg. reflexivity.
  - never_raises_steps.
Qed.

Lemma dict_get_size_error {S A} (d : list (string * A)) key :
  never_raises min_size_error (@dict_get S A d key).
Proof.
  induction d as [|[k v] d IH]; cbn [dict_get]; never_raises_steps.
  exact IH.
Qed.

Lemma choice_p_size_error {A} (a : list A) p :
  never_raises min_size_error (choice_p a p).
Proof.
  unfold choice_p. cbv zeta. never_raises_steps.
  match goal with |- never_raises _ (match ?x with _ => _ end) =>
    destruct x end; never_raises_steps.
Qed.

Lemma choice_size_error {A} (a : list A) :
  never_raises min_size_error (choice a).
Proof.
  unfold choice. destruct a as [|x a]; never_raises_steps.
  match goal with |- never_raises _ (match ?x with _ => _ end) =>
    destruct x end; never_raises_steps.
Qed.

Lemma select_generator_size_error user_shape scenario current :
  never_raises min_size_error (select_generator user_shape scenario current).
Proof.
  unfold select_generator. destruct user_shape as [name|].
  - never_raises_steps. apply dict_get_size_error.
  - destruct scenario; cbn [Scenario_eqb];
      try (apply never_raises_bind;
           [apply never_raises_with_random;
            first [apply choice_p_size_error | apply choice_size_error]
           |intros g; apply never_raises_ret]).
    apply never_raises_bind; [|intros; apply never_raises_ret].
    intros w e w' H. discriminate.
Qed.

Lemma getitem_size_error {S A} (a : ndarray A) indices :
  never_raises min_size_error (@getitem S A a indices).
Proof.
  unfold getitem. destruct (cells_of a indices); never_raises_steps.
Qed.

Lemma setitem_size_error {S A} chans (a : ndarray A) indices v :
  never_raises min_size_error (@setitem S A chans a indices v).
Proof.
  unfold setitem. destruct (cells_of a indices); [|never_raises_steps].
  destruct (broadcast _ v); never_raises_steps.
Qed.

Lemma trials_size_error n image_shape shape allow_overlap colors shape_idx
      st :
  known_generator (e_shape_generator st) ->
  never_raises min_size_error
               (trials n image_shape shape allow_overlap colors shape_idx st).
Proof.
  intros Hg. induction n as [|n IH]; cbn [trials].
  - never_raises_steps. intros w e w' H. discriminate.
  - apply never_raises_bind;
      [apply never_raises_with_random, randint_size_error|]. intros column.
    apply never_raises_bind;
      [apply never_raises_with_random, randint_size_error|]. intros row.
    apply never_raises_bind.
    { apply never_raises_try, never_raises_with_random.
      apply call_generator_size_error. exact Hg. }
    intros [[indices label]|]; [|exact IH].
    apply never_raises_bind.
    { destruct allow_overlap; never_raises_steps.
      apply getitem_size_error. }
    intros [|]; [|exact IH].
    apply never_raises_bind.
    { destruct (colors !! shape_idx); never_raises_steps. }
    intros color.
    apply never_raises_bind; [apply setitem_size_error|]. intros image'.
    apply never_raises_bind; [apply setitem_size_error|]. intros filled'.
    apply never_raises_ret.
Qed.

Lemma trials_generator n image_shape shape allow_overlap colors shape_idx st
      w st' w' :
  trials n image_shape shape allow_overlap colors shape_idx st w
  = (Ok st', w') ->
  e_shape_generator st' = e_shape_generator st.
Proof.
  intros Hrun.
  apply trials_cases in Hrun as [_ [[-> _]|[(color & _ & Hc) _]]];
    [reflexivity|].
  destruct Hc as (f & row & col & rs & rs' & ind & label & ci & cf & px
                  & _ & _ & _ & _ & _ & _ & _ & _ & ->).
  reflexivity.
Qed.

Lemma slots_size_error user_shape scenario num_trials image_shape shape
      allow_overlap colors :
  forall idxs st,
    known_generator (e_shape_generator st) ->
    never_raises min_size_error
                 (slots idxs user_shape scenario num_trials image_shape shape
                        allow_overlap colors st).
Proof.
  induction idxs as [|i idxs IH]; intros st Hg; cbn [slots].
  - apply never_raises_ret.
  - intros w e w' Hrun.
    apply bind_Raise_inv in Hrun as [Hsel | (g & w1 & Hsel & Hrun)].
    { eapply select_generator_size_error. exact Hsel. }
    pose proof (select_generator_known _ _ _ _ _ _ Hg Hsel) as Hg1.
    apply bind_Raise_inv in Hrun as [Htr | (st1 & w2 & Htr & Hrun)].
    { eapply trials_size_error; [|exact Htr]. exact Hg1. }
    eapply IH; [|exact Hrun].
    rewrite (trials_generator _ _ _ _ _ _ _ _ _ _ Htr). exact Hg1.
Qed.

Lemma random_shapes_run_size_error rows cols max_shapes min_shapes min_size
      max_size multichannel num_channels shape scenario intensity_range
      allow_overlap num_trials random_seed :
  min_size <= rows -> min_size <= cols ->
  never_raises min_size_error
               (random_shapes_run (rows, cols) max_shapes min_shapes min_size
                                  max_size multichannel num_channels shape
                                  scenario intensity_range allow_overlap
                                  num_trials random_seed).
Proof.
  intros H1 H2. unfold random_shapes_run. cbn [fst snd].
  destruct (Z.gtb_spec min_size rows); [lia|].
  destruct (Z.gtb_spec min_size cols); [lia|]. cbn [orb]. cbv zeta.
  apply never_raises_bind.
  { destruct intensity_range as [ir|]; never_raises_steps.
    apply check_intensity_range_size_error. }
  intros ir. apply never_raises_bind; [apply RandomState_new_size_error|].
  intros []. apply never_raises_bind; [apply np_full_size_error|].
  intros image. apply never_raises_bind; [apply np_full_size_error|].
  intros filled.
  apply never_raises_bind;
    [apply never_raises_with_random, randint_size_error|].
  intros num_shapes.
  apply never_raises_bind;
    [apply never_raises_with_random, colors_size_error|].
  intros colors.
  apply never_raises_bind; [|intros; apply never_raises_ret].
  apply slots_size_error. intros f Hf. discriminate.
Qed.

(** X3.  [random_shapes] raises the "Minimum dimension" [ValueError]
    exactly when [min_size] exceeds the number of rows or of columns: a
    [min_size] above a dimension raises it before the call seeds a
    generator, draws, warns or prints, and with a [min_size] of at most
    both dimensions (equal to one of them included) the size check is
    passed and no later step of the call raises that error.  Every call
    that returns had [min_size] within both dimensions, and dimensions
    and a channel count that are not negative. *)
Theorem min_size_check
        rows cols max_shapes min_shapes min_size max_size multichannel
        num_channels shape scenario intensity_range allow_overlap num_trials
        random_seed w :
  (min_size > rows \/ min_size > cols ->
   random_shapes (rows, cols) max_shapes min_shapes min_size max_size
                 multichannel num_channels shape scenario intensity_range
                 allow_overlap num_trials random_seed w
   = (Raise (ValueError "Minimum dimension must be less than ncols and nrows"),
      w)) /\
  (fst (random_shapes (rows, cols) max_shapes min_shapes min_size max_size
                      multichannel num_channels shape scenario
                      intensity_range allow_overlap num_trials random_seed w)
   = Raise (ValueError "Minimum dimension must be less than ncols and nrows")
   <-> min_size > rows \/ min_size > cols) /\
  (forall image labels w',
      random_shapes (rows, cols) max_shapes min_shapes min_size max_size
                    multichannel num_channels shape scenario intensity_range
                    allow_overlap num_trials random_seed w
      = (Ok (image, labels), w') ->
      min_size <= rows /\ min_size <= cols /\
      0 <= rows /\ 0 <= cols /\ 0 <= channels_of multichannel num_channels).
Proof.
  assert (Hraise : min_size > rows \/ min_size > cols ->
            random_shapes (rows, cols) max_shapes min_shapes min_size
                          max_size multichannel num_channels shape scenario
                          intensity_range allow_overlap num_trials
                          random_seed w
            = (Raise min_size_error, w)).
  { intros Hbig. unfold random_shapes, random_shapes_run, bind.
    cbn [fst snd].
    destruct (Z.gtb_spec min_size rows); [reflexivity|].
    destruct (Z.gtb_spec min_size cols); [reflexivity | lia]. }
  split; [exact Hraise|]. split.
  - split.
    + intros Herr.
      destruct (Z_le_gt_dec min_size rows) as [H1|H1]; [|left; exact H1].
      destruct (Z_le_gt_dec min_size cols) as [H2|H2]; [|right; exact H2].
      exfalso.
      destruct (random_shapes (rows, cols) max_shapes min_shapes min_size
                              max_size multichannel num_channels shape
                              scenario intensity_range allow_overlap
                              num_trials random_seed w)
        as [[r|e] w'] eqn:E; cbn [fst] in Herr; [discriminate|].
      injection Herr as ->. unfold random_shapes in E.
      apply bind_Raise_inv in E as [E | (run & w1 & _ & E)];
        [|discriminate].
      eapply (random_shapes_run_size_error
                rows cols max_shapes min_shapes min_size max_size
                multichannel num_channels shape scenario intensity_range
                allow_overlap num_trials random_seed H1 H2);
        [exact E | reflexivity].
    + intros Hbig. rewrite (Hraise Hbig). reflexivity.
  - intros image labels w' Hrun.
    apply random_shapes_Ok_inv in Hrun as (run & Hrun & _ & _).
    assert (Hsize : min_size <= rows /\ min_size <= cols).
    { unfold random_shapes_run in Hrun. cbn [fst snd] in Hrun.
      destruct (Z.gtb_spec min_size rows); [discriminate|].
      destruct (Z.gtb_spec min_size cols); [discriminate|]. lia. }
    apply random_shapes_run_inv in Hrun
      as (ir & rs0 & rs1 & rs2 & num_shapes & colors & st & Hr & Hc & Hk & _).
    repeat split; tauto.
Qed.


(** ** An unrecognized scenario *)

Lemma default_colors_draws num_colors num_channels (random : RandomState) :
  0 < num_colors ->
  exists colors,
    _generate_random_colors num_colors num_channels
                            (default_intensity_range num_channels) random
    = (Ok colors,
       advance (Z.to_nat num_channels * Z.to_nat num_colors) random).
Proof.
  intros Hn.
  assert (Hranges : exists ranges,
             channel_ranges num_channels
                            (default_intensity_range num_channels) random
             = (Ok ranges, random) /\
             length ranges = Z.to_nat num_channels /\
             forall r, r ∈ ranges -> fst r <= snd r).
  { unfold channel_ranges, default_intensity_range.
    destruct (Z.eqb_spec num_channels 1) as [-> | Hne].
    - exists [(0, 254)]. split; [reflexivity|]. split; [reflexivity|].
      intros r Hr. apply list_elem_of_singleton in Hr as ->. cbn. lia.
    - exists (replicate (Z.to_nat num_channels) (0, 254)).
      split; [reflexivity|]. split; [apply length_replicate|].
      intros r Hr. apply elem_of_replicate_inv in Hr as ->. cbn. lia. }
  destruct Hranges as (ranges & Hranges & Hlen & Hvalid).
  destruct (sample_columns (Z.to_nat num_colors) ranges ltac:(lia) Hvalid
                           random) as (cols & Hrun & _).
  rewrite Z2Nat.id, Hlen in Hrun by lia.
  eexists. unfold _generate_random_colors.
  rewrite (bind_run_Ok _ _ _ _ _ Hranges).
  rewrite (bind_run_Ok _ _ _ _ _ Hrun). reflexivity.
Qed.

(** A slot whose [shape_generator] is unbound never completes a trial. *)
Lemma trials_unbound_no_return n image_shape shape allow_overlap colors
      shape_idx st w st' w' :
  e_shape_generator st = None ->
  trials (S n) image_shape shape allow_overlap colors shape_idx st w
  <> (Ok st', w').
Proof.
  intros Hgen Hrun. cbn [trials] in Hrun.
  apply bind_Ok_inv in Hrun as (column & w1 & _ & Hrun).
  apply bind_Ok_inv in Hrun as (row & w2 & _ & Hrun).
  apply bind_Ok_inv in Hrun as (fit & w3 & Hfit & _).
  rewrite Hgen in Hfit. cbn [call_generator] in Hfit.
  apply try_ArithmeticError_Ok_inv in Hfit
    as [(a & _ & Hfit)|(msg & _ & Hfit)];
    apply with_random_inv in Hfit as (rs & Hfit & _); discriminate.
Qed.

Lemma trials_unbound_raises n rows cols chans shape allow_overlap colors
      shape_idx st w :
  0 < rows -> 0 < cols ->
  e_shape_generator st = None ->
  trials (S n) (rows, cols, chans) shape allow_overlap colors shape_idx st w
  = (Raise (UnboundLocalError "shape_generator"),
     mkWorld (advance 2 (w_random w)) (w_warnings w) (w_stdout w)).
Proof.
  intros Hr Hc Hgen. cbn [trials fst snd].
  rewrite (bind_run_Ok _ _ _ _ _
             (with_random_run _ _ _ _
                (randint_run 0 cols (w_random w) Hc))).
  set (w1 := mkWorld _ _ _).
  rewrite (bind_run_Ok _ _ _ _ _
             (with_random_run _ _ _ _
                (randint_run 0 rows (w_random w1) Hr))).
  rewrite Hgen. cbn [call_generator].
  unfold bind at 1, try_ArithmeticError, with_random, raise.
  subst w1. reflexivity.
Qed.

(** C1.  The code does not reject an unrecognized scenario.  With no
    pinned category, the branch of the scenario chain that an
    unrecognized scenario reaches sits inside the slot loop: it prints
    "Error in the script", draws nothing and leaves [shape_generator] as
    it was, that is, unbound.  An ordinary call (a canvas that is not
    empty, a shape count of at least one, a trial budget of at least one,
    the default intensity range) therefore does fail, but late and with
    the wrong error: after the shape count, the colour table and the
    first anchor were drawn and the message was printed once, the first
    trial raises [UnboundLocalError] for [shape_generator].  A call
    returns only when the drawn shape count or the trial budget is not
    positive, and then it returns the untouched background and no
    labels, having printed the message once per slot. *)
Theorem unrecognized_scenario_not_rejected name :
  (forall current w,
      select_generator None (OtherScenario name) current w
      = (Ok current,
         mkWorld (w_random w) (w_warnings w)
                 (w_stdout w ++ ["Error in the script"]))) /\
  (forall rows cols max_shapes min_shapes min_size max_size multichannel
          num_channels allow_overlap num_trials random_seed w,
      min_size <= rows -> min_size <= cols -> 0 < rows -> 0 < cols ->
      0 <= channels_of multichannel num_channels ->
      1 <= min_shapes -> min_shapes <= max_shapes -> 0 < num_trials ->
      match random_seed with
      | Some seed => 0 <= seed < 2 ^ 32
      | None => True
      end ->
      let random0 := match random_seed with
                     | Some seed => mkRandomState (seeded_stream seed) 0
                     | None => w_random w
                     end in
      let num_shapes :=
        min_shapes + raw_at random0 0 mod (max_shapes + 1 - min_shapes) in
      1 <= num_shapes /\
      random_shapes (rows, cols) max_shapes min_shapes min_size max_size
                    multichannel num_channels None (OtherScenario name)
                    None allow_overlap num_trials random_seed w
      = (Raise (UnboundLocalError "shape_generator"),
         mkWorld (advance (3 + Z.to_nat (channels_of multichannel
                                                     num_channels)
                               * Z.to_nat num_shapes) random0)
                 (w_warnings w)
                 (w_stdout w ++ ["Error in the script"]))) /\
  (forall rows cols max_shapes min_shapes min_size max_size multichannel
          num_channels intensity_range allow_overlap num_trials random_seed
          w image labels w',
      random_shapes (rows, cols) max_shapes min_shapes min_size max_size
                    multichannel num_channels None (OtherScenario name)
                    intensity_range allow_overlap num_trials random_seed w
      = (Ok (image, labels), w') ->
      labels = [] /\
      image = (if multichannel
               then Multichannel (background rows cols num_channels)
               else Grey (np_squeeze (background rows cols 1))) /\
      exists num_shapes,
        min_shapes <= num_shapes <= max_shapes /\
        (num_shapes <= 0 \/ num_trials <= 0) /\
        w_stdout w'
        = (w_stdout w
             ++ replicate (Z.to_nat num_shapes) "Error in the script")%list).
Proof.
  split; [reflexivity|]. split.
  - intros rows cols max_shapes min_shapes min_size max_size multichannel
           num_channels allow_overlap num_trials random_seed w
           H1 H2 Hr Hc Hk Hmin Hmax Ht Hseed random0 num_shapes.
    assert (Hn : 1 <= num_shapes).
    { subst num_shapes.
      pose proof (Z.mod_pos_bound (raw_at random0 0)
                                  (max_shapes + 1 - min_shapes) ltac:(lia)).
      lia. }
    split; [exact Hn|].
    unfold random_shapes. unfold bind at 1.
    rewrite random_shapes_run_steps by lia.
    unfold bind at 1, ret at 1.
    assert (Hnew : RandomState_new random_seed w
                   = (Ok tt, mkWorld random0 (w_warnings w) (w_stdout w))).
    { subst random0. unfold RandomState_new.
      destruct random_seed as [seed|].
      - destruct (Z.leb_spec 0 seed); [|lia].
        destruct (Z.ltb_spec seed (2 ^ 32)); [|lia]. reflexivity.
      - destruct w. reflexivity. }
    rewrite (bind_run_Ok _ _ _ _ _ Hnew).
    pose proof (randint_run min_shapes (max_shapes + 1) random0
                            ltac:(lia)) as Hnum.
    fold num_shapes in Hnum.
    rewrite (bind_run_Ok _ _ _ _ _
               (with_random_run _ (mkWorld random0 _ _) _ _ Hnum)).
    cbn [w_warnings w_stdout].
    destruct (default_colors_draws
                num_shapes (channels_of multichannel num_channels)
                (advance 1 random0) ltac:(lia)) as (colors & Hcolors).
    rewrite (bind_run_Ok _ _ _ _ _
               (with_random_run _ (mkWorld (advance 1 random0) _ _) _ _
                                Hcolors)).
    cbn [w_warnings w_stdout].
    destruct (Z.to_nat num_shapes) as [|k] eqn:E; [lia|].
    destruct (Z.to_nat num_trials) as [|n] eqn:En; [lia|].
    cbn [seq slots]. rewrite !bind_assoc.
    rewrite (bind_run_Ok _ _ _ _ _
               (select_generator_other name _ _)).
    rewrite En.
    rewrite !bind_assoc.
    match goal with
    | |- context [bind (trials (S n) _ ?sh ?ao ?cs ?i ?st0) _ ?w0] =>
        rewrite (bind_run_Raise _ _ _ _ _
                   (trials_unbound_raises n rows cols _ sh ao cs i st0 w0
                                          Hr Hc eq_refl))
    end.
    cbn [w_random w_warnings w_stdout]. f_equal. f_equal.
    unfold advance. cbn [rs_raw rs_pos]. f_equal. lia.
  - intros rows cols max_shapes min_shapes min_size max_size multichannel
           num_channels intensity_range allow_overlap num_trials random_seed
           w image labels w' Hrun.
    apply random_shapes_Ok_inv in Hrun as (run & Hrun & -> & ->).
    apply random_shapes_run_inv in Hrun
      as (ir & rs0 & rs1 & rs2 & num_shapes & colors & st & Hr & Hc & Hk
          & Hir & Hrs0 & Hnum & Hcol & Hslots & ->).
    cbn [run_labels run_image].
    pose proof Hslots as Hslots0.
    pose proof (slots_unbound _ _ _ _ _ _ _ _ _ _ _ Hslots eq_refl) as ->.
    apply slots_other_stdout in Hslots. cbn in Hslots.
    rewrite length_seq in Hslots.
    apply randint_Ok_inv in Hnum as (Hrange & _).
    split; [reflexivity|]. split.
    + destruct multichannel; reflexivity.
    + exists num_shapes. split; [lia|]. split; [|exact Hslots].
      destruct (Z_le_gt_dec num_shapes 0) as [Hle|Hgt]; [left; exact Hle|].
      destruct (Z_le_gt_dec num_trials 0) as [Hle|Hgt']; [right; exact Hle|].
      exfalso.
      destruct (Z.to_nat num_shapes) as [|k] eqn:E; [lia|].
      destruct (Z.to_nat num_trials) as [|n] eqn:En; [lia|].
      cbn [seq slots] in Hslots0.
      apply bind_Ok_inv in Hslots0 as (g & w1 & Hg & Hslots0).
      rewrite select_generator_other in Hg. injection Hg as <- <-.
      apply bind_Ok_inv in Hslots0 as (st1 & w2 & Htr & _).
      rewrite En in Htr.
      eapply trials_unbound_no_return; [|exact Htr]. reflexivity.
Qed.


(** ** The fixed-size rectangle of the pinned example *)








End RandomShapes.

(** ** The model at concrete inputs *)

(** C1 at concrete inputs.  An ordinary call with an unrecognized
    scenario (an 8 x 8 canvas, one to two shapes, the defaults otherwise)
    fails on the first trial of its first slot with [UnboundLocalError],
    after nine draws and one printed message.  With a shape count drawn
    from 0..0 the call returns the blank canvas and no labels. *)
Lemma unrecognized_scenario_not_rejected_witness :
  random_shapes box_polygon box_disk approx_triangle_height lcg_stream
                (8, 8) 2 1 2 None true 3 None (OtherScenario "unknown") None
                false 100 None (world_of [1; 7; 8; 9; 10; 11; 12; 3; 4])
  = (Raise (UnboundLocalError "shape_generator"),
     mkWorld (mkRandomState (stream_of [1; 7; 8; 9; 10; 11; 12; 3; 4]) 9)
             [] ["Error in the script"]) /\
  exists image labels,
    random_shapes box_polygon box_disk approx_triangle_height lcg_stream
                  (2, 2) 0 0 2 None false 3 None (OtherScenario "unknown")
                  None false 100 None (world_of [])
    = (Ok (image, labels),
       snd (random_shapes box_polygon box_disk approx_triangle_height
                          lcg_stream (2, 2) 0 0 2 None false 3 None
                          (OtherScenario "unknown") None false 100 None
                          (world_of []))) /\
    labels = [] /\ image = Grey [[255; 255]; [255; 255]].
Proof.
  destruct (unrecognized_scenario_not_rejected
              box_polygon box_disk approx_triangle_height lcg_stream
              "unknown") as (_ & Hfail & Hret).
  split.
  - pose proof (Hfail 8 8 2 1 2 None true 3 false 100 None
                      (world_of [1; 7; 8; 9; 10; 11; 12; 3; 4])
                      ltac:(lia) ltac:(lia) ltac:(lia) ltac:(lia)
                      ltac:(cbn; lia) ltac:(lia) ltac:(lia) ltac:(lia) I)
      as [_ Hrun].
    exact Hrun.
  - exists (Grey [[255; 255]; [255; 255]]), [].
    match goal with
    | |- ?H /\ _ => assert (Hrun : H) by (vm_compute; reflexivity)
    end.
    split; [exact Hrun|].
    apply Hret in Hrun as (H1 & H2 & _).
    split; [exact H1 | exact H2].
Defined.





(** A run on a 6 x 6 canvas that places two rectangles. *)
Lemma accepted_shapes_disjoint_witness :
  exists run,
    random_shapes_run box_polygon box_disk approx_triangle_height lcg_stream
                      (6, 6) 2 1 2 None true 3 None SHAPE_GENERATOR_ALL_HALO
                      None false 100 None
                      (world_of [1; 7; 8; 9; 10; 11; 12; 0; 1; 1; 0; 1; 5; 3; 3; 2])
    = (Ok run,
       snd (random_shapes_run box_polygon box_disk approx_triangle_height
              lcg_stream (6, 6) 2 1 2 None true 3 None
              SHAPE_GENERATOR_ALL_HALO None false 100 None
              (world_of [1; 7; 8; 9; 10; 11; 12; 0; 1; 1; 0; 1; 5; 3; 3; 2])))
    /\ run_labels run = [("rectangle", ((1, 3), (1, 4)));
                         ("rectangle", ((3, 5), (3, 5)))]
    /\ pairwise_disjoint (run_filled run) (run_accepted run).
Proof.
  eexists.
  match goal with
  | |- ?H /\ _ => assert (Hrun : H) by (vm_compute; reflexivity)
  end.
  split; [exact Hrun|]. split; [reflexivity|].
  apply accepted_shapes_disjoint in Hrun as (_ & H & _). exact H.
Defined.

(** C4: the claim fails.  The uniform sample 1/2 lies in the second
    weight band, from 0.4 to 0.8; the claim pairs that band with the
    circle fitter, the selector returns the triangle fitter. *)
Lemma halo_second_band_is_triangle :
  exists g w',
    select_generator box_polygon box_disk approx_triangle_height None
                     SHAPE_GENERATOR_ALL_HALO None (world_of [2 ^ 52])
    = (Ok (Some g), w') /\
    g = _generate_triangle_mask box_polygon approx_triangle_height /\
    g <> _generate_circle_mask box_disk.
Proof.
  eexists _, _. split; [rewrite select_generator_halo; reflexivity|].
  split; [reflexivity|].
  intros Heq.
  apply (f_equal (fun f : Fitter =>
                    fst (f (5, 5) (20, 20, 3) (1, 1)
                           (mkRandomState (fun _ => 0) 0)))) in Heq.
  vm_compute in Heq. discriminate.
Qed.

(** A run with three slots: one label, two exhausted slots. *)
Lemma labels_bounded_by_shape_count_witness :
  exists run,
    random_shapes_run box_polygon box_disk approx_triangle_height lcg_stream
                      (4, 4) 3 3 3 None false 3 (Some "rectangle")
                      SHAPE_GENERATOR_ALL_HALO None false 2 None
                      (world_of [])
    = (Ok run,
       snd (random_shapes_run box_polygon box_disk approx_triangle_height
              lcg_stream (4, 4) 3 3 3 None false 3 (Some "rectangle")
              SHAPE_GENERATOR_ALL_HALO None false 2 None (world_of [])))
    /\ length (run_labels run) = 1%nat
    /\ 0 <= Z.of_nat (length (run_labels run)) <= run_num_shapes run
    /\ run_num_shapes run <= 3.
Proof.
  eexists.
  match goal with
  | |- ?H /\ _ => assert (Hrun : H) by (vm_compute; reflexivity)
  end.
  split; [exact Hrun|]. split; [reflexivity|].
  apply labels_bounded_by_shape_count in Hrun
    as (_ & _ & Hnum & _ & Hlen & Hle).
  specialize (Hle ltac:(lia)). lia.
Defined.



(** A run on a 3 x 3 canvas with three channels that places one
    rectangle. *)
Lemma occupancy_mask_spec_witness :
  exists run,
    random_shapes_run box_polygon box_disk approx_triangle_height lcg_stream
                      (3, 3) 1 1 2 None true 3 (Some "rectangle")
                      SHAPE_GENERATOR_ALL_HALO None false 100 None
                      (world_of [0; 7; 8; 9])
    = (Ok run,
       snd (random_shapes_run box_polygon box_disk approx_triangle_height
              lcg_stream (3, 3) 1 1 2 None true 3 (Some "rectangle")
              SHAPE_GENERATOR_ALL_HALO None false 100 None
              (world_of [0; 7; 8; 9])))
    /\ shaped 3 3 3 (run_filled run)
    /\ mask_le (unoccupied 3 3 3) (run_filled run).
Proof.
  eexists.
  match goal with
  | |- ?H /\ _ => assert (Hrun : H) by (vm_compute; reflexivity)
  end.
  split; [exact Hrun|].
  apply occupancy_mask_spec in Hrun as (H1 & _ & _ & _ & H2 & _).
  split; [exact H1 | exact H2].
Defined.

(** C9: the claim fails.  On a 3 x 3 canvas with three channels the
    occupancy mask has three channels per pixel, like the canvas: the
    pixel claimed by the rectangle holds three true values, an unclaimed
    one three false values. *)
Lemma occupancy_mask_has_channel_axis :
  exists run w',
    random_shapes_run box_polygon box_disk approx_triangle_height lcg_stream
                      (3, 3) 1 1 2 None true 3 (Some "rectangle")
                      SHAPE_GENERATOR_ALL_HALO None false 100 None
                      (world_of [0; 7; 8; 9])
    = (Ok run, w') /\
    run_labels run = [("rectangle", ((0, 2), (0, 2)))] /\
    pixel (run_filled run) (0, 0)%nat = Some [true; true; true] /\
    pixel (run_filled run) (2, 2)%nat = Some [false; false; false] /\
    pixel (run_image run) (0, 0)%nat = Some [7; 8; 9].
Proof.
  eexists _, _. split; [vm_compute; reflexivity|].
  repeat split.
Qed.

(** A run with the default intensity range that places one rectangle. *)
Lemma default_colors_below_background_witness :
  exists run,
    random_shapes_run box_polygon box_disk approx_triangle_height lcg_stream
                      (3, 3) 1 1 2 None true 3 (Some "rectangle")
                      SHAPE_GENERATOR_ALL_HALO None false 100 None
                      (world_of [0; 7; 8; 9])
    = (Ok run,
       snd (random_shapes_run box_polygon box_disk approx_triangle_height
              lcg_stream (3, 3) 1 1 2 None true 3 (Some "rectangle")
              SHAPE_GENERATOR_ALL_HALO None false 100 None
              (world_of [0; 7; 8; 9])))
    /\ run_colors run = [[7; 8; 9]]
    /\ forall color v, color ∈ run_colors run -> v ∈ color -> 0 <= v <= 254.
Proof.
  eexists.
  match goal with
  | |- ?H /\ _ => assert (Hrun : H) by (vm_compute; reflexivity)
  end.
  split; [exact Hrun|]. split; [reflexivity|].
  apply default_colors_below_background in Hrun as (H & _). exact H.
Defined.

(** ** Further properties at concrete inputs *)

Lemma empty_shape_count_range_witness :
  random_shapes box_polygon box_disk approx_triangle_height lcg_stream
                (4, 4) 1 2 2 None true 3 None SHAPE_GENERATOR_ALL_HALO None
                false 100 None (world_of [])
  = (Raise (ValueError "low >= high"), world_of []).
Proof.
  apply empty_shape_count_range; cbn; lia.
Defined.

Lemma no_trials_no_shapes_witness :
  exists run,
    random_shapes_run box_polygon box_disk approx_triangle_height lcg_stream
                      (2, 2) 2 2 2 None false 3 (Some "circle")
                      SHAPE_GENERATOR_ALL_HALO None false 0 None
                      (world_of [])
    = (Ok run,
       snd (random_shapes_run box_polygon box_disk approx_triangle_height
              lcg_stream (2, 2) 2 2 2 None false 3 (Some "circle")
              SHAPE_GENERATOR_ALL_HALO None false 0 None (world_of [])))
    /\ run_labels run = [] /\ run_image run = background 2 2 1.
Proof.
  eexists.
  match goal with
  | |- ?H /\ _ => assert (Hrun : H) by (vm_compute; reflexivity)
  end.
  split; [exact Hrun|].
  apply no_trials_no_shapes in Hrun as (H1 & H2 & _); [|lia].
  split; [exact H1 | exact H2].
Defined.

Lemma scenario_bounds_categories_witness :
  exists image labels,
    random_shapes box_polygon box_disk approx_triangle_height lcg_stream
                  (8, 8) 2 2 2 (Some 4) false 3 None SHAPE_GENERATOR_C
                  None true 100 None (world_of [0; 7; 8; 0; 4; 4; 0; 0; 3; 3])
    = (Ok (image, labels),
       snd (random_shapes box_polygon box_disk approx_triangle_height
              lcg_stream (8, 8) 2 2 2 (Some 4) false 3 None SHAPE_GENERATOR_C
              None true 100 None (world_of [0; 7; 8; 0; 4; 4; 0; 0; 3; 3])))
    /\ length labels = 2%nat
    /\ Forall (fun label => fst label = "circle") labels.
Proof.
  eexists _, _.
  match goal with
  | |- ?H /\ _ => assert (Hrun : H) by (vm_compute; reflexivity)
  end.
  split; [exact Hrun|]. split; [reflexivity|].
  apply scenario_bounds_categories in Hrun as (H & _). apply H. reflexivity.
Defined.


Lemma claimed_pixels_never_repainted_witness :
  let stream := stream_of [0; 0; 0; 0; 0; 0; 1; 1; 1; 1; 0; 0] in
  let fitter := Some (_generate_rectangle_mask box_polygon) in
  let st1 :=
    mkEngine [[[7]; [255]; [255]]; [[255]; [255]; [255]];
              [[255]; [255]; [255]]]
             [[[true]; [false]; [false]]; [[false]; [false]; [false]];
              [[false]; [false]; [false]]]
             [("rectangle", ((0, 1), (0, 1)))] fitter [[(0, 0)]] in
  let st2 :=
    mkEngine [[[7]; [255]; [255]]; [[255]; [9]; [255]];
              [[255]; [255]; [255]]]
             [[[true]; [false]; [false]]; [[false]; [true]; [false]];
              [[false]; [false]; [false]]]
             [("rectangle", ((0, 1), (0, 1)));
              ("rectangle", ((1, 2), (1, 2)))] fitter
             [[(0, 0)]; [(1, 1)]] in
  slots box_polygon box_disk approx_triangle_height [0%nat]
        (Some "rectangle") SHAPE_GENERATOR_ALL_HALO 3 (3, 3, 1) (1, 2) false
        [[7]; [9]] (initial 3 3 1) (mkWorld (mkRandomState stream 0) [] [])
  = (Ok st1, mkWorld (mkRandomState stream 4) [] []) /\
  slots box_polygon box_disk approx_triangle_height [1%nat]
        (Some "rectangle") SHAPE_GENERATOR_ALL_HALO 3 (3, 3, 1) (1, 2) false
        [[7]; [9]] st1 (mkWorld (mkRandomState stream 4) [] [])
  = (Ok st2, mkWorld (mkRandomState stream 12) [] []) /\
  pixel (e_image st2) (0, 0)%nat = pixel (e_image st1) (0, 0)%nat /\
  claimed (e_filled st2) (e_accepted st2) (0, 0)%nat.
Proof.
  intros stream fitter st1 st2.
  assert (H1 : slots box_polygon box_disk approx_triangle_height [0%nat]
                     (Some "rectangle") SHAPE_GENERATOR_ALL_HALO 3 (3, 3, 1)
                     (1, 2) false [[7]; [9]] (initial 3 3 1)
                     (mkWorld (mkRandomState stream 0) [] [])
               = (Ok st1, mkWorld (mkRandomState stream 4) [] []))
    by reflexivity.
  assert (H2 : slots box_polygon box_disk approx_triangle_height [1%nat]
                     (Some "rectangle") SHAPE_GENERATOR_ALL_HALO 3 (3, 3, 1)
                     (1, 2) false [[7]; [9]] st1
                     (mkWorld (mkRandomState stream 4) [] [])
               = (Ok st2, mkWorld (mkRandomState stream 12) [] []))
    by reflexivity.
  split; [exact H1|]. split; [exact H2|].
  assert (Hcl : claimed (e_filled st1) (e_accepted st1) (0, 0)%nat).
  { exists [(0, 0)]. split; [apply list_elem_of_singleton; reflexivity|].
    exists (0, 0). split; [apply list_elem_of_singleton; reflexivity|].
    reflexivity. }
  assert (Hchans : 0 < 1) by lia.
  exact (claimed_pixels_never_repainted _ _ _ lcg_stream _ _ _ _ _ _ _ _ _
           _ _ _ _ _ _ _ Hchans H1 H2 Hcl).
Defined.

Lemma colors_are_drawn_channel_major_witness :
  let random := mkRandomState (stream_of [13; 25; 7; 8]) 0 in
  exists colors,
    _generate_random_colors 2 2 (IntensityPairs [(0, 9); (100, 109)]) random
    = (Ok colors, advance 4 random) /\
    length colors = 2%nat /\
    exists row, colors !! 1%nat = Some row /\ row !! 1%nat = Some 108.
Proof.
  intros random.
  destruct (colors_are_drawn_channel_major
              2 2 (IntensityPairs [(0, 9); (100, 109)])
              [(0, 9); (100, 109)] random)
    as (colors & Hrun & Hlen & Hentry).
  - lia.
  - reflexivity.
  - intros r Hr.
    apply elem_of_cons in Hr as [-> | Hr]; [cbn; lia|].
    apply list_elem_of_singleton in Hr as ->. cbn. lia.
  - exists colors. split; [exact Hrun|]. split; [apply Hlen; discriminate|].
    destruct (Hentry 1%nat 1%nat (100, 109)) as (row & Hrow & _ & _ & Hv);
      [cbn; lia | reflexivity |].
    exists row. split; [exact Hrow | exact Hv].
Defined.

Lemma intensity_range_check_witness :
  random_shapes box_polygon box_disk approx_triangle_height lcg_stream
                (4, 4) 2 1 2 None true 3 None SHAPE_GENERATOR_ALL_HALO
                (Some (IntensityPairs [(0, 300)])) false 100 (Some 42)
                (world_of [])
  = (Raise intensity_error, world_of []).
Proof.
  apply intensity_range_check.
  - lia.
  - lia.
  - cbn. discriminate.
  - apply Exists_cons_tl, Exists_cons_hd. cbn. lia.
Defined.

Lemma claimed_pixels_hold_table_colors_witness :
  exists run,
    random_shapes_run box_polygon box_disk approx_triangle_height lcg_stream
                      (4, 4) 1 1 2 None true 2 (Some "rectangle")
                      SHAPE_GENERATOR_ALL_HALO
                      (Some (IntensityPairs [(10, 19); (250, 255)])) false
                      100 None (world_of [0; 13; 11; 1; 1; 0; 0])
    = (Ok run,
       snd (random_shapes_run box_polygon box_disk approx_triangle_height
              lcg_stream (4, 4) 1 1 2 None true 2 (Some "rectangle")
              SHAPE_GENERATOR_ALL_HALO
              (Some (IntensityPairs [(10, 19); (250, 255)])) false 100 None
              (world_of [0; 13; 11; 1; 1; 0; 0])))
    /\ run_colors run = [[13; 255]]
    /\ (forall color v, color ∈ run_colors run -> v ∈ color -> 0 <= v <= 255)
    /\ forall rc px,
        claimed (run_filled run) (run_accepted run) rc ->
        pixel (run_image run) rc = Some px ->
        exists color, color ∈ run_colors run /\ broadcast 2 color = Some px.
Proof.
  eexists.
  match goal with
  | |- ?H /\ _ => assert (Hrun : H) by (vm_compute; reflexivity)
  end.
  split; [exact Hrun|]. split; [reflexivity|].
  apply claimed_pixels_hold_table_colors in Hrun as (H1 & _ & H2).
  split; [exact H1 | exact H2].
Defined.

Lemma reversed_intensity_pair_fails_witness :
  fst (random_shapes box_polygon box_disk approx_triangle_height lcg_stream
                     (4, 4) 2 1 2 None false 3 None SHAPE_GENERATOR_ALL_HALO
                     (Some (IntensityPair 200 100)) false 100 None
                     (world_of [1; 5]))
  = Raise (ValueError "low >= high").
Proof.
  apply reversed_intensity_pair_fails; lia.
Defined.

Lemma returned_image_shape_witness :
  exists run,
    random_shapes_run box_polygon box_disk approx_triangle_height lcg_stream
                      (3, 4) 1 1 2 None false 3 (Some "rectangle")
                      SHAPE_GENERATOR_ALL_HALO None false 100 None
                      (world_of [0; 7])
    = (Ok run,
       snd (random_shapes_run box_polygon box_disk approx_triangle_height
              lcg_stream (3, 4) 1 1 2 None false 3 (Some "rectangle")
              SHAPE_GENERATOR_ALL_HALO None false 100 None
              (world_of [0; 7])))
    /\ run_image run
       = [[[7]; [7]; [255]; [255]]; [[7]; [7]; [255]; [255]];
          [[255]; [255]; [255]; [255]]]
    /\ exists a,
        fst (random_shapes box_polygon box_disk approx_triangle_height
               lcg_stream (3, 4) 1 1 2 None false 3 (Some "rectangle")
               SHAPE_GENERATOR_ALL_HALO None false 100 None
               (world_of [0; 7]))
        = Ok (Grey a, run_labels run) /\
        length a = 3%nat /\
        forall r c v,
          (a !! r) ≫= (fun row => row !! c) = Some v <->
          pixel (run_image run) (r, c) = Some [v].
Proof.
  eexists.
  match goal with
  | |- ?H /\ _ => assert (Hrun : H) by (vm_compute; reflexivity)
  end.
  split; [exact Hrun|]. split; [reflexivity|].
  apply returned_image_shape in Hrun as (_ & image & Hret & Himage).
  destruct image as [a|a]; [destruct Himage as [Hm _]; discriminate|].
  destruct Himage as (_ & Hlen & _ & Hval).
  exists a. rewrite Hret. split; [reflexivity|].
  split; [exact Hlen | exact Hval].
Defined.

Lemma triangle_fitter_spec_witness :
  let random := mkRandomState (stream_of [1]) 0 in
  _generate_triangle_mask box_polygon approx_triangle_height (5, 2)
                          (8, 8, 3) (2, 4) random
  = (Ok (box_polygon [5; 2; 5] [2; 3; 5], ("triangle", ((2, 5), (2, 5)))),
     advance 1 random).
Proof.
  intros random.
  destruct (triangle_fitter_spec box_polygon approx_triangle_height
              5 2 8 8 3 2 4 random) as (_ & _ & H).
  destruct H as (side & Hside & _ & Hrun); [lia | lia | cbn; lia |].
  rewrite Hside in Hrun. exact Hrun.
Defined.


Lemma min_size_check_witness :
  random_shapes box_polygon box_disk approx_triangle_height lcg_stream
                (4, 6) 2 1 5 None true 3 None SHAPE_GENERATOR_ALL_HALO None
                false 100 (Some 42) (world_of [])
  = (Raise (ValueError "Minimum dimension must be less than ncols and nrows"),
     world_of []) /\
  fst (random_shapes box_polygon box_disk approx_triangle_height lcg_stream
                     (4, 6) 2 1 4 None true 3 None SHAPE_GENERATOR_ALL_HALO
                     None false 100 (Some 42) (world_of []))
  <> Raise (ValueError "Minimum dimension must be less than ncols and nrows").
Proof.
  split.
  - apply min_size_check. left. lia.
  - intros Herr.
    destruct (min_size_check box_polygon box_disk approx_triangle_height
                lcg_stream 4 6 2 1 4 None true 3 None
                SHAPE_GENERATOR_ALL_HALO None false 100 (Some 42)
                (world_of [])) as (_ & Hiff & _).
    apply Hiff in Herr. lia.
Defined.

Lemma unit_size_error_escapes_trials_witness :
  fst (random_shapes box_polygon box_disk approx_triangle_height lcg_stream
                     (4, 4) 2 1 1 None true 3 (Some "circle")
                     SHAPE_GENERATOR_ALL_HALO None false 100 None
                     (world_of [1; 5]))
  = Raise (ValueError "size must be > 1 for circles").
Proof.
  refine (proj1 (unit_size_error_escapes_trials
                   box_polygon box_disk approx_triangle_height lcg_stream
                   4 4 2 1 1 None true 3 (Some "circle")
                   SHAPE_GENERATOR_ALL_HALO false 100 (world_of [1; 5])
                   _ _ _ _ _ _ _ _ _) _);
    first [lia | cbn; lia | left; reflexivity].
Defined.

Lemma recognized_scenario_prints_nothing_witness :
  exists image labels,
    random_shapes box_polygon box_disk approx_triangle_height lcg_stream
                  (8, 8) 2 2 2 (Some 4) false 3 None SHAPE_GENERATOR_C
                  None true 100 None (world_of [0; 7; 8; 0; 4; 4; 0; 0; 3; 3])
    = (Ok (image, labels),
       snd (random_shapes box_polygon box_disk approx_triangle_height
              lcg_stream (8, 8) 2 2 2 (Some 4) false 3 None SHAPE_GENERATOR_C
              None true 100 None (world_of [0; 7; 8; 0; 4; 4; 0; 0; 3; 3])))
    /\ length labels = 2%nat
    /\ w_stdout
         (snd (random_shapes box_polygon box_disk approx_triangle_height
                 lcg_stream (8, 8) 2 2 2 (Some 4) false 3 None
                 SHAPE_GENERATOR_C None true 100 None
                 (world_of [0; 7; 8; 0; 4; 4; 0; 0; 3; 3])))
       = [].
Proof.
  eexists _, _.
  match goal with
  | |- ?H /\ _ => assert (Hrun : H) by (vm_compute; reflexivity)
  end.
  split; [exact Hrun|]. split; [reflexivity|].
  apply recognized_scenario_prints_nothing in Hrun; [exact Hrun|].
  intros _ name. discriminate.
Defined.

Lemma unit_rectangles_fill_every_slot_witness :
  exists run,
    random_shapes_run box_polygon box_disk approx_triangle_height lcg_stream
                      (3, 3) 2 2 1 None false 3 (Some "rectangle")
                      SHAPE_GENERATOR_ALL_HALO None true 1 None
                      (world_of [0; 7; 8; 0; 0; 1; 1; 1; 1; 0; 0])
    = (Ok run,
       snd (random_shapes_run box_polygon box_disk approx_triangle_height
              lcg_stream (3, 3) 2 2 1 None false 3 (Some "rectangle")
              SHAPE_GENERATOR_ALL_HALO None true 1 None
              (world_of [0; 7; 8; 0; 0; 1; 1; 1; 1; 0; 0])))
    /\ run_labels run = [("rectangle", ((0, 2), (0, 2)));
                         ("rectangle", ((1, 2), (1, 2)))]
    /\ length (run_labels run) = Z.to_nat (run_num_shapes run).
Proof.
  eexists.
  match goal with
  | |- ?H /\ _ => assert (Hrun : H) by (vm_compute; reflexivity)
  end.
  split; [exact Hrun|]. split; [reflexivity|].
  apply unit_rectangles_fill_every_slot in Hrun as (H & _);
    [exact H | lia | cbn; lia | lia].
Defined.
